(** * pkg/downloader: the multi-connection download engine

    A shallow embedding of [pkg/downloader/downloader.go], the
    properties its specification states about it (Part II), and
    further properties of the code (Part III).

    Conventions of the embedding:
    - Go's [uint64], [int] and [int64] are [Z] with the wrap-around of
      each operation written out ([U64.wrap], [I64.wrap]);
    - [float64] is the Standard Library's [spec_float] at precision 53,
      with [math.Ceil] and the conversions written over it;
    - strings are [string] (bytes), the disk is a [gmap] from paths to
      bytes;
    - what the package calls but does not define (net/http, net/url,
      path/filepath, os, the save dialog, the ftp client) is a field of
      [Platform] or of [Env];
    - the goroutines of [multiThreadDownload] are a pool of program
      counters stepped one at a time by a schedule. *)

From Stdlib Require Import ZArith Bool Ascii String List Lia.
From Stdlib Require Import Floats.SpecFloat Numbers.DecimalString.
From stdpp Require Import base tactics option list gmap strings.

Local Open Scope Z_scope.

(* ================================================================== *)
(** * Part I: definitions *)
(* ================================================================== *)

(** ** Machine integers *)

Module U64.
Definition modulus : Z := 2 ^ 64.
Definition wrap (z : Z) : Z := z mod modulus.
Definition add (a b : Z) : Z := wrap (a + b).
Definition sub (a b : Z) : Z := wrap (a - b).
Definition mul (a b : Z) : Z := wrap (a * b).
End U64.

Module I64.
Definition half : Z := 2 ^ 63.
Definition wrap (z : Z) : Z := (z + half) mod U64.modulus - half.
Definition add (a b : Z) : Z := wrap (a + b).
Definition in_rangeb (z : Z) : bool := (- half <=? z) && (z <? half).
End I64.

(** ** float64 *)

Module F64.
Definition prec : Z := 53.
Definition emax : Z := 1024.

(** [float64(n)] for an integer [n]: round to nearest, ties to even. *)
Definition of_Z (n : Z) : spec_float := binary_normalize prec emax n 0 false.

(** [x / y] *)
Definition div (x y : spec_float) : spec_float := SFdiv prec emax x y.

(** [math.Ceil]: the least integer value not below [x]; zeros,
    infinities and NaN are returned as they are, and a value in
    (-1, 0) gives -0. A [float64] whose exponent is not negative is
    an integer already. *)
Definition Ceil (x : spec_float) : spec_float :=
  match x with
  | S754_finite s m e =>
      if 0 <=? e then x
      else
        let d := 2 ^ (- e) in
        let q := Z.pos m / d in
        let r := Z.pos m mod d in
        if s then binary_normalize prec emax (- q) 0 true
        else binary_normalize prec emax (if r =? 0 then q else q + 1) 0 false
  | _ => x
  end.

(** The integer part of a finite value (truncation toward zero);
    [None] for an infinity or NaN. *)
Definition trunc (x : spec_float) : option Z :=
  match x with
  | S754_zero _ => Some 0
  | S754_finite s m e =>
      let a := if 0 <=? e then Z.pos m * 2 ^ e else Z.pos m / 2 ^ (- e) in
      Some (if s then - a else a)
  | S754_infinity _ | S754_nan => None
  end.
End F64.

(** ** Errors *)

(** The package builds its errors with [errors.New] and [fmt.Errorf];
    each constructor stands for one message. Errors that a library
    call returns are passed on unchanged: [ErrExternal]. *)
Inductive error : Type :=
  | ErrTimeout                      (* errors.New("下载超时") *)
  | ErrFtpDial                      (* errors.New("链接 FTP 服务器出错") *)
  | ErrFtpLogin                     (* errors.New("登录 FTP 出错") *)
  | ErrBadFileName                  (* errors.New("文件名不正确。") *)
  | ErrNotFound (url : string)      (* fmt.Errorf("文件不存在：%s", url) *)
  | ErrUnauthorized (url : string)  (* fmt.Errorf("无权访问：%s", url) *)
  | ErrConnect (url : string)       (* fmt.Errorf("连接 %s 出错。", url) *)
  | ErrRangeNotSupported            (* errors.New("server doesn't support Range requests") *)
  | ErrExternal (msg : string).

(** A Go call returning [(T, error)]. *)
Inductive result (A : Type) : Type :=
  | Ok (a : A)
  | Err (e : error).
Arguments Ok {A} a.
Arguments Err {A} e.

(** What running a piece of the program comes to. *)
Inductive outcome (A : Type) : Type :=
  | Returns (a : A)
  | Panics     (* a run-time panic; nothing in the package recovers *)
  | Pending.   (* the fuel or the schedule given to the model ran out *)
Arguments Returns {A} a.
Arguments Panics {A}.
Arguments Pending {A}.

#[global] Instance outcome_ret : MRet outcome := fun A a => Returns a.
#[global] Instance outcome_bind : MBind outcome := fun A B f m =>
  match m with
  | Returns a => f a
  | Panics => Panics
  | Pending => Pending
  end.

(** ** Collaborators outside the package *)

Inductive OS : Type := unix | windows.

(** [*netUrl.URL], as far as the package reads it. *)
Record URL : Type := {
  Scheme : string;
  Host : string;                 (* [u.Host]: the host, or host:port *)
  Port : string;                 (* [u.Port()]: the port of [Host], or empty *)
  Path : string;
  Username : string;
  Password : string;
  URL_String : string
}.

Record Cookie : Type := { cookie_Name : string; cookie_Value : string }.

Class Platform : Type := {
  (** Go leaves [int(f)] and [uint64(f)] implementation-defined when
      [f] does not fit the target type: the value is the platform's. *)
  int_of_f64_unfit : spec_float -> Z;
  uint64_of_f64_unfit : spec_float -> Z;
  GOOS : OS;
  filepath_IsAbs : string -> bool;
  filepath_Join : string -> string -> string;
  filepath_Split : string -> string * string;
  filepath_Base : string -> string;
  netUrl_Parse : string -> result URL;
  mime_ParseMediaType : string -> result (gmap string string);
  http_NewRequest_error : string -> string -> option string
}.

(** ** The data model *)

Record Option : Type := {
  Dir : string;
  FileNamePrefix : string;
  MaxThreads : Z;                (* int *)
  MinChunkSize : Z;              (* uint64 *)
  EnableSaveFileDialog : bool;
  Overwrite : bool;
  Timeout : Z;                   (* time.Duration: int64 nanoseconds *)
  Cookies : list Cookie          (* []*http.Cookie; nil is [] *)
}.

(** [*sync.Mutex] as the one bit of its state the package depends on. *)
Record Mutex : Type := { locked : bool }.

(** The [downloader] back pointer of the Go struct is never read and
    is left out. [_lck] is a pointer: [None] is nil. *)
Record Job : Type := {
  Job_Option : Option;
  id : Z;                        (* uint64 *)
  Url : URL;
  FileName : string;
  FileSize : Z;                  (* uint64 *)
  isSupportRange : bool;
  isFtp : bool;
  _lck : option Mutex
}.

Section Planner.
Context `{Platform}.

(** [int(f)] *)
Definition int_of_f64 (f : spec_float) : Z :=
  match F64.trunc f with
  | Some z => if I64.in_rangeb z then z else I64.wrap (int_of_f64_unfit f)
  | None => I64.wrap (int_of_f64_unfit f)
  end.

(** [uint64(f)] *)
Definition uint64_of_f64 (f : spec_float) : Z :=
  match F64.trunc f with
  | Some z =>
      if (0 <=? z) && (z <? U64.modulus) then z
      else U64.wrap (uint64_of_f64_unfit f)
  | None => U64.wrap (uint64_of_f64_unfit f)
  end.

Definition AvaiableTreads (job : Job) : Z :=
  if negb job.(isSupportRange) then 1
  else if job.(FileSize) <? job.(Job_Option).(MinChunkSize) then 1
  else if job.(Job_Option).(MinChunkSize) <=? 0 then 1
  else
    let threads :=
      int_of_f64 (F64.Ceil (F64.div (F64.of_Z job.(FileSize))
                                    (F64.of_Z job.(Job_Option).(MinChunkSize)))) in
    if threads >? job.(Job_Option).(MaxThreads) then job.(Job_Option).(MaxThreads)
    else if threads <? 1 then 1
    else threads.

(** The chunk size of [multiThreadDownload]:
    [uint64(math.Ceil(float64(job.FileSize) / float64(theads)))]. *)
Definition chunkSizeOf (job : Job) (theads : Z) : Z :=
  uint64_of_f64 (F64.Ceil (F64.div (F64.of_Z job.(FileSize)) (F64.of_Z theads))).

(** The [start] and [end] of iteration [i] of the loop that starts
    the workers. *)
Definition chunkRange (job : Job) (theads chunkSize i : Z) : Z * Z :=
  let start := U64.mul (U64.wrap i) chunkSize in
  let end_ := U64.sub (U64.add start chunkSize) 1 in
  let end_ := if i =? theads - 1 then U64.sub job.(FileSize) 1 else end_ in
  (start, end_).

(** All ranges, in the order [for i := 0; i < theads; i++] makes them. *)
Definition chunkRanges (job : Job) (theads : Z) : list (Z * Z) :=
  let chunkSize := chunkSizeOf job theads in
  chunkRange job theads chunkSize <$> seqZ 0 theads.
End Planner.

(** Byte [b] is asked for by one of the ranges. *)
Definition covered (ranges : list (Z * Z)) (b : Z) : bool :=
  existsb (fun r => (r.1 <=? b) && (b <=? r.2)) ranges.

(** The ranges, in their order, tile the bytes [from .. to]: each
    starts where the one before ended, none is empty, the last ends
    at [to]. *)
Fixpoint tiles (from : Z) (ranges : list (Z * Z)) (to : Z) : Prop :=
  match ranges with
  | [] => from = to + 1
  | (start, end_) :: rest => start = from /\ start <= end_ /\ tiles (end_ + 1) rest to
  end.

(** ** Strings and paths *)

(** [strconv.Itoa] / the [%d] verb of [fmt.Sprintf]. *)
Definition itoa (z : Z) : string := NilZero.string_of_int (Z.to_int z).

(** [strip p s] is [Some r] when [s = p ++ r]. *)
Fixpoint strip (p s : string) : option string :=
  match p, s with
  | EmptyString, _ => Some s
  | String a p', String b s' => if Ascii.eqb a b then strip p' s' else None
  | String _ _, EmptyString => None
  end.

(** [strings.TrimPrefix(s, prefix)] *)
Definition TrimPrefix (s prefix : string) : string :=
  match strip prefix s with
  | Some r => r
  | None => s
  end.

(** [strings.Contains(s, ".")] *)
Fixpoint ContainsDot (s : string) : bool :=
  match s with
  | EmptyString => false
  | String c s' => Ascii.eqb c "."%char || ContainsDot s'
  end.

(** [s] has the byte [c] in it. *)
Fixpoint hasByte (c : ascii) (s : string) : bool :=
  match s with
  | EmptyString => false
  | String x rest => Ascii.eqb x c || hasByte c rest
  end.

(** [os.IsPathSeparator] *)
Definition IsPathSeparator (os : OS) (c : ascii) : bool :=
  match os with
  | unix => Ascii.eqb c "/"%char
  | windows => Ascii.eqb c "\"%char || Ascii.eqb c "/"%char
  end.

(** What the loop of [filepath.Ext] has met when it has walked a
    string from its end to its beginning. *)
Inductive ext_scan : Type :=
  | FoundDot (ext : string)   (* it returned [path[i:]] at a dot *)
  | HitSeparator              (* it stopped at a path separator *)
  | NoDot.                    (* it ran off the beginning *)

Fixpoint scanExt (os : OS) (path : string) : ext_scan :=
  match path with
  | EmptyString => NoDot
  | String c rest =>
      match scanExt os rest with
      | NoDot =>
          if IsPathSeparator os c then HitSeparator
          else if Ascii.eqb c "."%char then FoundDot path
          else NoDot
      | r => r
      end
  end.

(** [filepath.Ext]: the suffix beginning at the final dot of the final
    element of [path], empty if there is no dot. *)
Definition filepath_Ext (os : OS) (path : string) : string :=
  match scanExt os path with
  | FoundDot e => e
  | _ => EmptyString
  end.

(** [strconv.ParseUint(s, 10, 64)]: [None] is a syntax or range error. *)
Definition digit_of (c : ascii) : option Z :=
  let n := Z.of_N (N_of_ascii c) in
  if (48 <=? n) && (n <=? 57) then Some (n - 48) else None.

Definition maxUint64 : Z := U64.modulus - 1.

Fixpoint ParseUint_loop (s : string) (n : Z) : option Z :=
  match s with
  | EmptyString => Some n
  | String c s' =>
      match digit_of c with
      | None => None
      | Some d =>
          if maxUint64 / 10 + 1 <=? n then None
          else
            let n1 := n * 10 + d in
            if maxUint64 <? n1 then None else ParseUint_loop s' n1
      end
  end.

Definition ParseUint (s : string) : option Z :=
  match s with
  | EmptyString => None
  | _ => ParseUint_loop s 0
  end.

(** ** The world a Job runs in *)

Record Request : Type := {
  Method : string;
  req_URL : string;
  req_Cookies : list Cookie;
  Range : option (Z * Z)   (* the header "Range: bytes=start-end" *)
}.

(** The body of a response as a reader sees it: the blocks it
    returns, then EOF or an error. *)
Record Body : Type := {
  blocks : list (list Z);
  read_error : option string
}.

Record Response : Type := {
  StatusCode : Z;
  Header : gmap string string;   (* canonical key to first value *)
  resp_Body : Body;
  resp_Request_Path : string     (* resp.Request.URL.Path *)
}.

(** [r.Header.Get(key)]: the empty string when the key is absent. *)
Definition Header_Get (h : gmap string string) (key : string) : string :=
  default EmptyString (h !! key).

(** Files on disk with their bytes, the requests sent so far, and the
    clock in nanoseconds. *)
Record World : Type := {
  files : gmap string (list Z);
  sent : list Request;
  now : Z
}.

(** What the network, the disk, the user and the scheduler do during
    one run. A reply is [inl msg] when the round trip itself fails. *)
Record Env : Type := {
  os_Create_error : string -> option string;
  saveDialog : string -> option string;          (* [None]: cancelled *)
  probe_reply : string + Response;               (* the HEAD round trip *)
  chunk_reply : nat -> nat -> string + Response; (* worker, retry *)
  ftp_Dial_error : string -> option string;      (* by address dialled *)
  ftp_Login_error : string -> string -> option string;
  ftp_Retr : string -> string + Body;
  os_Write_error : string -> option (nat * string);
                         (* [file.Write] on the file at a path: the
                            bytes written before it failed, and why *)
  schedule : list nat;   (* which goroutine runs next, step by step *)
  loop_fuel : nat;       (* iterations allowed to [createTargetFile] *)
  select_latency : Z;    (* ns from [time.After] to the [select] *)
  transfer_duration : Z  (* ns the transfer takes once it has started *)
}.

(** [os.Stat(path)] followed by [os.IsNotExist(err)]. *)
Definition IsNotExist (w : World) (path : string) : bool :=
  bool_decide (w.(files) !! path = None).

Definition set_files (w : World) (fs : gmap string (list Z)) : World :=
  {| files := fs; sent := w.(sent); now := w.(now) |}.

Definition send (w : World) (req : Request) : World :=
  {| files := w.(files); sent := w.(sent) ++ [req]; now := w.(now) |}.

Definition advance (w : World) (ns : Z) : World :=
  {| files := w.(files); sent := w.(sent); now := w.(now) + ns |}.

(** [os.Create(path)]: the file is created or truncated. *)
Definition os_Create (env : Env) (path : string) (w : World) : result string * World :=
  match env.(os_Create_error) path with
  | Some msg => (Err (ErrExternal msg), w)
  | None => (Ok path, set_files w (<[path := []]> w.(files)))
  end.

Definition set_FileName (job : Job) (name : string) : Job :=
  {| Job_Option := job.(Job_Option); id := job.(id); Url := job.(Url);
     FileName := name; FileSize := job.(FileSize);
     isSupportRange := job.(isSupportRange); isFtp := job.(isFtp);
     _lck := job.(_lck) |}.

Definition set_Dir (opt : Option) (dir : string) : Option :=
  {| Dir := dir; FileNamePrefix := opt.(FileNamePrefix);
     MaxThreads := opt.(MaxThreads); MinChunkSize := opt.(MinChunkSize);
     EnableSaveFileDialog := opt.(EnableSaveFileDialog);
     Overwrite := opt.(Overwrite); Timeout := opt.(Timeout);
     Cookies := opt.(Cookies) |}.

Definition set_Option (job : Job) (opt : Option) : Job :=
  {| Job_Option := opt; id := job.(id); Url := job.(Url);
     FileName := job.(FileName); FileSize := job.(FileSize);
     isSupportRange := job.(isSupportRange); isFtp := job.(isFtp);
     _lck := job.(_lck) |}.

Definition set_FileSize (job : Job) (size : Z) : Job :=
  {| Job_Option := job.(Job_Option); id := job.(id); Url := job.(Url);
     FileName := job.(FileName); FileSize := size;
     isSupportRange := job.(isSupportRange); isFtp := job.(isFtp);
     _lck := job.(_lck) |}.

Definition set_isSupportRange (job : Job) (b : bool) : Job :=
  {| Job_Option := job.(Job_Option); id := job.(id); Url := job.(Url);
     FileName := job.(FileName); FileSize := job.(FileSize);
     isSupportRange := b; isFtp := job.(isFtp);
     _lck := job.(_lck) |}.

Section Files.
Context `{Platform}.

Definition TargetFile (job : Job) : string :=
  if filepath_IsAbs job.(FileName) then job.(FileName)
  else filepath_Join job.(Job_Option).(Dir)
         (job.(Job_Option).(FileNamePrefix) +:+ job.(FileName)).

(** [fmt.Sprintf("%s(%d)%s", baseWithoutExt, index, ext)] *)
Definition indexedName (baseWithoutExt : string) (index : Z) (ext : string) : string :=
  baseWithoutExt +:+ "(" +:+ itoa index +:+ ")" +:+ ext.

(** The [for] loop of [createTargetFile]. It has no bound in the
    source; [fuel] counts its iterations, [None] is fuel run out. *)
Fixpoint createTargetFile_loop (fuel : nat) (env : Env) (job : Job) (w : World)
    (baseWithoutExt ext : string) (index : Z)
    : option (result string * Job * World) :=
  match fuel with
  | O => None
  | S fuel' =>
      let newBase := indexedName baseWithoutExt index ext in
      let newPath := filepath_Join job.(Job_Option).(Dir) newBase in
      if IsNotExist w newPath then
        let job' := set_FileName job
                      (TrimPrefix newBase job.(Job_Option).(FileNamePrefix)) in
        let '(r, w') := os_Create env (TargetFile job') w in
        Some (r, job', w')
      else
        createTargetFile_loop fuel' env job w baseWithoutExt ext (I64.add index 1)
  end.

Definition createTargetFile (env : Env) (job : Job) (w : World)
    : option (result string * Job * World) :=
  if job.(Job_Option).(Overwrite) then
    let '(r, w') := os_Create env (TargetFile job) w in Some (r, job, w')
  else
    let original := TargetFile job in
    if IsNotExist w original then
      let '(r, w') := os_Create env original w in Some (r, job, w')
    else
      let index := 1 in
      let base := job.(Job_Option).(FileNamePrefix) +:+ job.(FileName) in
      let ext := filepath_Ext GOOS base in
      let baseWithoutExt :=
        substring 0 (String.length base - String.length ext) base in
      createTargetFile_loop env.(loop_fuel) env job w baseWithoutExt ext index.
End Files.

(** ** The Downloader and its Jobs *)

(** An interceptor is handed the [*Job]. *)
Definition AfterCreateJobInterceptor : Type := Job -> Job.

Record Downloader : Type := {
  lastJobId : Z;                 (* uint64 *)
  Downloader_Option : Option;
  afterCreateJobInterceptor : AfterCreateJobInterceptor
}.

Definition cloneOption (opt : Option) : Option :=
  {| Dir := opt.(Dir);
     FileNamePrefix := opt.(FileNamePrefix);
     MaxThreads := opt.(MaxThreads);
     MinChunkSize := opt.(MinChunkSize);
     EnableSaveFileDialog := opt.(EnableSaveFileDialog);
     Overwrite := opt.(Overwrite);
     Timeout := opt.(Timeout);
     Cookies := [] |}.            (* the literal names no Cookies *)

(** [for _, set := range withOption { set(&opt) }] *)
Definition applyOptions (withOption : list (Option -> Option)) (opt : Option) : Option :=
  foldl (fun o set => set o) opt withOption.

(** [New]; [pwd] is what [os.Getwd] gave, or the empty string. *)
Definition New (pwd : string) (withOption : list (Option -> Option)) : Downloader :=
  let opt :=
    {| Dir := pwd;
       FileNamePrefix := "";
       MaxThreads := 4;
       MinChunkSize := 500 * 1024;
       EnableSaveFileDialog := true;
       Overwrite := false;
       Timeout := 10 * 1000000000;
       Cookies := [] |} in
  {| lastJobId := 0;
     Downloader_Option := applyOptions withOption opt;
     afterCreateJobInterceptor := fun job => job |}.

Definition AfterCreateJob (d : Downloader) (interceptor : AfterCreateJobInterceptor)
    : Downloader :=
  {| lastJobId := d.(lastJobId);
     Downloader_Option := d.(Downloader_Option);
     afterCreateJobInterceptor := interceptor |}.

(** What an interceptor can have done to the Job it was handed. It is
    handed the [*Job]: it can assign the exported fields, and it can
    assign the whole struct ([*job = *other], [*job = Job{}]), which
    replaces the unexported fields too, [id], [isFtp] and
    [isSupportRange] among them. The lock it cannot set: another
    package cannot name [_lck], and every Job it can copy from has
    the nil lock [NewJob] or the zero value gives. *)
Definition intercepted (job after : Job) : Job :=
  {| Job_Option := after.(Job_Option); id := after.(id); Url := after.(Url);
     FileName := after.(FileName); FileSize := after.(FileSize);
     isSupportRange := after.(isSupportRange); isFtp := after.(isFtp);
     _lck := job.(_lck) |}.

Section Factory.
Context `{Platform}.

(** [NewJob] returns the Job and leaves the Downloader with its
    counter advanced. The literal [&Job{...}] does not name [_lck]. *)
Definition NewJob (d : Downloader) (url : string)
    (withOption : list (Option -> Option)) : result Job * Downloader :=
  match netUrl_Parse url with
  | Err err => (Err err, d)
  | Ok Url_ =>
      let d :=
        {| lastJobId := U64.add d.(lastJobId) 1;
           Downloader_Option := d.(Downloader_Option);
           afterCreateJobInterceptor := d.(afterCreateJobInterceptor) |} in
      let opt := cloneOption d.(Downloader_Option) in
      let opt := applyOptions withOption opt in
      let job :=
        {| Job_Option := opt;
           id := d.(lastJobId);
           Url := Url_;
           FileName := "";
           FileSize := 0;
           isSupportRange := false;
           isFtp := String.eqb Url_.(Scheme) "ftp";
           _lck := None |} in
      let job := intercepted job (d.(afterCreateJobInterceptor) job) in
      (Ok job, d)
  end.
End Factory.

(** ** The probe *)

Section Probe.
Context `{Platform}.

(** [parsedUrl, _ := netUrl.Parse(downloadUrl)]: on an error
    [parsedUrl] is nil and reading [parsedUrl.Path] panics. *)
Definition getFileNameByUrl (downloadUrl : string) : outcome string :=
  match netUrl_Parse downloadUrl with
  | Ok parsedUrl => Returns (filepath_Base parsedUrl.(Path))
  | Err _ => Panics
  end.

Definition getFileNameByResponse (resp : Response) : outcome string :=
  let contentDisposition := Header_Get resp.(Header) "Content-Disposition" in
  if negb (String.eqb contentDisposition "") then
    match mime_ParseMediaType contentDisposition with
    | Err _ => getFileNameByUrl resp.(resp_Request_Path)
    | Ok params => Returns (default EmptyString (params !! "FileName"%string))
    end
  else getFileNameByUrl resp.(resp_Request_Path).

(** The error [fetchInfo] makes of a status above 299. *)
Definition statusError (job : Job) (status : Z) : error :=
  let url := URL_String (Url job) in
  if status =? 404 then ErrNotFound url
  else if status =? 401 then ErrUnauthorized url
  else ErrConnect url.

(** The request [fetchInfo] builds. *)
Definition probeRequest (job : Job) : Request :=
  {| Method := "HEAD"; req_URL := job.(Url).(URL_String);
     req_Cookies := job.(Job_Option).(Cookies); Range := None |}.

Definition fetchInfo (env : Env) (job : Job) (w : World)
    : outcome (option error * Job * World) :=
  let url := job.(Url).(URL_String) in
  match http_NewRequest_error "HEAD" url with
  | Some msg => Returns (Some (ErrExternal msg), job, w)
  | None =>
      let w := send w (probeRequest job) in
      match env.(probe_reply) with
      | inl msg => Returns (Some (ErrExternal msg), job, w)
      | inr r =>
          if r.(StatusCode) =? 404 then Returns (Some (ErrNotFound url), job, w)
          else if r.(StatusCode) =? 401 then Returns (Some (ErrUnauthorized url), job, w)
          else if r.(StatusCode) >? 299 then Returns (Some (ErrConnect url), job, w)
          else
            let job :=
              if String.eqb (Header_Get r.(Header) "Accept-Ranges") "bytes"
              then set_isSupportRange job true else job in
            match ParseUint (Header_Get r.(Header) "Content-Length") with
            | None =>
                let job := set_isSupportRange job false in
                let job := set_FileSize job 0 in
                Returns (None, job, w)
            | Some contentLength =>
                let job := set_FileSize job contentLength in
                if negb job.(Job_Option).(EnableSaveFileDialog) then
                  name ← getFileNameByResponse r;
                  Returns (None, set_FileName job name, w)
                else Returns (None, job, w)
            end
      end
  end.
End Probe.

(** ** The workers *)

(** The destination [*os.File]: one handle, hence one cursor. *)
Record File : Type := {
  file_path : string;
  cursor : Z;
  data : list Z
}.

(** Writing [bs] at offset [off]; a gap before [off] reads as zeros. *)
Definition pwrite (d : list Z) (off : nat) (bs : list Z) : list Z :=
  take off d ++ replicate (off - length d)%nat 0 ++ bs ++ drop (off + length bs)%nat d.

(** [file.Write(b)] *)
Definition File_Write (f : File) (b : list Z) : File :=
  {| file_path := f.(file_path);
     cursor := f.(cursor) + Z.of_nat (length b);
     data := pwrite f.(data) (Z.to_nat f.(cursor)) b |}.

(** [file.Seek(off, io.SeekStart)] for [off >= 0] *)
Definition File_Seek (f : File) (off : Z) : File :=
  {| file_path := f.(file_path); cursor := off; data := f.(data) |}.

(** Where a worker goroutine is. [retry] is its local counter. *)
Inductive pc : Type :=
  | Select (retry : nat)        (* at the [select] at the top of the [for] *)
  | Awaiting (retry : nat)      (* in [downloadChunk]: the request is out *)
  | Locking (retry : nat) (body : Body)   (* at [job._lck.Lock()] *)
  | Seeking (retry : nat) (body : Body)   (* holds the lock, at [file.Seek] *)
  | Copying (retry : nat) (body : Body) (written : nat)
                                (* holds the lock, inside [io.Copy],
                                   [written] blocks of the body copied *)
  | Recording (err : error)     (* retries used up: at [errs = append(errs, err)] *)
  | Cancelling                  (* recorded: at [cancel()] *)
  | Finished.                   (* returned; [wg.Done()] has run *)

Record Worker : Type := {
  w_start : Z;
  w_end : Z;
  w_pc : pc
}.

(** What the goroutines of one [multiThreadDownload] share, and two
    logs: the callers of [downloadChunk] and the requests sent. *)
Record Pool : Type := {
  workers : list Worker;
  ctx_done : bool;                (* [ctx.Done()] is closed *)
  errs : list error;
  pool_lck : option Mutex;        (* [job._lck] *)
  file : File;
  calls : list nat;
  requests : list (nat * Request);
  panicked : bool
}.

Definition holdsLock (c : pc) : bool :=
  match c with
  | Seeking _ _ | Copying _ _ _ => true
  | _ => false
  end.

Definition isFinished (c : pc) : bool :=
  match c with
  | Finished => true
  | _ => false
  end.

(** After [downloadChunk] returned [err]:
    [if retry >= 3 { record; cancel; return }; retry++]. *)
Definition failed (retry : nat) (err : error) : pc :=
  if (3 <=? retry)%nat then Recording err else Select (S retry).

Definition set_pc (wk : Worker) (c : pc) : Worker :=
  {| w_start := wk.(w_start); w_end := wk.(w_end); w_pc := c |}.

Definition goto (p : Pool) (i : nat) (c : pc) : Pool :=
  {| workers := alter (fun wk => set_pc wk c) i p.(workers);
     ctx_done := p.(ctx_done); errs := p.(errs); pool_lck := p.(pool_lck);
     file := p.(file); calls := p.(calls); requests := p.(requests);
     panicked := p.(panicked) |}.

Definition set_lck (p : Pool) (b : bool) : Pool :=
  {| workers := p.(workers); ctx_done := p.(ctx_done); errs := p.(errs);
     pool_lck := (fun _ => {| locked := b |}) <$> p.(pool_lck);
     file := p.(file); calls := p.(calls); requests := p.(requests);
     panicked := p.(panicked) |}.

Definition set_file (p : Pool) (f : File) : Pool :=
  {| workers := p.(workers); ctx_done := p.(ctx_done); errs := p.(errs);
     pool_lck := p.(pool_lck); file := f; calls := p.(calls);
     requests := p.(requests); panicked := p.(panicked) |}.

Definition log_call (p : Pool) (i : nat) : Pool :=
  {| workers := p.(workers); ctx_done := p.(ctx_done); errs := p.(errs);
     pool_lck := p.(pool_lck); file := p.(file); calls := p.(calls) ++ [i];
     requests := p.(requests); panicked := p.(panicked) |}.

Definition log_request (p : Pool) (i : nat) (req : Request) : Pool :=
  {| workers := p.(workers); ctx_done := p.(ctx_done); errs := p.(errs);
     pool_lck := p.(pool_lck); file := p.(file); calls := p.(calls);
     requests := p.(requests) ++ [(i, req)]; panicked := p.(panicked) |}.

Definition record (p : Pool) (err : error) : Pool :=
  {| workers := p.(workers); ctx_done := p.(ctx_done); errs := p.(errs) ++ [err];
     pool_lck := p.(pool_lck); file := p.(file); calls := p.(calls);
     requests := p.(requests); panicked := p.(panicked) |}.

Definition cancel (p : Pool) : Pool :=
  {| workers := p.(workers); ctx_done := true; errs := p.(errs);
     pool_lck := p.(pool_lck); file := p.(file); calls := p.(calls);
     requests := p.(requests); panicked := p.(panicked) |}.

Definition panic (p : Pool) : Pool :=
  {| workers := p.(workers); ctx_done := p.(ctx_done); errs := p.(errs);
     pool_lck := p.(pool_lck); file := p.(file); calls := p.(calls);
     requests := p.(requests); panicked := true |}.

(** How often goroutine [i] has called [downloadChunk]. *)
Definition attempts (p : Pool) (i : nat) : nat :=
  length (filter (fun j => j = i) p.(calls)).

(** The bytes in the first [written] blocks of a body. *)
Definition copied (body : Body) (written : nat) : Z :=
  Z.of_nat (length (concat (take written body.(blocks)))).

(** The number [n] of calls a goroutine has made, by where it is. *)
Definition attemptsAt (c : pc) (n : nat) : Prop :=
  match c with
  | Select retry => n = retry /\ (retry <= 3)%nat
  | Awaiting retry | Locking retry _ | Seeking retry _ | Copying retry _ _ =>
      n = S retry /\ (retry <= 3)%nat
  | Recording _ | Cancelling => n = 4%nat
  | Finished => (n <= 4)%nat
  end.

(** The goroutine is past its fourth failure and before its return. *)
Definition givingUp (c : pc) : Prop :=
  match c with
  | Recording _ | Cancelling => True
  | _ => False
  end.

(** The lock is nil, no goroutine is in the write section, and the
    file is [f]. *)
Definition nilLock (f : File) (p : Pool) : Prop :=
  pool_lck p = None /\
  (forall i wk, workers p !! i = Some wk -> holdsLock (w_pc wk) = false) /\
  file p = f.

(** Whoever is in the write section has the lock taken, is alone
    there, and finds the cursor where its own seek and writes left
    it. *)
Definition exclusive (p : Pool) : Prop :=
  (forall i wk, workers p !! i = Some wk -> holdsLock (w_pc wk) = true ->
     pool_lck p = Some {| locked := true |}) /\
  (forall i j wi wj,
     workers p !! i = Some wi -> workers p !! j = Some wj ->
     holdsLock (w_pc wi) = true -> holdsLock (w_pc wj) = true -> i = j) /\
  (forall i wk retry body written,
     workers p !! i = Some wk -> w_pc wk = Copying retry body written ->
     cursor (file p) = I64.wrap (w_start wk) + copied body written).

(** Every goroutine has made the calls that go with where it is. *)
Definition counted (p : Pool) : Prop :=
  forall i wk, workers p !! i = Some wk -> attemptsAt (w_pc wk) (attempts p i).

(** Every goroutine keeps the range it was started with, and every
    request on the log asks for the range of its sender. *)
Definition ranged (reqOf : Z -> Z -> Request) (ranges : list (Z * Z)) (p : Pool) : Prop :=
  (forall i wk, workers p !! i = Some wk -> ranges !! i = Some (w_start wk, w_end wk)) /\
  (forall i req, (i, req) ∈ requests p ->
     exists r, ranges !! i = Some r /\ req = reqOf r.1 r.2).

(** An error on record means the cancellation is tripped or about to
    be. *)
Definition tripping (p : Pool) : Prop :=
  errs p <> [] ->
  ctx_done p = true \/
  exists i wk, workers p !! i = Some wk /\ w_pc wk = Cancelling.

(** Nobody is in the write section, the lock is not taken, and the
    program has not panicked. *)
Definition quiet (p : Pool) : Prop :=
  panicked p = false /\
  (forall j wk, workers p !! j = Some wk -> holdsLock (w_pc wk) = false) /\
  pool_lck p <> Some {| locked := true |}.

(** Goroutine [i] is at [c]. *)
Definition pcAt (p : Pool) (i : nat) (c : pc) : Prop :=
  exists wk, workers p !! i = Some wk /\ w_pc wk = c.

(** The goroutines other than [i] are where they were in [p0]. *)
Definition frame (i : nat) (p0 p : Pool) : Prop :=
  forall j, j <> i -> workers p !! j = workers p0 !! j.

(** Goroutine [i] has returned and left the pool quiet, or the
    program has panicked. *)
Definition settled (i : nat) (p0 p : Pool) : Prop :=
  panicked p = true \/ (quiet p /\ frame i p0 p /\ pcAt p i Finished).

(** What a call of [downloadChunk] that gets to its reply fails with:
    the error of the round trip, or the refusal of a status other
    than 206; [None] when the reply is accepted. *)
Definition replyError (env : Env) (i retry : nat) : option error :=
  match env.(chunk_reply) i retry with
  | inl msg => Some (ErrExternal msg)
  | inr resp => if negb (resp.(StatusCode) =? 206) then Some ErrRangeNotSupported else None
  end.

Definition set_schedule (env : Env) (sched : list nat) : Env :=
  {| os_Create_error := env.(os_Create_error);
     saveDialog := env.(saveDialog);
     probe_reply := env.(probe_reply);
     chunk_reply := env.(chunk_reply);
     ftp_Dial_error := env.(ftp_Dial_error);
     ftp_Login_error := env.(ftp_Login_error);
     ftp_Retr := env.(ftp_Retr);
     os_Write_error := env.(os_Write_error);
     schedule := sched;
     loop_fuel := env.(loop_fuel);
     select_latency := env.(select_latency);
     transfer_duration := env.(transfer_duration) |}.

Section Fetch.
Context `{Platform}.

(** The request [downloadChunk] builds. *)
Definition chunkRequest (job : Job) (start end_ : Z) : Request :=
  {| Method := "GET"; req_URL := job.(Url).(URL_String);
     req_Cookies := job.(Job_Option).(Cookies);
     Range := Some (start, end_) |}.

(** One step of goroutine [i]: from where it is to the next point at
    which it reads or writes something shared, or waits. A goroutine
    that cannot move (it waits for the lock, it has returned, the
    program has panicked) leaves the pool as it is. *)
Definition step (env : Env) (job : Job) (i : nat) (p : Pool) : Pool :=
  if p.(panicked) then p
  else
    match p.(workers) !! i with
    | None => p
    | Some wk =>
        match wk.(w_pc) with
        | Select retry =>
            (* case <-ctx.Done(): return *)
            if p.(ctx_done) then goto p i Finished
            else
              (* default: err := job.downloadChunk(file, start, end) *)
              let p := log_call p i in
              match http_NewRequest_error "GET" job.(Url).(URL_String) with
              | Some msg => goto p i (failed retry (ErrExternal msg))
              | None =>
                  goto (log_request p i (chunkRequest job wk.(w_start) wk.(w_end)))
                       i (Awaiting retry)
              end
        | Awaiting retry =>
            match env.(chunk_reply) i retry with
            | inl msg => goto p i (failed retry (ErrExternal msg))
            | inr resp =>
                if negb (resp.(StatusCode) =? 206)
                then goto p i (failed retry ErrRangeNotSupported)
                else goto p i (Locking retry resp.(resp_Body))
            end
        | Locking retry body =>
            match p.(pool_lck) with
            | None => panic p            (* nil pointer dereference *)
            | Some m =>
                if m.(locked) then p     (* blocked in Lock() *)
                else goto (set_lck p true) i (Seeking retry body)
            end
        | Seeking retry body =>
            let offset := I64.wrap wk.(w_start) in     (* int64(start) *)
            if offset <? 0 then
              goto (set_lck p false) i
                   (failed retry (ErrExternal "seek: invalid argument"))
            else
              goto (set_file p (File_Seek p.(file) offset)) i (Copying retry body 0)
        | Copying retry body written =>
            match body.(blocks) !! written with
            | Some b =>
                goto (set_file p (File_Write p.(file) b)) i
                     (Copying retry body (S written))
            | None =>
                (* the deferred Unlock runs as downloadChunk returns *)
                match body.(read_error) with
                | Some msg => goto (set_lck p false) i (failed retry (ErrExternal msg))
                | None => goto (set_lck p false) i Finished
                end
            end
        | Recording err => goto (record p err) i Cancelling
        | Cancelling => goto (cancel p) i Finished
        | Finished => p
        end
    end.

Definition run_pool (env : Env) (job : Job) (sched : list nat) (p : Pool) : Pool :=
  foldl (fun p i => step env job i p) p sched.

(** Goroutine [i], run alone for some number of steps, brings [p] to
    a pool with [Q]. *)
Definition reaches (env : Env) (job : Job) (i : nat) (p : Pool) (Q : Pool -> Prop) : Prop :=
  exists k, Q (run_pool env job (replicate k i) p).

(** The pool once the loop has started a goroutine for every range.
    A goroutine the scheduler has not run yet is at its first
    [select], whether or not the loop has reached it. *)
Definition spawn (job : Job) (path : string) (ranges : list (Z * Z)) : Pool :=
  {| workers := (fun r => {| w_start := r.1; w_end := r.2; w_pc := Select 0 |}) <$> ranges;
     ctx_done := false;
     errs := [];
     pool_lck := job.(_lck);
     file := {| file_path := path; cursor := 0; data := [] |};
     calls := [];
     requests := [];
     panicked := false |}.

Definition all_finished (p : Pool) : bool :=
  forallb (fun wk => isFinished wk.(w_pc)) p.(workers).

(** [if len(errs) > 0 { return errs[0] }; return nil] *)
Definition surfaced (p : Pool) : option error := head p.(errs).

(** The world once the pool is done with it. *)
Definition settle (w : World) (p : Pool) : World :=
  {| files := <[p.(file).(file_path) := p.(file).(data)]> w.(files);
     sent := w.(sent) ++ p.(requests).*2;
     now := w.(now) |}.

Definition multiThreadDownload (env : Env) (job : Job) (w : World)
    : outcome (option error * Job * World) :=
  let theads := AvaiableTreads job in
  match createTargetFile env job w with
  | None => Pending
  | Some (Err err, job, w) => Returns (Some err, job, w)
  | Some (Ok path, job, w) =>
      let p := run_pool env job env.(schedule)
                 (spawn job path (chunkRanges job theads)) in
      if p.(panicked) then Panics
      else if all_finished p then Returns (surfaced p, job, settle w p)   (* wg.Wait() *)
      else Pending
  end.

(** The destination the user picked in the dialog. *)
Definition chosen (job : Job) (path : string) : Job :=
  let '(dir, file_) := filepath_Split path in
  set_Option (set_FileName job file_) (set_Dir job.(Job_Option) dir).

Definition badFileName (job : Job) : bool :=
  String.eqb job.(FileName) "" || negb (ContainsDot job.(FileName)).

Definition downloadHttp (env : Env) (job : Job) (w : World)
    : outcome (option error * Job * World) :=
  '(err, job, w) ← fetchInfo env job w;
  match err with
  | Some err => Returns (Some err, job, w)
  | None =>
      let resolved :=
        if job.(Job_Option).(EnableSaveFileDialog) then
          chosen job <$> env.(saveDialog) (TargetFile job)
        else Some job in
      match resolved with
      | None => Returns (None, job, w)          (* the user cancelled *)
      | Some job =>
          if badFileName job then Returns (Some ErrBadFileName, job, w)
          else multiThreadDownload env job w
      end
  end.

(** [ftp.Dial(addr, ...)]: the address goes to [net.Dial], which
    refuses one with no colon in it (it has no port) before it
    touches the network; what becomes of the others is [env]'s. *)
Definition ftp_Dial (env : Env) (addr : string) : option string :=
  if hasByte ":"%char addr then env.(ftp_Dial_error) addr
  else Some ("dial tcp: address " +:+ addr +:+ ": missing port in address").

Definition downloadFtp (env : Env) (job : Job) (w : World)
    : outcome (option error * Job * World) :=
  (* ftp.Dial(job.Url.Host+job.Url.Port(), ...) *)
  match ftp_Dial env (job.(Url).(Host) +:+ job.(Url).(Port)) with
  | Some _ => Returns (Some ErrFtpDial, job, w)
  | None =>
      let username := job.(Url).(Username) in
      let password := job.(Url).(Password) in
      let username := if String.eqb username "" then "anonymous"%string else username in
      match env.(ftp_Login_error) username password with
      | Some _ => Returns (Some ErrFtpLogin, job, w)
      | None =>
          let resolved :=
            if job.(Job_Option).(EnableSaveFileDialog) then
              chosen job <$> env.(saveDialog) (TargetFile job)
            else Some (set_FileName job (filepath_Base job.(Url).(Path))) in
          match resolved with
          | None => Returns (None, job, w)
          | Some job =>
              if badFileName job then Returns (Some ErrBadFileName, job, w)
              else
                match env.(ftp_Retr) job.(Url).(Path) with
                | inl msg => Returns (Some (ErrExternal msg), job, w)
                | inr r =>
                    match createTargetFile env job w with
                    | None => Pending
                    | Some (Err err, job, w) => Returns (Some err, job, w)
                    | Some (Ok path, job, w) =>
                        match r.(read_error) with       (* io.ReadAll(r) *)
                        | Some msg => Returns (Some (ErrExternal msg), job, w)
                        | None =>
                            let buf := concat r.(blocks) in
                            (* _, err = file.Write(buf); return err *)
                            match env.(os_Write_error) path with
                            | Some (n, msg) =>
                                Returns (Some (ErrExternal msg), job,
                                         set_files w (<[path := take n buf]> w.(files)))
                            | None =>
                                Returns (None, job,
                                         set_files w (<[path := buf]> w.(files)))
                            end
                        end
                    end
                end
          end
      end
  end.

(** [time.After(d)] read [waited] nanoseconds after it was made. *)
Definition timer_fired (d waited : Z) : bool := d <=? waited.

(** [Download]: the [select] has a [default], so it looks at the
    timer once, [select_latency] after making it, and goes on. *)
Definition Download (env : Env) (job : Job) (w : World)
    : outcome (option error * Job * World) :=
  let w := advance w env.(select_latency) in
  if timer_fired job.(Job_Option).(Timeout) env.(select_latency) then
    Returns (Some ErrTimeout, job, w)
  else
    '(err, job, w) ← (if job.(isFtp) then downloadFtp env job w
                      else downloadHttp env job w);
    Returns (err, job, advance w env.(transfer_duration)).

(** The method [Download] of [Downloader]. *)
Definition Downloader_Download (env : Env) (d : Downloader) (url : string)
    (withOption : list (Option -> Option)) (w : World)
    : outcome (option error * World) * Downloader :=
  match NewJob d url withOption with
  | (Err err, d) => (Returns (Some err, w), d)
  | (Ok job, d) =>
      ('(err, _, w) ← Download env job w; Returns (err, w), d)
  end.
End Fetch.

(** ** A platform and an environment to run the definitions on *)

Module Sample.
Fixpoint hasSlash (s : string) : bool :=
  match s with
  | EmptyString => false
  | String c rest => Ascii.eqb c "/"%char || hasSlash rest
  end.

(** The part of [s] after its last slash. *)
Fixpoint lastElem (s : string) : string :=
  match s with
  | EmptyString => EmptyString
  | String c rest =>
      if hasSlash rest then lastElem rest
      else if Ascii.eqb c "/"%char then rest
      else s
  end.

(** A URL parser that knows [scheme://host/path] and plain paths,
    and refuses a string that begins with a colon. *)
Definition parseUrl (s : string) : result URL :=
  match s with
  | String ":" _ => Err (ErrExternal "parse: missing protocol scheme")
  | _ =>
      match index 0 "://" s with
      | Some n =>
          let rest := substring (n + 3) (String.length s) s in
          let h := match index 0 "/" rest with
                   | Some k => k
                   | None => String.length rest
                   end in
          Ok {| Scheme := substring 0 n s;
                Host := substring 0 h rest;
                Port := "";
                Path := substring h (String.length rest) rest;
                Username := "";
                Password := "";
                URL_String := s |}
      | None =>
          Ok {| Scheme := ""; Host := ""; Port := ""; Path := s;
                Username := ""; Password := ""; URL_String := s |}
      end
  end.

(** Unix paths that are clean already and the conversions of 64-bit
    x86. *)
Definition platform : Platform :=
  {| int_of_f64_unfit := fun _ => - 2 ^ 63;
     uint64_of_f64_unfit := fun _ => 2 ^ 63;
     GOOS := unix;
     filepath_IsAbs := fun s => match s with
                                | String c _ => Ascii.eqb c "/"%char
                                | EmptyString => false
                                end;
     filepath_Join := fun dir name =>
       if String.eqb dir "" then name else dir +:+ "/" +:+ name;
     filepath_Split := fun path =>
       let f := lastElem path in
       (substring 0 (String.length path - String.length f) path, f);
     filepath_Base := lastElem;
     netUrl_Parse := parseUrl;
     mime_ParseMediaType := fun _ => Err (ErrExternal "mime: no media type");
     http_NewRequest_error := fun _ _ => None |}.

Definition response (status : Z) (h : list (string * string)) (b : list (list Z)) : Response :=
  {| StatusCode := status; Header := list_to_map h;
     resp_Body := {| blocks := b; read_error := None |};
     resp_Request_Path := "/a.bin" |}.

(** A server that answers the probe with [probe] and every ranged
    request with [chunk], no dialog, a scheduler that runs the
    goroutines round-robin. *)
Definition env (probe chunk : Response) (sched : list nat) : Env :=
  {| os_Create_error := fun _ => None;
     saveDialog := fun _ => None;
     probe_reply := inr probe;
     chunk_reply := fun _ _ => inr chunk;
     ftp_Dial_error := fun _ => None;
     ftp_Login_error := fun _ _ => None;
     ftp_Retr := fun _ => inl "not an ftp server"%string;
     os_Write_error := fun _ => None;
     schedule := sched;
     loop_fuel := 16;
     select_latency := 1000;
     transfer_duration := 60 * 1000000000 |}.

(** [k] rounds over goroutines [0 .. n-1]. *)
Definition roundRobin (n k : nat) : list nat := concat (replicate k (seq 0 n)).

Definition world : World := {| files := ∅; sent := []; now := 0 |}.

Definition cookie : Cookie := {| cookie_Name := "session"; cookie_Value := "s3" |}.

(** A Downloader whose defaults carry a cookie, and save without a
    dialog into [/dl]. *)
Definition downloader : Downloader :=
  New "/dl" [fun opt =>
    {| Dir := opt.(Dir); FileNamePrefix := opt.(FileNamePrefix);
       MaxThreads := opt.(MaxThreads); MinChunkSize := opt.(MinChunkSize);
       EnableSaveFileDialog := false; Overwrite := opt.(Overwrite);
       Timeout := opt.(Timeout); Cookies := [cookie] |}].

(** A Job as the planner sees it after a probe. *)
Definition job (size minChunk maxThreads : Z) (range : bool) : Job :=
  {| Job_Option :=
       {| Dir := "/dl"; FileNamePrefix := ""; MaxThreads := maxThreads;
          MinChunkSize := minChunk; EnableSaveFileDialog := false;
          Overwrite := false; Timeout := 10 * 1000000000; Cookies := [] |};
     id := 1;
     Url := {| Scheme := "http"; Host := "h"; Port := ""; Path := "/a.bin";
               Username := ""; Password := ""; URL_String := "http://h/a.bin" |};
     FileName := "a.bin";
     FileSize := size;
     isSupportRange := range;
     isFtp := false;
     _lck := None |}.

(** A Job whose lock has been made, as [&sync.Mutex{}]. *)
Definition lockedJob (size minChunk maxThreads : Z) : Job :=
  let j := job size minChunk maxThreads true in
  {| Job_Option := Job_Option j; id := id j; Url := Url j; FileName := FileName j;
     FileSize := FileSize j; isSupportRange := isSupportRange j; isFtp := isFtp j;
     _lck := Some {| locked := false |} |}.

(** A server that declares range support and 2,000,000 bytes. *)
Definition rangeProbe : Response :=
  response 200 [("Accept-Ranges", "bytes"); ("Content-Length", "2000000")]%string [].

(** The Job the sample Downloader makes for [http://h/a.bin]. *)
Definition newJob : Job :=
  match (@NewJob platform downloader "http://h/a.bin" []).1 with
  | Ok job => job
  | Err _ => job 0 0 0 false
  end.
End Sample.

(** ** The direct download *)

(** [strings.Split(s, sep)] for a separator of one byte: the pieces of
    [s] between the separators, one more than there are separators. *)
Fixpoint Split (s : string) (sep : ascii) : list string :=
  match s with
  | EmptyString => [EmptyString]
  | String c rest =>
      if Ascii.eqb c sep then EmptyString :: Split rest sep
      else
        match Split rest sep with
        | piece :: pieces => String c piece :: pieces
        | [] => [String c EmptyString]
        end
  end.

Definition getFileName (resp : Response) : string :=
  let contentDisposition := Header_Get resp.(Header) "Content-Disposition" in
  if negb (String.eqb contentDisposition "") then
    let fn := Split contentDisposition "="%char in
    if (1 <? length fn)%nat then default EmptyString (fn !! 1%nat) else EmptyString
  else EmptyString.

(** [DownloadFile] has one error of its own beside those it passes on. *)
Inductive file_error : Type :=
  | ErrNoSaveLocation            (* fmt.Errorf("请选择保存文件位置") *)
  | ErrOf (err : error).

(** What [DownloadFile] meets beyond [Env]: its one round trip, the
    inflating reader of compress/flate, and [localFile.Sync()]. *)
Record Direct : Type := {
  get_reply : string + Response;
  flate_NewReader : Body -> Body;
  Sync_error : string -> option string
}.

(** The request [DownloadFile] builds. *)
Definition fileRequest (job : Job) : Request :=
  {| Method := "GET"; req_URL := job.(Url).(URL_String);
     req_Cookies := job.(Job_Option).(Cookies); Range := None |}.

(** [io.Copy(file, reader)]: each block read is written at the
    cursor; the blocks before a read error are written all the same. *)
Definition io_Copy (f : File) (reader : Body) : File :=
  foldl File_Write f reader.(blocks).

Section DirectDownload.
Context `{Platform}.

(** The method [DownloadFile] of [Job]. *)
Definition DownloadFile (env : Env) (net : Direct) (job : Job) (w : World)
    : option file_error * Job * World :=
  let url := job.(Url).(URL_String) in
  match http_NewRequest_error "GET" url with
  | Some msg => (Some (ErrOf (ErrExternal msg)), job, w)
  | None =>
      let w := send w (fileRequest job) in
      match net.(get_reply) with
      | inl msg => (Some (ErrOf (ErrExternal msg)), job, w)
      | inr r =>
          let job := set_FileName job (getFileName r) in
          match env.(saveDialog) (TargetFile job) with
          | None => (Some ErrNoSaveLocation, job, w)
          | Some path =>
              match os_Create env path w with
              | (Err err, w) => (Some (ErrOf err), job, w)
              | (Ok path, w) =>
                  let contentEncoding := Header_Get r.(Header) "Content-Encoding" in
                  let reader :=
                    if String.eqb contentEncoding "deflate"
                    then net.(flate_NewReader) r.(resp_Body)
                    else r.(resp_Body) in
                  let localFile :=
                    io_Copy {| file_path := path; cursor := 0; data := [] |} reader in
                  let w := set_files w (<[path := localFile.(data)]> w.(files)) in
                  match reader.(read_error) with
                  | Some msg => (Some (ErrOf (ErrExternal msg)), job, w)
                  | None =>
                      ((fun msg => ErrOf (ErrExternal msg)) <$> net.(Sync_error) path,
                       job, w)
                  end
              end
          end
      end
  end.

(** The method [DownloadFile] of [Downloader]. *)
Definition Downloader_DownloadFile (env : Env) (net : Direct) (d : Downloader)
    (url : string) (withOption : list (Option -> Option)) (w : World)
    : option file_error * World * Downloader :=
  match NewJob d url withOption with
  | (Err err, d) => (Some (ErrOf err), w, d)
  | (Ok job, d) =>
      let '(err, _, w) := DownloadFile env net job w in (err, w, d)
  end.
End DirectDownload.

(** ** More about plans and pools *)

(** The ranges that ask for byte [b]. *)
Definition askers (ranges : list (Z * Z)) (b : Z) : list (Z * Z) :=
  filter (fun r => r.1 <= b <= r.2) ranges.

(** A goroutine in front of a server that refuses ranges: it is not
    past the reply, and what it is about to record is the refusal. *)
Definition refusedAt (c : pc) : Prop :=
  match c with
  | Select _ | Awaiting _ | Cancelling | Finished => True
  | Recording err => err = ErrRangeNotSupported
  | Locking _ _ | Seeking _ _ | Copying _ _ _ => False
  end.

(** A goroutine is past its [select] for good. *)
Definition leaving (c : pc) : Prop :=
  match c with
  | Cancelling | Finished => True
  | _ => False
  end.

(** Nothing has been written or has panicked, the record holds
    refusals only, and it is not empty once a goroutine is leaving or
    the cancellation is tripped. *)
Definition refused (f : File) (p : Pool) : Prop :=
  panicked p = false /\
  file p = f /\
  (forall i wk, workers p !! i = Some wk -> refusedAt (w_pc wk)) /\
  Forall (fun err => err = ErrRangeNotSupported) (errs p) /\
  (ctx_done p = true \/ (exists i wk, workers p !! i = Some wk /\ leaving (w_pc wk)) ->
   errs p <> []).

(** The pool of one worker that holds the lock and has copied the
    first [k] blocks of [body], which make up [d]. *)
Definition copying (job : Job) (path : string) (e : Z) (body : Body) (k : nat)
    (d : list Z) : Pool :=
  {| workers := [{| w_start := 0; w_end := e; w_pc := Copying 0 body k |}];
     ctx_done := false;
     errs := [];
     pool_lck := Some {| locked := true |};
     file := {| file_path := path; cursor := Z.of_nat (length d); data := d |};
     calls := [0%nat];
     requests := [(0%nat, chunkRequest job 0 e)];
     panicked := false |}.

(** A taken lock has its holder among the goroutines. *)
Definition held (p : Pool) : Prop :=
  pool_lck p = Some {| locked := true |} ->
  exists i wk, workers p !! i = Some wk /\ holdsLock (w_pc wk) = true.

(** The calls on the log are calls of goroutines of the pool, and no
    request went out without a call. *)
Definition logged (p : Pool) : Prop :=
  (forall j, j ∈ calls p -> (j < length (workers p))%nat) /\
  (length (requests p) <= length (calls p))%nat.

(** ** More platforms and environments to run the definitions on *)

Module Fixture.
Fixpoint endsWithSlash (s : string) : bool :=
  match s with
  | EmptyString => false
  | String c EmptyString => Ascii.eqb c "/"%char
  | String _ rest => endsWithSlash rest
  end.

(** [filepath.Join] on Unix paths that are clean already. *)
Definition join (dir name : string) : string :=
  if String.eqb dir "" then name
  else if endsWithSlash dir then dir +:+ name
  else dir +:+ "/" +:+ name.

(** [filepath.Clean] as far as doubled separators go. *)
Fixpoint squeeze (s : string) : string :=
  match s with
  | EmptyString => EmptyString
  | String c rest =>
      match rest with
      | String c' _ =>
          if Ascii.eqb c "/"%char && Ascii.eqb c' "/"%char then squeeze rest
          else String c (squeeze rest)
      | EmptyString => String c EmptyString
      end
  end.

(** The sample platform with a [filepath.Join] that cleans what it
    has joined, as the library's does. *)
Definition cleanPaths : Platform :=
  {| int_of_f64_unfit := @int_of_f64_unfit Sample.platform;
     uint64_of_f64_unfit := @uint64_of_f64_unfit Sample.platform;
     GOOS := unix;
     filepath_IsAbs := @filepath_IsAbs Sample.platform;
     filepath_Join := fun dir name =>
       if String.eqb dir "" then squeeze name else squeeze (dir +:+ "/" +:+ name);
     filepath_Split := @filepath_Split Sample.platform;
     filepath_Base := @filepath_Base Sample.platform;
     netUrl_Parse := @netUrl_Parse Sample.platform;
     mime_ParseMediaType := @mime_ParseMediaType Sample.platform;
     http_NewRequest_error := fun _ _ => None |}.

(** A Downloader whose interceptor names every Job [/o/a.bin]. *)
Definition absoluteNames : Downloader :=
  AfterCreateJob Sample.downloader (fun job => set_FileName job "/o/a.bin").

(** The sample platform with a media-type parser that reads every
    header as [attachment; filename=a.bin]; its keys are in lower
    case, as those of [mime.ParseMediaType] are. *)
Definition platform : Platform :=
  {| int_of_f64_unfit := @int_of_f64_unfit Sample.platform;
     uint64_of_f64_unfit := @uint64_of_f64_unfit Sample.platform;
     GOOS := unix;
     filepath_IsAbs := @filepath_IsAbs Sample.platform;
     filepath_Join := join;
     filepath_Split := @filepath_Split Sample.platform;
     filepath_Base := @filepath_Base Sample.platform;
     netUrl_Parse := @netUrl_Parse Sample.platform;
     mime_ParseMediaType := fun _ => Ok {[ "filename"%string := "a.bin"%string ]};
     http_NewRequest_error := fun _ _ => None |}.

(** A Job that asks the user where to save, under the prefix [dl_]. *)
Definition dialogJob : Job :=
  set_Option (set_FileName (Sample.job 0 512000 4 false) "")
    {| Dir := "/dl"; FileNamePrefix := "dl_"; MaxThreads := 4;
       MinChunkSize := 512000; EnableSaveFileDialog := true;
       Overwrite := true; Timeout := 10 * 1000000000; Cookies := [] |}.

(** A user who answers the save dialog with [picked], whatever name
    is suggested; [None] is a user who cancels. *)
Definition saving (env : Env) (picked : option string) : Env :=
  {| os_Create_error := env.(os_Create_error);
     saveDialog := fun _ => picked;
     probe_reply := env.(probe_reply);
     chunk_reply := env.(chunk_reply);
     ftp_Dial_error := env.(ftp_Dial_error);
     ftp_Login_error := env.(ftp_Login_error);
     ftp_Retr := env.(ftp_Retr);
     os_Write_error := env.(os_Write_error);
     schedule := env.(schedule);
     loop_fuel := env.(loop_fuel);
     select_latency := env.(select_latency);
     transfer_duration := env.(transfer_duration) |}.

(** The same environment with no route to the server: every ranged
    request fails in its round trip. *)
Definition offline (env : Env) : Env :=
  {| os_Create_error := env.(os_Create_error);
     saveDialog := env.(saveDialog);
     probe_reply := env.(probe_reply);
     chunk_reply := fun _ _ => inl "connection refused"%string;
     ftp_Dial_error := env.(ftp_Dial_error);
     ftp_Login_error := env.(ftp_Login_error);
     ftp_Retr := env.(ftp_Retr);
     os_Write_error := env.(os_Write_error);
     schedule := env.(schedule);
     loop_fuel := env.(loop_fuel);
     select_latency := env.(select_latency);
     transfer_duration := env.(transfer_duration) |}.

(** A reply to a request whose path does not parse as a URL. *)
Definition colonResponse : Response :=
  {| StatusCode := 200;
     Header := list_to_map [("Content-Length", "7")]%string;
     resp_Body := {| blocks := []; read_error := None |};
     resp_Request_Path := ":a.bin" |}.

(** A reply to a request for [/latest], the size given. *)
Definition latestResponse : Response :=
  {| StatusCode := 200;
     Header := list_to_map [("Content-Length", "7")]%string;
     resp_Body := {| blocks := []; read_error := None |};
     resp_Request_Path := "/latest" |}.

(** An FTP server that answers at every address that has a port and
    hands out [body] for every path; a disk that takes every write. *)
Definition ftpEnv (body : Body) : Env :=
  {| os_Create_error := fun _ => None;
     saveDialog := fun _ => None;
     probe_reply := inl "not an http server"%string;
     chunk_reply := fun _ _ => inl "not an http server"%string;
     ftp_Dial_error := fun _ => None;
     ftp_Login_error := fun _ _ => None;
     ftp_Retr := fun _ => inr body;
     os_Write_error := fun _ => None;
     schedule := [];
     loop_fuel := 16;
     select_latency := 1000;
     transfer_duration := 1000000000 |}.

(** A Job for [ftp://h:21/pub/a.bin]. *)
Definition ftpJob : Job :=
  {| Job_Option := Job_Option (Sample.job 0 512000 4 false);
     id := 1;
     Url := {| Scheme := "ftp"; Host := "h:21"; Port := "21"; Path := "/pub/a.bin";
               Username := ""; Password := ""; URL_String := "ftp://h:21/pub/a.bin" |};
     FileName := "";
     FileSize := 0;
     isSupportRange := false;
     isFtp := true;
     _lck := None |}.

(** The round trip of [DownloadFile] answered with [r], no inflating,
    a [Sync] that succeeds. *)
Definition direct (r : Response) : Direct :=
  {| get_reply := inr r;
     flate_NewReader := fun body => body;
     Sync_error := fun _ => None |}.
End Fixture.

(* ================================================================== *)
(** * Part II: properties *)
(* ================================================================== *)

(** ** Machine arithmetic *)

Lemma U64_wrap_small (z : Z) : 0 <= z < U64.modulus -> U64.wrap z = z.
Proof. intros Hz. unfold U64.wrap. apply Z.mod_small. exact Hz. Qed.

Lemma U64_mul_0_l (c : Z) : U64.mul (U64.wrap 0) c = 0.
Proof. unfold U64.mul, U64.wrap. rewrite Z.mod_0_l by discriminate. reflexivity. Qed.

Lemma U64_sub_1 (n : Z) : 0 < n < U64.modulus -> U64.sub n 1 = n - 1.
Proof. intros Hn. unfold U64.sub. apply U64_wrap_small. lia. Qed.

Lemma I64_add_1 (n : Z) : 0 <= n < I64.half - 1 -> I64.add n 1 = n + 1.
Proof.
  intros Hn. unfold I64.add, I64.wrap.
  assert (Hh : U64.modulus = 2 * I64.half) by reflexivity.
  rewrite Z.mod_small by lia. lia.
Qed.

(** ** The range planner *)

Section TilingFacts.
Context `{Platform}.

(** The ranges of the loop from iteration [k] on tile the rest of the
    file, for any chunk size that leaves the last range a byte. *)
Lemma chunkRange_tiles (job : Job) (n c : Z) (m : nat) :
  forall k : Z,
    0 <= k <= n - 1 ->
    k + Z.of_nat m = n ->
    1 <= c ->
    (n - 1) * c < FileSize job < U64.modulus ->
    tiles (k * c) (chunkRange job n c <$> seqZ k (Z.of_nat m)) (FileSize job - 1).
Proof.
  induction m as [|m IH]; intros k Hk Hsum Hc Hsize.
  - lia.
  - rewrite seqZ_cons by lia. cbn [fmap list_fmap].
    replace (Z.pred (Z.of_nat (S m))) with (Z.of_nat m) by lia.
    assert (Hstart : U64.mul (U64.wrap k) c = k * c).
    { unfold U64.mul. rewrite (U64_wrap_small k) by nia.
      apply U64_wrap_small. nia. }
    unfold chunkRange at 1. cbv zeta. rewrite Hstart.
    destruct (Z.eqb_spec k (n - 1)) as [Hlast | Hmore].
    + assert (m = 0%nat) as -> by lia. cbn.
      rewrite U64_sub_1 by nia. repeat split; nia.
    + assert (Hend : U64.sub (U64.add (k * c) c) 1 = (k + 1) * c - 1).
      { unfold U64.sub, U64.add. rewrite (U64_wrap_small (k * c + c)) by nia.
        rewrite U64_wrap_small by nia. ring. }
      rewrite Hend. cbn [tiles]. split; [reflexivity|]. split; [nia|].
      replace ((k + 1) * c - 1 + 1) with (Z.succ k * c) by lia.
      apply IH; lia.
Qed.

(** Where the last range is left a byte, the plan is exact. *)
Lemma chunkRanges_tiles (job : Job) (n : Z) :
  1 <= n ->
  1 <= chunkSizeOf job n ->
  (n - 1) * chunkSizeOf job n < FileSize job < U64.modulus ->
  tiles 0 (chunkRanges job n) (FileSize job - 1).
Proof.
  intros Hn Hc Hsize. unfold chunkRanges. cbv zeta.
  pose proof (chunkRange_tiles job n (chunkSizeOf job n) (Z.to_nat n) 0) as Htiles.
  rewrite Z2Nat.id in Htiles by lia. apply Htiles; lia.
Qed.
End TilingFacts.

Section PlannerFacts.
Context `{Platform}.

(** Scenario A of the specification: 2,000,000 bytes in chunks of at
    least 500,000 with four workers. *)
Example scenario_A :
  let job := Sample.job 2000000 500000 4 true in
  AvaiableTreads job = 4 /\
  chunkRanges job (AvaiableTreads job) =
    [(0, 499999); (500000, 999999); (1000000, 1499999); (1500000, 1999999)].
Proof. split; vm_compute; reflexivity. Qed.

(** Scenario B: the same resource without range support. *)
Example scenario_B :
  let job := Sample.job 2000000 500000 4 false in
  AvaiableTreads job = 1 /\ chunkRanges job (AvaiableTreads job) = [(0, 1999999)].
Proof. split; vm_compute; reflexivity. Qed.

(** The three early returns of [AvaiableTreads]. *)
Lemma AvaiableTreads_single (job : Job) :
  isSupportRange job = false \/
  FileSize job < MinChunkSize (Job_Option job) \/
  MinChunkSize (Job_Option job) <= 0 ->
  AvaiableTreads job = 1.
Proof.
  intros Hcase. unfold AvaiableTreads.
  destruct (isSupportRange job); simpl.
  - destruct (Z.ltb_spec (FileSize job) (MinChunkSize (Job_Option job))) as [|Hge];
      [reflexivity|].
    destruct (Z.leb_spec (MinChunkSize (Job_Option job)) 0) as [|Hpos];
      [reflexivity|].
    destruct Hcase as [Hr | [Hlt | Hle]]; [discriminate | lia | lia].
  - reflexivity.
Qed.

(** The worker count is between 1 and the ceiling, whatever the
    floating-point quotient came to. *)
Lemma AvaiableTreads_bounds (job : Job) :
  1 <= MaxThreads (Job_Option job) ->
  1 <= AvaiableTreads job <= MaxThreads (Job_Option job).
Proof.
  intros Hmax. unfold AvaiableTreads.
  destruct (negb (isSupportRange job)); [lia|].
  destruct (FileSize job <? MinChunkSize (Job_Option job)); [lia|].
  destruct (MinChunkSize (Job_Option job) <=? 0); [lia|].
  cbv zeta.
  match goal with |- context [?t >? _] => generalize t end.
  intros threads.
  destruct (Z.gtb_spec threads (MaxThreads (Job_Option job))); [lia|].
  destruct (Z.ltb_spec threads 1); lia.
Qed.

(** With one worker the loop runs once, and its only range ends at
    [job.FileSize - 1]. *)
Lemma chunkRanges_single (job : Job) :
  chunkRanges job 1 = [(0, U64.sub (FileSize job) 1)].
Proof.
  unfold chunkRanges. change (seqZ 0 1) with [0]. cbn [fmap list_fmap].
  unfold chunkRange. rewrite U64_mul_0_l. reflexivity.
Qed.

(** C1. The specification states that for every total size, every
    minimum chunk size above zero and every ceiling of at least one
    worker, the planned ranges are contiguous, do not overlap and
    cover exactly the bytes [0, totalSize-1]. For a file of 5 bytes,
    a minimum chunk of 1 byte and a ceiling of 4 workers the code
    plans 4 workers and chunks of 2 bytes: the third range ends at
    byte 5, one beyond the last byte of the file, and the fourth
    range starts at 6 and ends at 4. The ranges do not tile the
    file. *)
Theorem C1_ranges_overrun_small_file :
  let job := Sample.job 5 1 4 true in
  AvaiableTreads job = 4 /\
  chunkSizeOf job (AvaiableTreads job) = 2 /\
  chunkRanges job (AvaiableTreads job) = [(0, 1); (2, 3); (4, 5); (6, 4)] /\
  covered (chunkRanges job (AvaiableTreads job)) (FileSize job) = true /\
  ~ tiles 0 (chunkRanges job (AvaiableTreads job)) (FileSize job - 1).
Proof.
  intros job.
  assert (Hranges : chunkRanges job (AvaiableTreads job) =
                    [(0, 1); (2, 3); (4, 5); (6, 4)]) by (vm_compute; reflexivity).
  split; [vm_compute; reflexivity|].
  split; [vm_compute; reflexivity|].
  split; [exact Hranges|].
  split; [vm_compute; reflexivity|].
  rewrite Hranges. cbn. lia.
Qed.
End PlannerFacts.

(** ** The probe *)

Lemma ParseUint_empty : ParseUint "" = None.
Proof. reflexivity. Qed.

Example ParseUint_number : ParseUint "2000000" = Some 2000000.
Proof. reflexivity. Qed.

Example ParseUint_largest : ParseUint "18446744073709551615" = Some maxUint64.
Proof. reflexivity. Qed.

Example ParseUint_too_large : ParseUint "18446744073709551616" = None.
Proof. reflexivity. Qed.

Example ParseUint_signed : ParseUint "+12" = None.
Proof. reflexivity. Qed.

Lemma Header_Get_absent (h : gmap string string) (key : string) :
  h !! key = None -> Header_Get h key = EmptyString.
Proof. intros Hk. unfold Header_Get. rewrite Hk. reflexivity. Qed.

Section ProbeFacts.
Context `{Platform}.

Lemma fetchInfo_status (env : Env) (job : Job) (w : World) (r : Response) :
  http_NewRequest_error "HEAD" (URL_String (Url job)) = None ->
  probe_reply env = inr r ->
  299 < StatusCode r ->
  fetchInfo env job w =
    Returns (Some (statusError job (StatusCode r)), job, send w (probeRequest job)).
Proof.
  intros Hreq Hreply Hstatus. unfold fetchInfo, statusError.
  cbv zeta. rewrite Hreq, Hreply.
  destruct (StatusCode r =? 404); [reflexivity|].
  destruct (StatusCode r =? 401); [reflexivity|].
  destruct (Z.gtb_spec (StatusCode r) 299); [reflexivity | lia].
Qed.

(** [fetchInfo] leaves the files alone and sends at most the probe. *)
Lemma fetchInfo_world (env : Env) (job job' : Job) (w w' : World) (err : option error) :
  fetchInfo env job w = Returns (err, job', w') ->
  w' = w \/ w' = send w (probeRequest job).
Proof.
  unfold fetchInfo. cbv zeta.
  destruct (http_NewRequest_error _ _); [intros [= <- <- <-]; by left|].
  destruct (probe_reply env) as [msg|r]; [intros [= <- <- <-]; by right|].
  destruct (StatusCode r =? 404); [intros [= <- <- <-]; by right|].
  destruct (StatusCode r =? 401); [intros [= <- <- <-]; by right|].
  destruct (StatusCode r >? 299); [intros [= <- <- <-]; by right|].
  destruct (ParseUint _); [|intros [= <- <- <-]; by right].
  destruct (negb _); [|intros [= <- <- <-]; by right].
  destruct (getFileNameByResponse r); cbn; [|discriminate..].
  intros [= <- <- <-]; by right.
Qed.

(** A failed probe is as far as [downloadHttp] goes. *)
Lemma downloadHttp_probe_failed (env : Env) (job job' : Job) (w w' : World) (err : error) :
  fetchInfo env job w = Returns (Some err, job', w') ->
  downloadHttp env job w = Returns (Some err, job', w').
Proof. intros Hprobe. unfold downloadHttp. rewrite Hprobe. reflexivity. Qed.

(** C7. A 404 reply to the probe gives the not-found error, a 401
    reply the no-access error, any other status above 299 the
    connection error. Whenever the probe returns an error,
    [downloadHttp] returns that error at once: the files on disk are
    those from before and nothing but the probe has been sent, so no
    worker has asked for a range. *)
Theorem C7_probe_failure_aborts (env : Env) (job : Job) (w : World) :
  (forall r : Response,
      http_NewRequest_error "HEAD" (URL_String (Url job)) = None ->
      probe_reply env = inr r ->
      let failsWith (err : error) :=
        fetchInfo env job w = Returns (Some err, job, send w (probeRequest job)) in
      (StatusCode r = 404 -> failsWith (ErrNotFound (URL_String (Url job)))) /\
      (StatusCode r = 401 -> failsWith (ErrUnauthorized (URL_String (Url job)))) /\
      (299 < StatusCode r -> StatusCode r <> 404 -> StatusCode r <> 401 ->
       failsWith (ErrConnect (URL_String (Url job))))) /\
  (forall (err : error) (job' : Job) (w' : World),
      fetchInfo env job w = Returns (Some err, job', w') ->
      downloadHttp env job w = Returns (Some err, job', w') /\
      files w' = files w /\
      (sent w' = sent w \/ sent w' = sent w ++ [probeRequest job])).
Proof.
  split.
  - intros r Hreq Hreply failsWith. subst failsWith. cbv beta.
    repeat split.
    + intros Hs. rewrite (fetchInfo_status env job w r Hreq Hreply) by lia.
      unfold statusError. rewrite Hs. reflexivity.
    + intros Hs. rewrite (fetchInfo_status env job w r Hreq Hreply) by lia.
      unfold statusError. rewrite Hs. reflexivity.
    + intros Hs H404 H401.
      rewrite (fetchInfo_status env job w r Hreq Hreply) by lia.
      unfold statusError.
      destruct (Z.eqb_spec (StatusCode r) 404); [contradiction|].
      destruct (Z.eqb_spec (StatusCode r) 401); [contradiction|].
      reflexivity.
  - intros err job' w' Hprobe. split.
    + apply downloadHttp_probe_failed. exact Hprobe.
    + destruct (fetchInfo_world env job job' w w' (Some err) Hprobe) as [-> | ->].
      * split; [reflexivity | by left].
      * split; [reflexivity | by right].
Qed.

(** C8. When the reply to the probe is a success and its
    Content-Length is absent or does not parse, [fetchInfo] returns
    no error, the size is 0, range support is off, and the planner
    answers one worker, whose range runs from 0 to the largest
    [uint64]. *)
Theorem C8_unknown_size_single_worker (env : Env) (job : Job) (w : World) (r : Response) :
  http_NewRequest_error "HEAD" (URL_String (Url job)) = None ->
  probe_reply env = inr r ->
  StatusCode r <= 299 ->
  Header r !! "Content-Length"%string = None \/
  ParseUint (Header_Get (Header r) "Content-Length") = None ->
  let job' := set_FileSize (set_isSupportRange job false) 0 in
  fetchInfo env job w = Returns (None, job', send w (probeRequest job)) /\
  FileSize job' = 0 /\
  isSupportRange job' = false /\
  AvaiableTreads job' = 1 /\
  chunkRanges job' (AvaiableTreads job') = [(0, maxUint64)].
Proof.
  intros Hreq Hreply Hstatus Hsize job'.
  assert (Hparse : ParseUint (Header_Get (Header r) "Content-Length") = None).
  { destruct Hsize as [Habsent | Hbad]; [|exact Hbad].
    rewrite (Header_Get_absent _ _ Habsent). apply ParseUint_empty. }
  assert (Hone : AvaiableTreads job' = 1)
    by (apply AvaiableTreads_single; left; reflexivity).
  split; [|split; [reflexivity|split; [reflexivity|split; [exact Hone|]]]].
  - unfold fetchInfo. cbv zeta. rewrite Hreq, Hreply.
    destruct (Z.eqb_spec (StatusCode r) 404); [lia|].
    destruct (Z.eqb_spec (StatusCode r) 401); [lia|].
    destruct (Z.gtb_spec (StatusCode r) 299); [lia|].
    rewrite Hparse.
    destruct (String.eqb _ _); reflexivity.
  - rewrite Hone, chunkRanges_single. reflexivity.
Qed.
End ProbeFacts.

Lemma C7_probe_failure_aborts_witness :
  let env := Sample.env (Sample.response 404 [] []) (Sample.response 206 [] []) [] in
  let job := Sample.job 0 512000 4 false in
  @downloadHttp Sample.platform env job Sample.world =
    Returns (Some (ErrNotFound "http://h/a.bin"), job,
             send Sample.world (@probeRequest job)) /\
  files (send Sample.world (@probeRequest job)) = files Sample.world.
Proof.
  intros env job.
  destruct (@C7_probe_failure_aborts Sample.platform env job Sample.world)
    as [Hstatus Habort].
  destruct (Hstatus (Sample.response 404 [] []) eq_refl eq_refl) as (H404 & _ & _).
  destruct (Habort _ _ _ (H404 eq_refl)) as (Hdl & Hfiles & _).
  split; [exact Hdl | exact Hfiles].
Defined.

Lemma C8_unknown_size_single_worker_witness :
  let env := Sample.env (Sample.response 200 [("Accept-Ranges", "bytes");
                                              ("Content-Length", "12k")]%string [])
                        (Sample.response 206 [] []) [] in
  let job := Sample.job 7 512000 4 true in
  exists job',
    @fetchInfo Sample.platform env job Sample.world =
      Returns (None, job', send Sample.world (probeRequest job)) /\
    FileSize job' = 0 /\ isSupportRange job' = false /\
    @AvaiableTreads Sample.platform job' = 1 /\
    @chunkRanges Sample.platform job' (@AvaiableTreads Sample.platform job') =
      [(0, maxUint64)].
Proof.
  intros env job. eexists.
  apply (@C8_unknown_size_single_worker Sample.platform env job Sample.world
           (Sample.response 200 [("Accept-Ranges", "bytes");
                                 ("Content-Length", "12k")]%string [])).
  - reflexivity.
  - reflexivity.
  - vm_compute. discriminate.
  - right. vm_compute. reflexivity.
Defined.

(** ** The factory *)

(** [cloneOption] copies seven of the eight fields. *)
Lemma cloneOption_fields (opt : Option) :
  Dir (cloneOption opt) = Dir opt /\
  FileNamePrefix (cloneOption opt) = FileNamePrefix opt /\
  MaxThreads (cloneOption opt) = MaxThreads opt /\
  MinChunkSize (cloneOption opt) = MinChunkSize opt /\
  EnableSaveFileDialog (cloneOption opt) = EnableSaveFileDialog opt /\
  Overwrite (cloneOption opt) = Overwrite opt /\
  Timeout (cloneOption opt) = Timeout opt.
Proof. repeat split. Qed.

Lemma cloneOption_Cookies (opt : Option) : Cookies (cloneOption opt) = [].
Proof. reflexivity. Qed.

Section FactoryFacts.
Context `{Platform}.

(** Without overrides and with the interceptor [New] installs, a Job
    has no cookies, whatever the Downloader's are. *)
Lemma NewJob_default_Cookies (d d' : Downloader) (url : string) (job : Job) :
  afterCreateJobInterceptor d = (fun job => job) ->
  NewJob d url [] = (Ok job, d') ->
  Cookies (Job_Option job) = [].
Proof.
  intros Hhook. unfold NewJob.
  destruct (netUrl_Parse url); [|discriminate].
  cbn. rewrite Hhook. intros [= <- <-]. reflexivity.
Qed.

Lemma NewJob_lck (d d' : Downloader) (url : string)
    (withOption : list (Option -> Option)) (job : Job) :
  NewJob d url withOption = (Ok job, d') -> _lck job = None.
Proof.
  unfold NewJob. destruct (netUrl_Parse url); [|discriminate].
  intros [= <- <-]. reflexivity.
Qed.
End FactoryFacts.

(** C5. The specification lists the per-request cookies among the
    configuration a Job captures when it is created. A Downloader
    whose defaults carry a cookie hands out a Job with no cookie,
    while the seven other fields are the Downloader's; the probe of
    that Job is sent without the cookie. *)
Theorem C5_default_cookies_not_captured :
  let d := Sample.downloader in
  Cookies (Downloader_Option d) = [Sample.cookie] /\
  exists (job : Job) (d' : Downloader),
    @NewJob Sample.platform d "http://h/a.bin" [] = (Ok job, d') /\
    Cookies (Job_Option job) = [] /\
    Dir (Job_Option job) = Dir (Downloader_Option d) /\
    FileNamePrefix (Job_Option job) = FileNamePrefix (Downloader_Option d) /\
    MaxThreads (Job_Option job) = MaxThreads (Downloader_Option d) /\
    MinChunkSize (Job_Option job) = MinChunkSize (Downloader_Option d) /\
    EnableSaveFileDialog (Job_Option job) = EnableSaveFileDialog (Downloader_Option d) /\
    Overwrite (Job_Option job) = Overwrite (Downloader_Option d) /\
    Timeout (Job_Option job) = Timeout (Downloader_Option d) /\
    req_Cookies (probeRequest job) = [].
Proof.
  split; [reflexivity|].
  eexists _, _. split; [vm_compute; reflexivity|].
  repeat split.
Qed.

(** ** Strings and paths *)

Lemma string_app_cons (x : ascii) (a b : string) :
  String x a +:+ b = String x (a +:+ b).
Proof. reflexivity. Qed.

Lemma string_app_nil_l (b : string) : "" +:+ b = b.
Proof. reflexivity. Qed.

Lemma string_app_assoc (a b c : string) : (a +:+ b) +:+ c = a +:+ (b +:+ c).
Proof.
  induction a as [|x a IH]; [reflexivity|].
  rewrite !string_app_cons. f_equal. exact IH.
Qed.

Lemma string_app_length (a b : string) :
  String.length (a +:+ b) = (String.length a + String.length b)%nat.
Proof.
  induction a as [|x a IH]; [reflexivity|].
  rewrite string_app_cons. cbn. f_equal. exact IH.
Qed.

Lemma string_app_nil_r (s : string) : s +:+ "" = s.
Proof.
  induction s as [|x s IH]; [reflexivity|].
  rewrite string_app_cons. f_equal. exact IH.
Qed.

Lemma substring_full (s : string) : substring 0 (String.length s) s = s.
Proof. induction s as [|x s IH]; cbn; [reflexivity | f_equal; exact IH]. Qed.

Lemma substring_app_l (a b : string) : substring 0 (String.length a) (a +:+ b) = a.
Proof.
  induction a as [|x a IH].
  - rewrite string_app_nil_l. destruct b; reflexivity.
  - rewrite string_app_cons. cbn. f_equal. exact IH.
Qed.

Lemma strip_app (p r : string) : strip p (p +:+ r) = Some r.
Proof.
  induction p as [|x p IH]; [reflexivity|].
  rewrite string_app_cons. cbn. rewrite Ascii.eqb_refl. exact IH.
Qed.

Lemma TrimPrefix_app (p r : string) : TrimPrefix (p +:+ r) p = r.
Proof. unfold TrimPrefix. by rewrite strip_app. Qed.

Lemma dot_not_separator (os : OS) (c : ascii) :
  Ascii.eqb c "."%char = true -> IsPathSeparator os c = false.
Proof. intros ->%Ascii.eqb_eq. destruct os; reflexivity. Qed.

(** A name with a dot in it stops the loop of [filepath.Ext] before
    the loop leaves the name. *)
Lemma scanExt_ContainsDot (os : OS) (s : string) :
  ContainsDot s = true -> scanExt os s <> NoDot.
Proof.
  induction s as [|c s IH]; cbn; [discriminate|].
  intros Hdot. destruct (scanExt os s) eqn:Hscan; try discriminate.
  destruct (Ascii.eqb c ".") eqn:Hc.
  - rewrite (dot_not_separator os c Hc). discriminate.
  - cbn in Hdot. specialize (IH Hdot). contradiction.
Qed.

Lemma scanExt_app (os : OS) (p s : string) :
  scanExt os s <> NoDot -> scanExt os (p +:+ s) = scanExt os s.
Proof.
  intros Hs. induction p as [|c p IH]; [reflexivity|].
  rewrite string_app_cons. cbn. rewrite IH.
  destruct (scanExt os s); [reflexivity..|contradiction].
Qed.

Lemma scanExt_suffix (os : OS) (s e : string) :
  scanExt os s = FoundDot e -> exists stem, s = stem +:+ e.
Proof.
  revert e. induction s as [|c s IH]; cbn; [discriminate|].
  intros e. destruct (scanExt os s) as [e'| |] eqn:Hscan.
  - intros [= <-]. destruct (IH e' eq_refl) as [stem ->].
    exists (String c stem). reflexivity.
  - discriminate.
  - destruct (IsPathSeparator os c); [discriminate|].
    destruct (Ascii.eqb c "."); [|discriminate].
    intros [= <-]. exists EmptyString. reflexivity.
Qed.

(** The extension of a prefixed name is the extension of the name. *)
Lemma filepath_Ext_prefixed (os : OS) (prefix name : string) :
  ContainsDot name = true ->
  filepath_Ext os (prefix +:+ name) = filepath_Ext os name.
Proof.
  intros Hdot. unfold filepath_Ext.
  by rewrite (scanExt_app os prefix name (scanExt_ContainsDot os name Hdot)).
Qed.

(** A name is its stem followed by its extension. *)
Lemma filepath_Ext_split (os : OS) (name : string) :
  let ext := filepath_Ext os name in
  let stem := substring 0 (String.length name - String.length ext) name in
  name = stem +:+ ext.
Proof.
  cbv zeta. unfold filepath_Ext.
  destruct (scanExt os name) as [e| |] eqn:Hscan.
  - destruct (scanExt_suffix os name e Hscan) as [stem ->].
    rewrite string_app_length.
    replace (String.length stem + String.length e - String.length e)%nat
      with (String.length stem) by lia.
    by rewrite substring_app_l.
  - cbn [String.length]. rewrite Nat.sub_0_r, substring_full.
    by rewrite string_app_nil_r.
  - cbn [String.length]. rewrite Nat.sub_0_r, substring_full.
    by rewrite string_app_nil_r.
Qed.

Example filepath_Ext_examples :
  filepath_Ext unix "report.tar.gz" = ".gz"%string /\
  filepath_Ext unix "a.b/c" = EmptyString /\
  filepath_Ext windows "a.b\c" = EmptyString /\
  filepath_Ext unix "a.b\c" = ".b\c"%string /\
  filepath_Ext unix "noext" = EmptyString.
Proof. repeat split. Qed.

(** ** The destination file *)

Example indexedName_example : indexedName "report" 2 ".pdf" = "report(2).pdf"%string.
Proof. reflexivity. Qed.

Lemma indexedName_prefixed (prefix stem : string) (k : Z) (ext : string) :
  indexedName (prefix +:+ stem) k ext = prefix +:+ indexedName stem k ext.
Proof. unfold indexedName. by rewrite string_app_assoc. Qed.

Lemma IsNotExist_true (w : World) (path : string) :
  IsNotExist w path = true <-> files w !! path = None.
Proof. unfold IsNotExist. apply bool_decide_eq_true. Qed.

Lemma IsNotExist_false (w : World) (path : string) :
  IsNotExist w path = false <-> is_Some (files w !! path).
Proof.
  unfold IsNotExist. rewrite bool_decide_eq_false.
  destruct (files w !! path) as [bytes|]; split; intros Hx.
  - by exists bytes.
  - discriminate.
  - contradiction.
  - by destruct Hx.
Qed.

Section FilesFacts.
Context `{Platform}.

(** The loop walks the indices upwards and stops at the first one
    whose path is free. *)
Lemma createTargetFile_loop_first_free (env : Env) (job : Job) (w : World)
    (baseWithoutExt ext : string) (n : Z) (k : nat) :
  forall (fuel : nat) (index : Z),
    0 <= index ->
    index + Z.of_nat k = n ->
    n < I64.half ->
    (k < fuel)%nat ->
    (forall j, index <= j < n ->
       IsNotExist w (filepath_Join (Dir (Job_Option job))
                       (indexedName baseWithoutExt j ext)) = false) ->
    IsNotExist w (filepath_Join (Dir (Job_Option job))
                    (indexedName baseWithoutExt n ext)) = true ->
    createTargetFile_loop fuel env job w baseWithoutExt ext index =
      let job' := set_FileName job
                    (TrimPrefix (indexedName baseWithoutExt n ext)
                                (FileNamePrefix (Job_Option job))) in
      let '(r, w') := os_Create env (TargetFile job') w in
      Some (r, job', w').
Proof.
  induction k as [|k IH]; intros fuel index Hpos Hsum Hmax Hfuel Hused Hfree.
  - assert (index = n) as -> by lia.
    destruct fuel as [|fuel]; [lia|].
    cbn [createTargetFile_loop]. cbv zeta. rewrite Hfree. reflexivity.
  - destruct fuel as [|fuel]; [lia|].
    cbn [createTargetFile_loop]. cbv zeta.
    rewrite (Hused index) by lia.
    rewrite I64_add_1 by lia.
    apply IH; [lia | lia | exact Hmax | lia | | exact Hfree].
    intros j Hj. apply Hused. lia.
Qed.

(** The callers' check of the file name. *)
Lemma badFileName_false (job : Job) :
  badFileName job = false -> ContainsDot (FileName job) = true.
Proof.
  unfold badFileName. intros [_ Hdot]%orb_false_elim.
  by apply negb_false_iff in Hdot.
Qed.
(** For a name that is not an absolute path: when the destination
    exists and overwriting is off, the
    file created is [stem(n).ext] in the Job's directory, under the
    Job's prefix, for the least [n >= 1] whose path is free: the
    paths of the indices below [n] are in use and are left alone,
    the index sits between the stem and the extension, and the Job
    takes the indexed name. The name has passed the check both
    callers make before they call (it is not empty and has a dot),
    the indexed name is not an absolute path, the loop is given [n]
    iterations, and [os.Create] succeeds. *)
Theorem createTargetFile_first_free (env : Env) (job : Job) (w : World) (n : Z) :
  let prefix := FileNamePrefix (Job_Option job) in
  let name := FileName job in
  let ext := filepath_Ext GOOS name in
  let stem := substring 0 (String.length name - String.length ext) name in
  let candidate (k : Z) :=
    filepath_Join (Dir (Job_Option job)) (prefix +:+ indexedName stem k ext) in
  Overwrite (Job_Option job) = false ->
  badFileName job = false ->
  is_Some (files w !! TargetFile job) ->
  1 <= n < I64.half ->
  (Z.to_nat n <= loop_fuel env)%nat ->
  (forall k, 1 <= k < n -> is_Some (files w !! candidate k)) ->
  files w !! candidate n = None ->
  filepath_IsAbs (indexedName stem n ext) = false ->
  os_Create_error env (candidate n) = None ->
  name = stem +:+ ext /\
  createTargetFile env job w =
    Some (Ok (candidate n),
          set_FileName job (indexedName stem n ext),
          set_files w (<[candidate n := []]> (files w))).
Proof.
  intros prefix name ext stem candidate
         Hover Hdot%badFileName_false Hexists Hn Hfuel Hused Hfree Habs Hcreate.
  assert (Hname : name = stem +:+ ext) by apply filepath_Ext_split.
  split; [exact Hname|].
  unfold createTargetFile. rewrite Hover.
  apply IsNotExist_false in Hexists. rewrite Hexists. cbv zeta.
  fold prefix name.
  rewrite (filepath_Ext_prefixed GOOS prefix name Hdot). fold ext.
  assert (Hbase : substring 0 (String.length (prefix +:+ name) - String.length ext)
                    (prefix +:+ name) = prefix +:+ stem).
  { rewrite Hname at 1 2. rewrite <- string_app_assoc.
    rewrite string_app_length.
    replace (String.length (prefix +:+ stem) + String.length ext - String.length ext)%nat
      with (String.length (prefix +:+ stem)) by lia.
    apply substring_app_l. }
  rewrite Hbase.
  rewrite (createTargetFile_loop_first_free env job w (prefix +:+ stem) ext n
             (Z.to_nat (n - 1)) (loop_fuel env) 1); try lia.
  - cbv zeta. rewrite indexedName_prefixed. fold prefix.
    rewrite TrimPrefix_app.
    unfold TargetFile. cbn [FileName set_FileName Job_Option].
    rewrite Habs. fold prefix. fold (candidate n).
    unfold os_Create. rewrite Hcreate. reflexivity.
  - intros j Hj. rewrite indexedName_prefixed.
    apply IsNotExist_false. apply Hused. lia.
  - rewrite indexedName_prefixed. apply IsNotExist_true. exact Hfree.
Qed.
End FilesFacts.

Lemma createTargetFile_first_free_example :
  let env := Sample.env (Sample.response 200 [] []) (Sample.response 206 [] []) [] in
  let job := Sample.job 7 512000 4 true in
  let w := {| files := list_to_map [("/dl/a.bin", [1; 2]); ("/dl/a(1).bin", [3])]%string;
              sent := []; now := 0 |} in
  @createTargetFile Sample.platform env job w =
    Some (Ok "/dl/a(2).bin"%string,
          set_FileName job "a(2).bin",
          set_files w (<["/dl/a(2).bin"%string := []]> (files w))).
Proof.
  intros env job w.
  apply (@createTargetFile_first_free Sample.platform env job w 2).
  - reflexivity.
  - reflexivity.
  - eexists. vm_compute. reflexivity.
  - split; [lia | reflexivity].
  - vm_compute. lia.
  - intros k Hk. assert (k = 1) as -> by lia. eexists. vm_compute. reflexivity.
  - vm_compute. reflexivity.
  - reflexivity.
  - reflexivity.
Defined.

(** C10. The specification states that with overwriting off the file
    created is the first free indexed name, and that an index in use
    is never reused. [TargetFile] takes a [FileName] that is an
    absolute path as the destination itself, but the loop of
    [createTargetFile] looks for the indexed name under [Dir]: it
    tests [Dir] joined with the name and then creates the name. For
    a Job named [/o/a.bin] by its interceptor, saving into [/dl],
    with [/o/a.bin] and [/o/a(1).bin] on disk: the path tested at
    index 1 is [/dl/o/a(1).bin], which is free, and the file created
    is [/o/a(1).bin], which is in use and loses its content;
    [/o/a(2).bin], the first free name, is not made. The source's
    comments at both tests say the file is created because it does
    not exist. [Download] reaches this when the probe's reply has no
    Content-Length. *)
Theorem C10_absolute_name_reuses_index :
  let env := Sample.env (Sample.response 200 [] []) (Sample.response 200 [] [[1; 2]])
                        (Sample.roundRobin 1 10) in
  let w := {| files := list_to_map [("/o/a.bin", [1; 2]); ("/o/a(1).bin", [3])]%string;
              sent := []; now := 0 |} in
  exists (job : Job) (d' : Downloader),
    @NewJob Fixture.cleanPaths Fixture.absoluteNames "http://h/a.bin" [] = (Ok job, d') /\
    FileName job = "/o/a.bin"%string /\
    Dir (Job_Option job) = "/dl"%string /\
    Overwrite (Job_Option job) = false /\
    @TargetFile Fixture.cleanPaths job = "/o/a.bin"%string /\
    files w !! "/o/a(1).bin"%string = Some [3] /\
    files w !! "/o/a(2).bin"%string = None /\
    @filepath_Join Fixture.cleanPaths "/dl" (indexedName "/o/a" 1 ".bin") =
      "/dl/o/a(1).bin"%string /\
    files w !! "/dl/o/a(1).bin"%string = None /\
    @createTargetFile Fixture.cleanPaths env job w =
      Some (Ok "/o/a(1).bin"%string, set_FileName job "/o/a(1).bin",
            set_files w (<["/o/a(1).bin"%string := []]> (files w))) /\
    exists (job' : Job) (w' : World),
      @Download Fixture.cleanPaths env job w =
        Returns (Some ErrRangeNotSupported, job', w') /\
      FileName job' = "/o/a(1).bin"%string /\
      files w' !! "/o/a(1).bin"%string = Some [] /\
      files w' !! "/o/a(2).bin"%string = None.
Proof.
  intros env w. eexists _, _.
  split; [vm_compute; reflexivity|].
  split; [reflexivity|]. split; [reflexivity|]. split; [reflexivity|].
  split; [reflexivity|].
  split; [vm_compute; reflexivity|]. split; [vm_compute; reflexivity|].
  split; [vm_compute; reflexivity|]. split; [vm_compute; reflexivity|].
  split; [vm_compute; reflexivity|].
  eexists _, _. split; [vm_compute; reflexivity|].
  split; [reflexivity|]. split; vm_compute; reflexivity.
Qed.

(** ** The pool of workers *)

Lemma failed_retry (retry : nat) (err : error) :
  (retry < 3)%nat -> failed retry err = Select (S retry).
Proof.
  intros Hr. unfold failed. destruct (Nat.leb_spec 3 retry); [lia | reflexivity].
Qed.

Lemma failed_last (retry : nat) (err : error) :
  (3 <= retry)%nat -> failed retry err = Recording err.
Proof.
  intros Hr. unfold failed. destruct (Nat.leb_spec 3 retry); [reflexivity | lia].
Qed.

Lemma holdsLock_failed (retry : nat) (err : error) : holdsLock (failed retry err) = false.
Proof. unfold failed. destruct (3 <=? retry)%nat; reflexivity. Qed.

Lemma attemptsAt_failed (retry : nat) (err : error) :
  (retry <= 3)%nat -> attemptsAt (failed retry err) (S retry).
Proof.
  intros Hr. unfold failed. destruct (Nat.leb_spec 3 retry); cbn; lia.
Qed.

(** Moving goroutine [i] changes the program counter of [i] only. *)
Lemma lookup_goto (p : Pool) (i : nat) (c : pc) (j : nat) (wk' : Worker) :
  workers (goto p i c) !! j = Some wk' ->
  (j = i /\ exists wk, workers p !! i = Some wk /\ wk' = set_pc wk c) \/
  (j <> i /\ workers p !! j = Some wk').
Proof.
  cbn [goto workers]. destruct (decide (i = j)) as [<- | Hne].
  - rewrite list_lookup_alter_eq.
    destruct (workers p !! i) as [wk|]; [|discriminate].
    intros [= <-]. left. split; [reflexivity|]. by exists wk.
  - rewrite list_lookup_alter_ne by exact Hne. intros Hj. right. by split.
Qed.

Lemma lookup_goto_same (p : Pool) (i : nat) (c : pc) (wk : Worker) :
  workers p !! i = Some wk -> workers (goto p i c) !! i = Some (set_pc wk c).
Proof. intros Hwk. cbn [goto workers]. rewrite list_lookup_alter_eq, Hwk. reflexivity. Qed.

Section PoolFacts.
Context `{Platform}.
Variables (env : Env) (job : Job).

Lemma run_pool_cons (i : nat) (sched : list nat) (p : Pool) :
  run_pool env job (i :: sched) p = run_pool env job sched (step env job i p).
Proof. reflexivity. Qed.

Lemma run_pool_app (s1 s2 : list nat) (p : Pool) :
  run_pool env job (s1 ++ s2) p = run_pool env job s2 (run_pool env job s1 p).
Proof. unfold run_pool. apply foldl_app. Qed.

(** What every step keeps, every schedule keeps. *)
Lemma run_pool_invariant (P : Pool -> Prop) :
  (forall i p, P p -> P (step env job i p)) ->
  forall sched p, P p -> P (run_pool env job sched p).
Proof.
  intros Hstep sched. induction sched as [|i sched IH]; intros p Hp.
  - exact Hp.
  - rewrite run_pool_cons. apply IH, Hstep, Hp.
Qed.
End PoolFacts.

(** The cases of [step], in the order of its text. *)
Ltac step_cases :=
  unfold step; cbv zeta;
  match goal with
  | |- context [panicked ?p] => destruct (panicked p) eqn:Spanic
  end;
  [ |
    match goal with
    | |- context [workers ?p !! ?i] => destruct (workers p !! i) as [wk|] eqn:Swk
    end;
    [ match goal with
      | |- context [w_pc ?w] =>
          destruct (w_pc w)
            as [retry|retry|retry body|retry body|retry body written|err| |] eqn:Spc
      end;
      [ destruct (ctx_done _) eqn:Sdone;
        [|destruct (http_NewRequest_error _ _) as [msg|] eqn:Sreq]
      | destruct (chunk_reply _ _ _) as [msg|resp] eqn:Sreply;
        [|destruct (negb _) eqn:Sstatus]
      | destruct (pool_lck _) as [m|] eqn:Slck;
        [destruct (locked _) eqn:Slocked|]
      | destruct (_ <? 0) eqn:Soff
      | destruct (blocks _ !! _) as [b|] eqn:Sblock;
        [|destruct (read_error _) as [msg|] eqn:Sread]
      | | | ]
    | ] ].

Section PoolInvariants.
Context `{Platform}.
Variables (env : Env) (job : Job).

(** *** A nil lock *)

Lemma nilLock_goto (f : File) (p p' : Pool) (i : nat) (c : pc) :
  nilLock f p ->
  pool_lck p' = pool_lck p -> workers p' = workers p -> file p' = file p ->
  holdsLock c = false ->
  nilLock f (goto p' i c).
Proof.
  intros (Hlck & Hout & Hfile) Elck Ewk Efile Hc. repeat split.
  - cbn. congruence.
  - intros j wk' [(-> & wk & Hwk & ->) | (Hne & Hj)]%lookup_goto.
    + exact Hc.
    + rewrite Ewk in Hj. exact (Hout j wk' Hj).
  - cbn. congruence.
Qed.

Lemma step_nilLock (f : File) (i : nat) (p : Pool) :
  nilLock f p -> nilLock f (step env job i p).
Proof.
  intros Hnil. pose proof Hnil as (Hlck & Hout & Hfile).
  step_cases.
  all: try exact Hnil.
  all: try (specialize (Hout _ _ Swk); rewrite Spc in Hout; discriminate).
  all: try congruence.
  all: apply (nilLock_goto f p);
         first [ assumption | reflexivity | apply holdsLock_failed ].
Qed.

Lemma spawn_nilLock (path : string) (ranges : list (Z * Z)) :
  _lck job = None ->
  nilLock {| file_path := path; cursor := 0; data := [] |} (spawn job path ranges).
Proof.
  intros Hnil. repeat split; [exact Hnil|].
  intros i wk. cbn [spawn workers]. rewrite list_lookup_fmap.
  destruct (ranges !! i); [|discriminate]. intros [= <-]. reflexivity.
Qed.

(** At [job._lck.Lock()] with a nil lock the goroutine panics. *)
Lemma step_Lock_nil (i : nat) (p : Pool) (wk : Worker) (retry : nat) (body : Body) :
  panicked p = false ->
  workers p !! i = Some wk ->
  w_pc wk = Locking retry body ->
  pool_lck p = None ->
  step env job i p = panic p.
Proof.
  intros Hpanic Hwk Hpc Hlck. unfold step. by rewrite Hpanic, Hwk, Hpc, Hlck.
Qed.

(** *** Mutual exclusion *)

Lemma copied_0 (body : Body) : copied body 0 = 0.
Proof. reflexivity. Qed.

Lemma copied_S (body : Body) (written : nat) (b : list Z) :
  blocks body !! written = Some b ->
  copied body (S written) = copied body written + Z.of_nat (length b).
Proof.
  intros Hb. unfold copied. rewrite (take_S_r _ _ _ Hb).
  rewrite concat_app, length_app. cbn [concat]. rewrite app_nil_r. lia.
Qed.

(** Goroutine [i] moves outside the write section. *)
Lemma exclusive_outside (p p' : Pool) (i : nat) (wk : Worker) (c : pc) :
  exclusive p ->
  workers p' = workers p -> pool_lck p' = pool_lck p -> file p' = file p ->
  holdsLock c = false ->
  exclusive (goto p' i c).
Proof.
  intros (E1 & E2 & E3) Ewk Elck Efile Hc. repeat split.
  - intros j wj [(-> & w0 & _ & ->) | (Hne & Hj)]%lookup_goto Hhold.
    + cbn in Hhold. congruence.
    + cbn. rewrite Elck. rewrite Ewk in Hj. exact (E1 j wj Hj Hhold).
  - intros j k wj wk_
      [(-> & w0 & _ & ->) | (Hnej & Hj)]%lookup_goto
      [(-> & w1 & _ & ->) | (Hnek & Hk)]%lookup_goto Hj' Hk';
      cbn in Hj', Hk'; try congruence.
    rewrite Ewk in Hj, Hk. exact (E2 j k wj wk_ Hj Hk Hj' Hk').
  - intros j wj r bd n [(-> & w0 & _ & ->) | (Hne & Hj)]%lookup_goto Hpc.
    + cbn in Hpc. subst c. discriminate.
    + cbn. rewrite Efile. rewrite Ewk in Hj. exact (E3 j wj r bd n Hj Hpc).
Qed.

(** Goroutine [i] leaves the write section and unlocks. *)
Lemma exclusive_unlock (p : Pool) (i : nat) (wk : Worker) (c : pc) :
  exclusive p ->
  workers p !! i = Some wk -> holdsLock (w_pc wk) = true ->
  holdsLock c = false ->
  exclusive (goto (set_lck p false) i c).
Proof.
  intros (E1 & E2 & E3) Hwk Hin Hc.
  assert (Halone : forall j wj, j <> i -> workers p !! j = Some wj ->
                                holdsLock (w_pc wj) = false).
  { intros j wj Hne Hj. destruct (holdsLock (w_pc wj)) eqn:Hhold; [|reflexivity].
    destruct Hne. exact (E2 j i wj wk Hj Hwk Hhold Hin). }
  repeat split.
  - intros j wj [(-> & w0 & _ & ->) | (Hne & Hj)]%lookup_goto Hhold.
    + cbn in Hhold. congruence.
    + cbn in Hj. rewrite (Halone j wj Hne Hj) in Hhold. discriminate.
  - intros j k wj wk_
      [(-> & w0 & _ & ->) | (Hnej & Hj)]%lookup_goto
      [(-> & w1 & _ & ->) | (Hnek & Hk)]%lookup_goto Hj' Hk';
      cbn in Hj', Hk'; try congruence.
    cbn in Hj. rewrite (Halone j wj Hnej Hj) in Hj'. discriminate.
  - intros j wj r bd n [(-> & w0 & _ & ->) | (Hne & Hj)]%lookup_goto Hpc.
    + cbn in Hpc. subst c. discriminate.
    + cbn in Hj. pose proof (Halone j wj Hne Hj) as Hout.
      rewrite Hpc in Hout. discriminate.
Qed.

(** Goroutine [i] takes the free lock. *)
Lemma exclusive_lock (p : Pool) (i : nat) (m : Mutex) (retry : nat) (body : Body) :
  exclusive p ->
  pool_lck p = Some m -> locked m = false ->
  exclusive (goto (set_lck p true) i (Seeking retry body)).
Proof.
  intros (E1 & E2 & E3) Hlck Hfree.
  assert (Hnobody : forall j wj, workers p !! j = Some wj ->
                                 holdsLock (w_pc wj) = false).
  { intros j wj Hj. destruct (holdsLock (w_pc wj)) eqn:Hhold; [|reflexivity].
    specialize (E1 j wj Hj Hhold). rewrite Hlck in E1.
    injection E1 as ->. discriminate. }
  repeat split.
  - intros j wj _ _. cbn. rewrite Hlck. reflexivity.
  - intros j k wj wk_
      [(-> & w0 & _ & ->) | (Hnej & Hj)]%lookup_goto
      [(-> & w1 & _ & ->) | (Hnek & Hk)]%lookup_goto Hj' Hk'; try reflexivity.
    + cbn in Hk. rewrite (Hnobody k wk_ Hk) in Hk'. discriminate.
    + cbn in Hj. rewrite (Hnobody j wj Hj) in Hj'. discriminate.
    + cbn in Hj. rewrite (Hnobody j wj Hj) in Hj'. discriminate.
  - intros j wj r bd n [(-> & w0 & _ & ->) | (Hne & Hj)]%lookup_goto Hpc.
    + discriminate.
    + cbn in Hj. pose proof (Hnobody j wj Hj) as Hout.
      rewrite Hpc in Hout. discriminate.
Qed.

(** Goroutine [i] seeks or writes and stays in the write section. *)
Lemma exclusive_inside (p : Pool) (i : nat) (wk : Worker) (f' : File)
    (retry : nat) (body : Body) (written : nat) :
  exclusive p ->
  workers p !! i = Some wk -> holdsLock (w_pc wk) = true ->
  cursor f' = I64.wrap (w_start wk) + copied body written ->
  exclusive (goto (set_file p f') i (Copying retry body written)).
Proof.
  intros (E1 & E2 & E3) Hwk Hin Hcur.
  assert (Halone : forall j wj, j <> i -> workers p !! j = Some wj ->
                                holdsLock (w_pc wj) = false).
  { intros j wj Hne Hj. destruct (holdsLock (w_pc wj)) eqn:Hhold; [|reflexivity].
    destruct Hne. exact (E2 j i wj wk Hj Hwk Hhold Hin). }
  repeat split.
  - intros j wj [(-> & w0 & Hw0 & ->) | (Hne & Hj)]%lookup_goto Hhold.
    + cbn. exact (E1 i wk Hwk Hin).
    + cbn in Hj. rewrite (Halone j wj Hne Hj) in Hhold. discriminate.
  - intros j k wj wk_
      [(-> & w0 & _ & ->) | (Hnej & Hj)]%lookup_goto
      [(-> & w1 & _ & ->) | (Hnek & Hk)]%lookup_goto Hj' Hk'; try reflexivity.
    + cbn in Hk. rewrite (Halone k wk_ Hnek Hk) in Hk'. discriminate.
    + cbn in Hj. rewrite (Halone j wj Hnej Hj) in Hj'. discriminate.
    + cbn in Hj. rewrite (Halone j wj Hnej Hj) in Hj'. discriminate.
  - intros j wj r bd n [(-> & w0 & Hw0 & ->) | (Hne & Hj)]%lookup_goto Hpc.
    + cbn in Hpc. injection Hpc as <- <- <-. cbn in Hw0.
      rewrite Hwk in Hw0. injection Hw0 as <-. cbn. exact Hcur.
    + cbn in Hj. pose proof (Halone j wj Hne Hj) as Hout.
      rewrite Hpc in Hout. discriminate.
Qed.

Lemma step_exclusive (i : nat) (p : Pool) :
  exclusive p -> exclusive (step env job i p).
Proof.
  intros Hex. step_cases.
  all: try exact Hex.
  all: try (apply (exclusive_outside p _ i wk); first
            [ assumption | reflexivity | apply holdsLock_failed ]).
  all: try (apply (exclusive_unlock p i wk); first
            [ assumption | reflexivity | apply holdsLock_failed
            | rewrite Spc; reflexivity ]).
  - apply (exclusive_lock p i m); assumption.
  - apply (exclusive_inside p i wk); try assumption; [by rewrite Spc|].
    cbn. rewrite copied_0. lia.
  - apply (exclusive_inside p i wk); try assumption; [by rewrite Spc|].
    destruct Hex as (_ & _ & E3). cbn.
    rewrite (E3 i wk retry body written Swk Spc), (copied_S body written b Sblock).
    lia.
Qed.

Lemma spawn_exclusive (path : string) (ranges : list (Z * Z)) :
  exclusive (spawn job path ranges).
Proof.
  assert (Hout : forall i wk, workers (spawn job path ranges) !! i = Some wk ->
                              w_pc wk = Select 0).
  { intros i wk. cbn [spawn workers]. rewrite list_lookup_fmap.
    destruct (ranges !! i); [|discriminate]. intros [= <-]. reflexivity. }
  repeat split.
  - intros i wk Hi Hhold. rewrite (Hout i wk Hi) in Hhold. discriminate.
  - intros i j wi wj Hi _ Hhold. rewrite (Hout i wi Hi) in Hhold. discriminate.
  - intros i wk r bd n Hi Hpc. rewrite (Hout i wk Hi) in Hpc. discriminate.
Qed.

(** Only a goroutine inside the write section touches the file, and
    doing so it stays inside. *)
Lemma step_file (i : nat) (p p' : Pool) :
  p' = step env job i p ->
  file p' <> file p ->
  exists wk wk',
    workers p !! i = Some wk /\ holdsLock (w_pc wk) = true /\
    workers p' !! i = Some wk' /\ holdsLock (w_pc wk') = true.
Proof.
  step_cases; intros -> Hfile; try congruence; try (cbn in Hfile; congruence).
  - exists wk, (set_pc wk (Copying retry body 0)).
    rewrite Spc. repeat split. by apply lookup_goto_same.
  - exists wk, (set_pc wk (Copying retry body (S written))).
    rewrite Spc. repeat split. by apply lookup_goto_same.
Qed.

(** *** Attempts, recording and cancelling *)

Lemma attempts_log_call_same (p : Pool) (i : nat) :
  attempts (log_call p i) i = S (attempts p i).
Proof.
  unfold attempts. cbn [log_call calls]. rewrite filter_app, length_app.
  rewrite filter_cons_True by reflexivity. cbn. lia.
Qed.

Lemma attempts_log_call_other (p : Pool) (i j : nat) :
  j <> i -> attempts (log_call p i) j = attempts p j.
Proof.
  intros Hne. unfold attempts. cbn [log_call calls]. rewrite filter_app, length_app.
  rewrite filter_cons_False by congruence. cbn. lia.
Qed.

(** Goroutine [i] moves without calling [downloadChunk]. *)
Lemma counted_goto (p p' : Pool) (i : nat) (wk : Worker) (c : pc) :
  counted p ->
  workers p' = workers p -> calls p' = calls p ->
  workers p !! i = Some wk ->
  (attemptsAt (w_pc wk) (attempts p i) -> attemptsAt c (attempts p i)) ->
  counted (goto p' i c).
Proof.
  intros Hcount Ewk Ecalls Hwk Hc j wj
    [(-> & w0 & _ & ->) | (Hne & Hj)]%lookup_goto.
  - unfold attempts. cbn. rewrite Ecalls. apply Hc, (Hcount i wk Hwk).
  - unfold attempts. cbn. rewrite Ecalls. rewrite Ewk in Hj. exact (Hcount j wj Hj).
Qed.

(** Goroutine [i] calls [downloadChunk] from its [select]. *)
Lemma counted_call (p p' : Pool) (i : nat) (wk : Worker) (retry : nat) (c : pc) :
  counted p ->
  workers p' = workers p -> calls p' = calls (log_call p i) ->
  workers p !! i = Some wk -> w_pc wk = Select retry ->
  ((retry <= 3)%nat -> attemptsAt c (S retry)) ->
  counted (goto p' i c).
Proof.
  intros Hcount Ewk Ecalls Hwk Hpc Hc j wj
    [(-> & w0 & _ & ->) | (Hne & Hj)]%lookup_goto.
  - pose proof (Hcount i wk Hwk) as Hat. rewrite Hpc in Hat. destruct Hat as [Hn Hr].
    replace (attempts (goto p' i c) i) with (attempts (log_call p i) i)
      by (unfold attempts; cbn [goto calls]; by rewrite Ecalls).
    rewrite attempts_log_call_same, Hn. cbn. exact (Hc Hr).
  - replace (attempts (goto p' i c) j) with (attempts (log_call p i) j)
      by (unfold attempts; cbn [goto calls]; by rewrite Ecalls).
    rewrite (attempts_log_call_other p i j Hne).
    rewrite Ewk in Hj. exact (Hcount j wj Hj).
Qed.

Lemma step_counted (i : nat) (p : Pool) : counted p -> counted (step env job i p).
Proof.
  intros Hcount. step_cases.
  all: try exact Hcount.
  all: try (apply (counted_call p _ i wk retry); first
            [ assumption | reflexivity | apply attemptsAt_failed
            | intros Hr; cbn; lia ]).
  all: apply (counted_goto p _ i wk); try first [ assumption | reflexivity ].
  all: rewrite Spc; cbn; intros Hat.
  all: try match type of Hat with
           | _ /\ _ => destruct Hat as [Hn Hr]; rewrite Hn
           end.
  all: first [ by apply attemptsAt_failed | exact Hat | cbn; lia ].
Qed.

Lemma spawn_counted (path : string) (ranges : list (Z * Z)) :
  counted (spawn job path ranges).
Proof.
  intros i wk. cbn [spawn workers]. rewrite list_lookup_fmap.
  destruct (ranges !! i); [|discriminate]. intros [= <-].
  cbn. split; [reflexivity | lia].
Qed.

(** Goroutine [i] moves and neither records nor cancels. *)
Lemma tripping_goto (p p' : Pool) (i : nat) (wk : Worker) (c : pc) :
  tripping p ->
  workers p' = workers p -> errs p' = errs p -> ctx_done p' = ctx_done p ->
  workers p !! i = Some wk -> w_pc wk <> Cancelling ->
  tripping (goto p' i c).
Proof.
  intros Htrip Ewk Eerrs Edone Hwk Hpc Hrec. cbn in Hrec. rewrite Eerrs in Hrec.
  destruct (Htrip Hrec) as [Hdone | (j & wj & Hj & Hcancel)].
  - left. cbn. congruence.
  - right. exists j, wj. split; [|exact Hcancel].
    cbn [goto workers]. rewrite Ewk.
    rewrite list_lookup_alter_ne; [exact Hj|].
    intros <-. rewrite Hwk in Hj. congruence.
Qed.

Lemma step_tripping (i : nat) (p : Pool) : tripping p -> tripping (step env job i p).
Proof.
  intros Htrip. step_cases.
  all: try exact Htrip.
  all: try (apply (tripping_goto p _ i wk); first
            [ assumption | reflexivity | rewrite Spc; discriminate ]).
  - intros _. right. exists i, (set_pc wk Cancelling).
    split; [by apply lookup_goto_same | reflexivity].
  - intros _. left. reflexivity.
Qed.

Lemma spawn_tripping (path : string) (ranges : list (Z * Z)) :
  tripping (spawn job path ranges).
Proof. intros Hrec. cbn in Hrec. congruence. Qed.

(** The errors on record stay in front of what a step adds. *)
Lemma step_errs (i : nat) (p : Pool) :
  exists later, errs (step env job i p) = errs p ++ later.
Proof.
  step_cases.
  all: try (exists []; cbn; by rewrite app_nil_r).
  exists [err]. reflexivity.
Qed.

Lemma run_pool_errs (sched : list nat) (p : Pool) :
  exists later, errs (run_pool env job sched p) = errs p ++ later.
Proof.
  revert p. induction sched as [|i sched IH]; intros p.
  - exists []. cbn. by rewrite app_nil_r.
  - rewrite run_pool_cons. destruct (IH (step env job i p)) as [l2 ->].
    destruct (step_errs i p) as [l1 ->]. exists (l1 ++ l2). by rewrite app_assoc.
Qed.

(** The moves of a goroutine at its [select], at its record and at
    its cancel. *)
Lemma step_Select_cancelled (i : nat) (p : Pool) (wk : Worker) (retry : nat) :
  panicked p = false -> workers p !! i = Some wk -> w_pc wk = Select retry ->
  ctx_done p = true ->
  step env job i p = goto p i Finished.
Proof. intros Hp Hwk Hpc Hdone. unfold step. by rewrite Hp, Hwk, Hpc, Hdone. Qed.

Lemma step_Select_attempt (i : nat) (p : Pool) (wk : Worker) (retry : nat) :
  panicked p = false -> workers p !! i = Some wk -> w_pc wk = Select retry ->
  ctx_done p = false ->
  calls (step env job i p) = calls p ++ [i].
Proof.
  intros Hp Hwk Hpc Hdone. unfold step. rewrite Hp, Hwk, Hpc, Hdone. cbv zeta.
  destruct (http_NewRequest_error _ _); reflexivity.
Qed.

Lemma step_calls (i : nat) (p p' : Pool) :
  p' = step env job i p ->
  calls p' <> calls p ->
  ctx_done p = false /\
  exists wk retry, workers p !! i = Some wk /\ w_pc wk = Select retry.
Proof.
  step_cases; intros -> Hcalls; try congruence; try (cbn in Hcalls; congruence).
  all: split; [reflexivity | by exists wk, retry].
Qed.

Lemma step_Recording (i : nat) (p : Pool) (wk : Worker) (err : error) :
  panicked p = false -> workers p !! i = Some wk -> w_pc wk = Recording err ->
  step env job i p = goto (record p err) i Cancelling.
Proof. intros Hp Hwk Hpc. unfold step. by rewrite Hp, Hwk, Hpc. Qed.

Lemma step_Cancelling (i : nat) (p : Pool) (wk : Worker) :
  panicked p = false -> workers p !! i = Some wk -> w_pc wk = Cancelling ->
  step env job i p = goto (cancel p) i Finished.
Proof. intros Hp Hwk Hpc. unfold step. by rewrite Hp, Hwk, Hpc. Qed.

Lemma all_finished_lookup (p : Pool) (i : nat) (wk : Worker) :
  all_finished p = true -> workers p !! i = Some wk -> w_pc wk = Finished.
Proof.
  unfold all_finished. rewrite forallb_forall. intros Hall Hwk.
  assert (Hin : In wk (workers p)).
  { apply list_elem_of_In, list_elem_of_lookup. by exists i. }
  specialize (Hall wk Hin). destruct (w_pc wk); try discriminate. reflexivity.
Qed.
End PoolInvariants.

Section RangedFacts.
Context `{Platform}.
Variables (env : Env) (job : Job) (ranges : list (Z * Z)).

(** Goroutine [i] moves and sends nothing. *)
Lemma ranged_goto (p p' : Pool) (i : nat) (c : pc) :
  ranged (chunkRequest job) ranges p ->
  workers p' = workers p -> requests p' = requests p ->
  ranged (chunkRequest job) ranges (goto p' i c).
Proof.
  intros (Hwk & Hreq) Ewk Ereq. split.
  - intros j wj [(-> & w0 & Hw0 & ->) | (Hne & Hj)]%lookup_goto.
    + rewrite Ewk in Hw0. exact (Hwk i w0 Hw0).
    + rewrite Ewk in Hj. exact (Hwk j wj Hj).
  - intros j req Hin. cbn in Hin. rewrite Ereq in Hin. exact (Hreq j req Hin).
Qed.

Lemma step_ranged (i : nat) (p : Pool) :
  ranged (chunkRequest job) ranges p ->
  ranged (chunkRequest job) ranges (step env job i p).
Proof.
  intros Hr. step_cases.
  all: try exact Hr.
  all: try (apply (ranged_goto p); first [ assumption | reflexivity ]).
  destruct Hr as (Hwk & Hreq). split.
  - intros j wj [(-> & w0 & Hw0 & ->) | (Hne & Hj)]%lookup_goto.
    + exact (Hwk i w0 Hw0).
    + exact (Hwk j wj Hj).
  - intros j req Hin. cbn in Hin.
    apply elem_of_app in Hin as [Hin | Hin%list_elem_of_singleton].
    + exact (Hreq j req Hin).
    + injection Hin as -> ->. exists (w_start wk, w_end wk).
      split; [exact (Hwk i wk Swk) | reflexivity].
Qed.

Lemma spawn_ranged (path : string) :
  ranged (chunkRequest job) ranges (spawn job path ranges).
Proof.
  split.
  - intros i wk. cbn [spawn workers]. rewrite list_lookup_fmap.
    destruct (ranges !! i) as [[s e]|]; [|discriminate]. intros [= <-]. reflexivity.
  - intros i req Hin. cbn in Hin. by apply not_elem_of_nil in Hin.
Qed.

(** Every request the workers send asks for one of the planned
    ranges. *)
Lemma run_pool_requests (path : string) (sched : list nat) (i : nat) (req : Request) :
  (i, req) ∈ requests (run_pool env job sched (spawn job path ranges)) ->
  exists r, ranges !! i = Some r /\ req = chunkRequest job r.1 r.2.
Proof.
  assert (Hinv : ranged (chunkRequest job) ranges
                   (run_pool env job sched (spawn job path ranges))).
  { apply (run_pool_invariant env job).
    - intros j q. apply step_ranged.
    - apply spawn_ranged. }
  destruct Hinv as (_ & Hreq). apply Hreq.
Qed.
End RangedFacts.


Section Progress.
Context `{Platform}.
Variables (env : Env) (job : Job).

Lemma reaches_here (i : nat) (p : Pool) (Q : Pool -> Prop) : Q p -> reaches env job i p Q.
Proof. intros HQ. by exists 0%nat. Qed.

Lemma reaches_step (i : nat) (p : Pool) (Q : Pool -> Prop) :
  reaches env job i (step env job i p) Q -> reaches env job i p Q.
Proof. intros [k HQ]. by exists (S k). Qed.

Lemma reaches_then (i : nat) (p : Pool) (Q R : Pool -> Prop) :
  reaches env job i p Q -> (forall p', Q p' -> reaches env job i p' R) -> reaches env job i p R.
Proof.
  intros [k1 HQ] Hnext. destruct (Hnext _ HQ) as [k2 HR].
  exists (k1 + k2)%nat. by rewrite replicate_add, run_pool_app.
Qed.

Lemma frame_goto (p0 p p' : Pool) (i : nat) (c : pc) :
  frame i p0 p -> workers p' = workers p -> frame i p0 (goto p' i c).
Proof.
  intros Hframe Ewk j Hne. cbn [goto workers].
  rewrite list_lookup_alter_ne by congruence. rewrite Ewk. by apply Hframe.
Qed.

(** Goroutine [i] moves outside the write section of a quiet pool. *)
Lemma quiet_goto (p p' : Pool) (i : nat) (c : pc) :
  quiet p ->
  workers p' = workers p -> pool_lck p' = pool_lck p -> panicked p' = panicked p ->
  holdsLock c = false ->
  quiet (goto p' i c).
Proof.
  intros (Hpanic & Hidle & Hfree) Ewk Elck Epanic Hc. repeat split.
  - cbn. congruence.
  - intros j wj [(-> & w0 & _ & ->) | (Hne & Hj)]%lookup_goto; [exact Hc|].
    rewrite Ewk in Hj. exact (Hidle j wj Hj).
  - cbn. congruence.
Qed.

(** Goroutine [i] leaves the write section it was alone in. *)
Lemma quiet_unlock (p : Pool) (i : nat) (c : pc) :
  panicked p = false ->
  (forall j wk, j <> i -> workers p !! j = Some wk -> holdsLock (w_pc wk) = false) ->
  pool_lck p = Some {| locked := true |} ->
  holdsLock c = false ->
  quiet (goto (set_lck p false) i c).
Proof.
  intros Hpanic Hidle Hlck Hc. repeat split.
  - exact Hpanic.
  - intros j wj [(-> & w0 & _ & ->) | (Hne & Hj)]%lookup_goto; [exact Hc|].
    exact (Hidle j wj Hne Hj).
  - cbn. rewrite Hlck. discriminate.
Qed.

(** Inside [io.Copy], alone in the write section, goroutine [i]
    writes what is left of the body, unlocks, and has returned or
    failed. *)
Lemma copy_completes (i : nat) (p0 : Pool) (retry : nat) (body : Body) (m : nat) :
  forall (written : nat) (p : Pool),
    (length (blocks body) - written)%nat = m ->
    panicked p = false ->
    (forall j wk, j <> i -> workers p !! j = Some wk -> holdsLock (w_pc wk) = false) ->
    pool_lck p = Some {| locked := true |} ->
    frame i p0 p ->
    pcAt p i (Copying retry body written) ->
    reaches env job i p (fun p' =>
      quiet p' /\ frame i p0 p' /\
      (pcAt p' i Finished \/ exists err, pcAt p' i (failed retry err))).
Proof.
  induction m as [|m IH]; intros written p Hleft Hpanic Hidle Hlck Hframe (wk & Hwk & Hpc).
  - apply reaches_step, reaches_here. unfold step. rewrite Hpanic, Hwk, Hpc.
    rewrite (proj2 (lookup_ge_None (blocks body) written)) by lia.
    destruct (read_error body) as [msg|].
    + split; [by apply quiet_unlock; [..|apply holdsLock_failed]|].
      split; [by apply (frame_goto p0 p)|].
      right. exists (ErrExternal msg). exists (set_pc wk (failed retry (ErrExternal msg))).
      split; [by apply lookup_goto_same | reflexivity].
    + split; [by apply quiet_unlock|].
      split; [by apply (frame_goto p0 p)|].
      left. exists (set_pc wk Finished). split; [by apply lookup_goto_same | reflexivity].
  - apply reaches_step. unfold step. rewrite Hpanic, Hwk, Hpc.
    destruct (lookup_lt_is_Some_2 (blocks body) written) as [b Hb]; [lia|].
    rewrite Hb. apply (IH (S written)).
    + lia.
    + exact Hpanic.
    + intros j wj Hne [(-> & _) | (_ & Hj)]%lookup_goto; [contradiction|].
      exact (Hidle j wj Hne Hj).
    + exact Hlck.
    + by apply (frame_goto p0 p).
    + exists (set_pc wk (Copying retry body (S written))).
      split; [by apply lookup_goto_same | reflexivity].
Qed.

(** One attempt, from the [select] of a quiet pool: the goroutine
    returns, or the program panics, or the attempt fails and what
    follows a failure ([after]) takes over. *)
Lemma attempt_completes (i : nat) (p0 : Pool) (retry : nat) :
  (forall p err, quiet p -> frame i p0 p -> pcAt p i (failed retry err) ->
                 reaches env job i p (settled i p0)) ->
  forall p, quiet p -> frame i p0 p -> pcAt p i (Select retry) ->
            reaches env job i p (settled i p0).
Proof.
  intros Hafter p Hquiet Hframe (wk & Hwk & Hpc).
  pose proof Hquiet as (Hpanic & Hidle & Hfree).
  apply reaches_step. unfold step at 1. rewrite Hpanic, Hwk, Hpc.
  destruct (ctx_done p) eqn:Hdone.
  { apply reaches_here. right.
    split; [by apply (quiet_goto p)|]. split; [by apply (frame_goto p0 p)|].
    exists (set_pc wk Finished). split; [by apply lookup_goto_same | reflexivity]. }
  cbv zeta. destruct (http_NewRequest_error _ _) as [msg|].
  { apply (Hafter _ (ErrExternal msg)).
    - apply (quiet_goto p); first [ done | apply holdsLock_failed ].
    - by apply (frame_goto p0 p).
    - exists (set_pc wk (failed retry (ErrExternal msg))).
      split; [by apply lookup_goto_same | reflexivity]. }
  set (p1 := goto _ i (Awaiting retry)).
  assert (Hquiet1 : quiet p1) by (apply (quiet_goto p); done).
  assert (Hframe1 : frame i p0 p1) by (by apply (frame_goto p0 p)).
  assert (Hwk1 : workers p1 !! i = Some (set_pc wk (Awaiting retry)))
    by (by apply lookup_goto_same).
  apply reaches_step. unfold step at 1.
  rewrite (proj1 Hquiet1), Hwk1. cbn [w_pc set_pc].
  destruct (chunk_reply env i retry) as [msg|resp].
  { apply (Hafter _ (ErrExternal msg)).
    - apply (quiet_goto p1); first [ done | apply holdsLock_failed ].
    - by apply (frame_goto p0 p1).
    - eexists. split; [by apply lookup_goto_same | reflexivity]. }
  destruct (negb _).
  { apply (Hafter _ ErrRangeNotSupported).
    - apply (quiet_goto p1); first [ done | apply holdsLock_failed ].
    - by apply (frame_goto p0 p1).
    - eexists. split; [by apply lookup_goto_same | reflexivity]. }
  set (body := resp_Body resp).
  set (p2 := goto p1 i (Locking retry body)).
  assert (Hquiet2 : quiet p2) by (apply (quiet_goto p1); done).
  assert (Hframe2 : frame i p0 p2) by (by apply (frame_goto p0 p1)).
  assert (Hwk2 : workers p2 !! i = Some (set_pc (set_pc wk (Awaiting retry))
                                                (Locking retry body)))
    by (by apply lookup_goto_same).
  apply reaches_step. unfold step at 1.
  rewrite (proj1 Hquiet2), Hwk2. cbn [w_pc set_pc].
  destruct (pool_lck _) as [m|] eqn:Hlck2;
    [|apply reaches_here; left; reflexivity].
  destruct m as [[|]]; cbn [locked].
  { destruct Hquiet2 as (_ & _ & Hfree2). contradiction. }
  set (p3 := goto (set_lck p2 true) i (Seeking retry body)).
  assert (Hpanic3 : panicked p3 = false) by exact (proj1 Hquiet2).
  assert (Hidle3 : forall j wj, j <> i -> workers p3 !! j = Some wj ->
                                holdsLock (w_pc wj) = false).
  { intros j wj Hne [(-> & _) | (_ & Hj)]%lookup_goto; [contradiction|].
    destruct Hquiet2 as (_ & Hidle2 & _). exact (Hidle2 j wj Hj). }
  assert (Hlck3 : pool_lck p3 = Some {| locked := true |})
    by (cbn; by rewrite Hlck2).
  assert (Hframe3 : frame i p0 p3) by (by apply (frame_goto p0 p2)).
  assert (Hwk3 : workers p3 !! i =
                 Some (set_pc (set_pc (set_pc wk (Awaiting retry)) (Locking retry body))
                              (Seeking retry body)))
    by (by apply lookup_goto_same).
  apply reaches_step. unfold step at 1.
  rewrite Hpanic3, Hwk3. cbn [w_pc set_pc w_start].
  destruct (_ <? 0).
  { apply (Hafter _ (ErrExternal "seek: invalid argument")).
    - apply quiet_unlock;
        [exact Hpanic3 | exact Hidle3 | exact Hlck3 | apply holdsLock_failed].
    - by apply (frame_goto p0 p3).
    - eexists. split; [by apply lookup_goto_same | reflexivity]. }
  set (p4 := goto _ i (Copying retry body 0)).
  apply (reaches_then i p4
           (fun p' => quiet p' /\ frame i p0 p' /\
                      (pcAt p' i Finished \/ exists err, pcAt p' i (failed retry err)))).
  - apply (copy_completes i p0 retry body (length (blocks body)) 0%nat).
    + lia.
    + exact Hpanic3.
    + intros j wj Hne [(-> & _) | (_ & Hj)]%lookup_goto; [contradiction|].
      exact (Hidle3 j wj Hne Hj).
    + exact Hlck3.
    + by apply (frame_goto p0 p3).
    + eexists. split; [by apply lookup_goto_same | reflexivity].
  - intros p' (Hq & Hf & [Hfin | (err & Hfail)]).
    + apply reaches_here. right. exact (conj Hq (conj Hf Hfin)).
    + by apply (Hafter p' err).
Qed.

(** After its fourth failure the goroutine records, cancels and
    returns. *)
Lemma giving_up_completes (i : nat) (p0 p : Pool) (retry : nat) (err : error) :
  (3 <= retry)%nat ->
  quiet p -> frame i p0 p -> pcAt p i (failed retry err) ->
  reaches env job i p (settled i p0).
Proof.
  intros Hlast Hquiet Hframe (wk & Hwk & Hpc). rewrite failed_last in Hpc by exact Hlast.
  apply reaches_step. unfold step at 1. rewrite (proj1 Hquiet), Hwk, Hpc.
  set (p1 := goto (record p err) i Cancelling).
  assert (Hquiet1 : quiet p1) by (apply (quiet_goto p); done).
  assert (Hwk1 : workers p1 !! i = Some (set_pc wk Cancelling))
    by (by apply lookup_goto_same).
  apply reaches_step, reaches_here. unfold step. rewrite (proj1 Hquiet1), Hwk1.
  cbn [w_pc set_pc]. right.
  split; [by apply (quiet_goto p1)|].
  split; [apply (frame_goto p0 p1); [by apply (frame_goto p0 p) | done]|].
  eexists. split; [by apply lookup_goto_same | reflexivity].
Qed.

(** From its [select], with [retry] at most three, a goroutine run
    alone in a quiet pool returns or the program panics. *)
Lemma attempts_complete (i : nat) (p0 : Pool) (k : nat) :
  forall retry p,
    (retry + k = 3)%nat ->
    quiet p -> frame i p0 p -> pcAt p i (Select retry) ->
    reaches env job i p (settled i p0).
Proof.
  induction k as [|k IH]; intros retry p Hk Hquiet Hframe Hpc.
  - apply (attempt_completes i p0 retry); try assumption.
    intros p' err. apply giving_up_completes. lia.
  - apply (attempt_completes i p0 retry); try assumption.
    intros p' err Hq Hf Hfail. rewrite failed_retry in Hfail by lia.
    apply (IH (S retry)); [lia | assumption..].
Qed.

(** A quiet pool with every goroutine at its first [select] can be
    scheduled so that the first [n] goroutines return, or the program
    panics. *)
Lemma workers_complete (p : Pool) (n : nat) :
  quiet p ->
  (forall j wk, workers p !! j = Some wk -> w_pc wk = Select 0) ->
  exists sched,
    let p' := run_pool env job sched p in
    panicked p' = true \/
    (quiet p' /\
     (forall j wk, (j < n)%nat -> workers p' !! j = Some wk -> w_pc wk = Finished) /\
     (forall j, (n <= j)%nat -> workers p' !! j = workers p !! j)).
Proof.
  intros Hquiet Hfresh. induction n as [|n (sched & IH)].
  - exists []. right. split; [exact Hquiet|]. split; [lia | reflexivity].
  - cbv zeta in IH. destruct IH as [Hpanic | (Hq & Hdone & Hrest)].
    { exists sched. by left. }
    set (p1 := run_pool env job sched p) in *.
    destruct (workers p1 !! n) as [wk|] eqn:Hwk.
    + assert (Hsel : pcAt p1 n (Select 0)).
      { exists wk. split; [exact Hwk|]. rewrite Hrest in Hwk by lia.
        exact (Hfresh n wk Hwk). }
      destruct (attempts_complete n p1 3 0%nat p1 eq_refl Hq (fun _ _ => eq_refl) Hsel)
        as [k Hsettled].
      exists (sched ++ replicate k n). cbv zeta. rewrite run_pool_app. fold p1.
      destruct Hsettled as [Hpanic | (Hq2 & Hf2 & (wk2 & Hwk2 & Hpc2))]; [by left|].
      right. split; [exact Hq2|]. split.
      * intros j wj Hj Hlook. destruct (decide (j = n)) as [-> | Hne].
        -- rewrite Hwk2 in Hlook. by injection Hlook as <-.
        -- rewrite (Hf2 j Hne) in Hlook. apply (Hdone j wj); [lia | exact Hlook].
      * intros j Hj. rewrite (Hf2 j) by lia. apply Hrest. lia.
    + exists sched. right. split; [exact Hq|]. split.
      * intros j wj Hj Hlook. destruct (decide (j = n)) as [-> | Hne].
        -- fold p1 in Hlook. congruence.
        -- apply (Hdone j wj); [lia | exact Hlook].
      * intros j Hj. apply Hrest. lia.
Qed.

Lemma step_workers_length (i : nat) (p : Pool) :
  length (workers (step env job i p)) = length (workers p).
Proof. step_cases; cbn; rewrite ?length_alter; reflexivity. Qed.

Lemma run_pool_workers_length (sched : list nat) (p : Pool) :
  length (workers (run_pool env job sched p)) = length (workers p).
Proof.
  revert p. induction sched as [|i sched IH]; intros p; [reflexivity|].
  rewrite run_pool_cons, IH. apply step_workers_length.
Qed.

(** Unless the lock is handed over taken, the workers can be
    scheduled so that all of them return or the program panics. *)
Lemma pool_completes (path : string) (ranges : list (Z * Z)) :
  _lck job <> Some {| locked := true |} ->
  exists sched,
    let p := run_pool env job sched (spawn job path ranges) in
    panicked p = true \/ all_finished p = true.
Proof.
  intros Hlck.
  assert (Hfresh : forall j wk, workers (spawn job path ranges) !! j = Some wk ->
                                w_pc wk = Select 0).
  { intros j wk. cbn [spawn workers]. rewrite list_lookup_fmap.
    destruct (ranges !! j); [|discriminate]. by intros [= <-]. }
  assert (Hquiet : quiet (spawn job path ranges)).
  { repeat split; [|exact Hlck].
    intros j wk Hj. by rewrite (Hfresh j wk Hj). }
  destruct (workers_complete (spawn job path ranges)
              (length (workers (spawn job path ranges))) Hquiet Hfresh)
    as (sched & Hrun).
  exists sched. cbv zeta in *. destruct Hrun as [Hpanic | (_ & Hdone & _)]; [by left|].
  right. unfold all_finished. apply forallb_forall. intros wk Hin.
  apply list_elem_of_In, list_elem_of_lookup in Hin as [j Hj].
  rewrite (Hdone j wk) ; [reflexivity | | exact Hj].
  apply lookup_lt_Some in Hj. by rewrite run_pool_workers_length in Hj.
Qed.
End Progress.

Section Failure.
Context `{Platform}.
Variables (env : Env) (job : Job).

(** *** The ways out of [downloadChunk], and what the loop makes of
    a failure *)

Lemma step_NewRequest_failed (i : nat) (p : Pool) (wk : Worker) (retry : nat)
    (msg : string) :
  panicked p = false -> workers p !! i = Some wk -> w_pc wk = Select retry ->
  ctx_done p = false ->
  http_NewRequest_error "GET" (URL_String (Url job)) = Some msg ->
  step env job i p = goto (log_call p i) i (failed retry (ErrExternal msg)).
Proof. intros Hp Hwk Hpc Hdone Hreq. unfold step. by rewrite Hp, Hwk, Hpc, Hdone, Hreq. Qed.

Lemma step_request_sent (i : nat) (p : Pool) (wk : Worker) (retry : nat) :
  panicked p = false -> workers p !! i = Some wk -> w_pc wk = Select retry ->
  ctx_done p = false ->
  http_NewRequest_error "GET" (URL_String (Url job)) = None ->
  step env job i p =
    goto (log_request (log_call p i) i (chunkRequest job (w_start wk) (w_end wk)))
         i (Awaiting retry).
Proof. intros Hp Hwk Hpc Hdone Hreq. unfold step. by rewrite Hp, Hwk, Hpc, Hdone, Hreq. Qed.

Lemma step_reply_failed (i : nat) (p : Pool) (wk : Worker) (retry : nat) (err : error) :
  panicked p = false -> workers p !! i = Some wk -> w_pc wk = Awaiting retry ->
  replyError env i retry = Some err ->
  step env job i p = goto p i (failed retry err).
Proof.
  intros Hp Hwk Hpc. unfold replyError, step. rewrite Hp, Hwk, Hpc.
  destruct (chunk_reply env i retry) as [msg|resp]; [by intros [= <-]|].
  destruct (negb _); [by intros [= <-] | discriminate].
Qed.

Lemma step_reply_accepted (i : nat) (p : Pool) (wk : Worker) (retry : nat)
    (resp : Response) :
  panicked p = false -> workers p !! i = Some wk -> w_pc wk = Awaiting retry ->
  chunk_reply env i retry = inr resp -> StatusCode resp = 206 ->
  step env job i p = goto p i (Locking retry (resp_Body resp)).
Proof.
  intros Hp Hwk Hpc Hreply Hstatus. unfold step.
  by rewrite Hp, Hwk, Hpc, Hreply, Hstatus.
Qed.

Lemma step_Seek_failed (i : nat) (p : Pool) (wk : Worker) (retry : nat) (body : Body) :
  panicked p = false -> workers p !! i = Some wk -> w_pc wk = Seeking retry body ->
  I64.wrap (w_start wk) < 0 ->
  step env job i p =
    goto (set_lck p false) i (failed retry (ErrExternal "seek: invalid argument")).
Proof.
  intros Hp Hwk Hpc Hoff. unfold step. rewrite Hp, Hwk, Hpc. cbv zeta.
  destruct (Z.ltb_spec (I64.wrap (w_start wk)) 0); [reflexivity | lia].
Qed.

Lemma step_Copy_failed (i : nat) (p : Pool) (wk : Worker) (retry : nat) (body : Body)
    (written : nat) (msg : string) :
  panicked p = false -> workers p !! i = Some wk ->
  w_pc wk = Copying retry body written ->
  blocks body !! written = None -> read_error body = Some msg ->
  step env job i p = goto (set_lck p false) i (failed retry (ErrExternal msg)).
Proof.
  intros Hp Hwk Hpc Hend Hread. unfold step. by rewrite Hp, Hwk, Hpc, Hend, Hread.
Qed.

Lemma step_Copy_done (i : nat) (p : Pool) (wk : Worker) (retry : nat) (body : Body)
    (written : nat) :
  panicked p = false -> workers p !! i = Some wk ->
  w_pc wk = Copying retry body written ->
  blocks body !! written = None -> read_error body = None ->
  step env job i p = goto (set_lck p false) i Finished.
Proof.
  intros Hp Hwk Hpc Hend Hread. unfold step. by rewrite Hp, Hwk, Hpc, Hend, Hread.
Qed.

Lemma pcAt_goto (p : Pool) (i : nat) (c c' : pc) : pcAt p i c -> pcAt (goto p i c') i c'.
Proof.
  intros (wk & Hwk & _). exists (set_pc wk c'). split; [|reflexivity].
  by apply lookup_goto_same.
Qed.

(** A failure after fewer than three retries leaves the goroutine at
    its [select] with one retry more; after three, its next two steps
    put the error at the end of the record, trip the cancellation and
    return, with no further call. *)
Lemma after_failure (i : nat) (q : Pool) (retry : nat) (err : error) :
  panicked q = false ->
  pcAt q i (failed retry err) ->
  ((retry < 3)%nat -> pcAt q i (Select (S retry))) /\
  ((3 <= retry)%nat ->
   let q2 := run_pool env job [i; i] q in
   errs q2 = errs q ++ [err] /\ ctx_done q2 = true /\ pcAt q2 i Finished /\
   calls q2 = calls q /\ panicked q2 = false).
Proof.
  intros Hp Hat. split.
  - intros Hr. by rewrite failed_retry in Hat.
  - intros Hr. rewrite failed_last in Hat by exact Hr.
    destruct Hat as (wk & Hwk & Hpc). cbv zeta.
    rewrite !run_pool_cons. cbn [run_pool foldl].
    rewrite (step_Recording env job i q wk err Hp Hwk Hpc).
    assert (Hwk1 : workers (goto (record q err) i Cancelling) !! i =
                   Some (set_pc wk Cancelling)) by (by apply lookup_goto_same).
    rewrite (step_Cancelling env job i (goto (record q err) i Cancelling)
               (set_pc wk Cancelling) Hp Hwk1 eq_refl).
    split; [reflexivity|]. split; [reflexivity|].
    split; [|split; [reflexivity | exact Hp]].
    exists (set_pc (set_pc wk Cancelling) Finished).
    split; [by apply lookup_goto_same | reflexivity].
Qed.

(** One attempt that fails at its reply, from the [select] to the
    failure. *)
Lemma failing_attempt (i : nat) (p : Pool) (retry : nat) (err : error) :
  panicked p = false ->
  pcAt p i (Select retry) ->
  ctx_done p = false ->
  http_NewRequest_error "GET" (URL_String (Url job)) = None ->
  replyError env i retry = Some err ->
  let p2 := run_pool env job [i; i] p in
  panicked p2 = false /\ pcAt p2 i (failed retry err) /\ ctx_done p2 = false /\
  errs p2 = errs p /\ calls p2 = calls p ++ [i].
Proof.
  intros Hp (wk & Hwk & Hpc) Hdone Hbuilt Hfail. cbv zeta.
  rewrite !run_pool_cons. cbn [run_pool foldl].
  rewrite (step_request_sent i p wk retry Hp Hwk Hpc Hdone Hbuilt).
  set (p1 := goto _ i (Awaiting retry)).
  assert (Hwk1 : workers p1 !! i = Some (set_pc wk (Awaiting retry)))
    by (by apply lookup_goto_same).
  rewrite (step_reply_failed i p1 (set_pc wk (Awaiting retry)) retry err Hp Hwk1
             eq_refl Hfail).
  split; [exact Hp|]. split; [|split; [exact Hdone|split; reflexivity]].
  exists (set_pc (set_pc wk (Awaiting retry)) (failed retry err)).
  split; [by apply lookup_goto_same | reflexivity].
Qed.

(** A goroutine all of whose attempts fail at the reply, run on its
    own from its first [select]: it calls [downloadChunk] four times,
    then records the error of the fourth call, trips the cancellation
    and returns. *)
Lemma failing_worker_gives_up (i : nat) (p : Pool) (e0 e1 e2 e3 : error) :
  panicked p = false ->
  pcAt p i (Select 0) ->
  ctx_done p = false ->
  http_NewRequest_error "GET" (URL_String (Url job)) = None ->
  replyError env i 0 = Some e0 ->
  replyError env i 1 = Some e1 ->
  replyError env i 2 = Some e2 ->
  replyError env i 3 = Some e3 ->
  let p' := run_pool env job (replicate 10 i) p in
  calls p' = calls p ++ [i; i; i; i] /\
  errs p' = errs p ++ [e3] /\
  ctx_done p' = true /\
  pcAt p' i Finished /\
  panicked p' = false.
Proof.
  intros Hp Hat Hdone Hbuilt H0 H1 H2 H3. cbv zeta.
  change (replicate 10 i) with ([i; i] ++ [i; i] ++ [i; i] ++ [i; i] ++ [i; i]).
  rewrite !run_pool_app.
  destruct (failing_attempt i p 0 e0 Hp Hat Hdone Hbuilt H0)
    as (Hp1 & Hat1 & Hdone1 & Herrs1 & Hcalls1).
  set (p1 := run_pool env job [i; i] p) in *.
  rewrite failed_retry in Hat1 by lia.
  destruct (failing_attempt i p1 1 e1 Hp1 Hat1 Hdone1 Hbuilt H1)
    as (Hp2 & Hat2 & Hdone2 & Herrs2 & Hcalls2).
  set (p2 := run_pool env job [i; i] p1) in *.
  rewrite failed_retry in Hat2 by lia.
  destruct (failing_attempt i p2 2 e2 Hp2 Hat2 Hdone2 Hbuilt H2)
    as (Hp3 & Hat3 & Hdone3 & Herrs3 & Hcalls3).
  set (p3 := run_pool env job [i; i] p2) in *.
  rewrite failed_retry in Hat3 by lia.
  destruct (failing_attempt i p3 3 e3 Hp3 Hat3 Hdone3 Hbuilt H3)
    as (Hp4 & Hat4 & Hdone4 & Herrs4 & Hcalls4).
  set (p4 := run_pool env job [i; i] p3) in *.
  destruct (after_failure i p4 3 e3 Hp4 Hat4) as [_ Hlast].
  destruct (Hlast ltac:(lia)) as (Herrs5 & Hdone5 & Hat5 & Hcalls5 & Hp5).
  split; [|split; [|split; [|split]]].
  - rewrite Hcalls5, Hcalls4, Hcalls3, Hcalls2, Hcalls1. by rewrite <- !app_assoc.
  - rewrite Herrs5, Herrs4, Herrs3, Herrs2, Herrs1. reflexivity.
  - exact Hdone5.
  - exact Hat5.
  - exact Hp5.
Qed.
End Failure.

Section PoolTheorems.
Context `{Platform}.

Lemma fetchInfo_lck (env : Env) (job job' : Job) (w w' : World) (err : option error) :
  fetchInfo env job w = Returns (err, job', w') -> _lck job' = _lck job.
Proof.
  unfold fetchInfo. cbv zeta.
  destruct (http_NewRequest_error _ _); [by intros [= <- <- <-]|].
  destruct (probe_reply env) as [msg|r]; [by intros [= <- <- <-]|].
  destruct (StatusCode r =? 404); [by intros [= <- <- <-]|].
  destruct (StatusCode r =? 401); [by intros [= <- <- <-]|].
  destruct (StatusCode r >? 299); [by intros [= <- <- <-]|].
  destruct (ParseUint _).
  - destruct (negb _).
    + destruct (getFileNameByResponse r); cbn; [|discriminate..].
      intros [= <- <- <-]. by destruct (String.eqb _ _).
    + intros [= <- <- <-]. by destruct (String.eqb _ _).
  - intros [= <- <- <-]. by destruct (String.eqb _ _).
Qed.

Lemma chosen_lck (job : Job) (path : string) : _lck (chosen job path) = _lck job.
Proof. unfold chosen. by destruct (filepath_Split path). Qed.

Lemma createTargetFile_loop_lck (env : Env) (job job' : Job) (w w' : World)
    (bwe ext : string) (r : result string) (fuel : nat) :
  forall index,
    createTargetFile_loop fuel env job w bwe ext index = Some (r, job', w') ->
    _lck job' = _lck job.
Proof.
  induction fuel as [|fuel IH]; intros index; cbn; [discriminate|].
  destruct (IsNotExist w _); [|apply IH].
  destruct (os_Create _ _ _). by intros [= <- <- <-].
Qed.

Lemma createTargetFile_lck (env : Env) (job job' : Job) (w w' : World)
    (r : result string) :
  createTargetFile env job w = Some (r, job', w') -> _lck job' = _lck job.
Proof.
  unfold createTargetFile. destruct (Overwrite _).
  - destruct (os_Create _ _ _). by intros [= <- <- <-].
  - destruct (IsNotExist w _).
    + destruct (os_Create _ _ _). by intros [= <- <- <-].
    + apply createTargetFile_loop_lck.
Qed.

(** What [multiThreadDownload] returns is what [createTargetFile]
    failed with, or what the workers' record surfaces once all of
    them have returned. *)
Lemma multiThreadDownload_returns (env : Env) (job job' : Job) (w w' : World)
    (r : option error) :
  multiThreadDownload env job w = Returns (r, job', w') ->
  (exists err, createTargetFile env job w = Some (Err err, job', w') /\ r = Some err) \/
  (exists path w1,
     createTargetFile env job w = Some (Ok path, job', w1) /\
     let p := run_pool env job' (schedule env)
                (spawn job' path (chunkRanges job' (AvaiableTreads job))) in
     panicked p = false /\ all_finished p = true /\
     r = surfaced p /\ w' = settle w1 p).
Proof.
  unfold multiThreadDownload. cbv zeta.
  destruct (createTargetFile env job w) as [[[[path|err] j1] w1]|]; [| |discriminate].
  - destruct (panicked _) eqn:Hpanic; [discriminate|].
    destruct (all_finished _) eqn:Hall; [|discriminate].
    intros [= <- <- <-]. right. exists path, w1. repeat split; assumption.
  - intros [= <- <- <-]. left. by exists err.
Qed.

(** With a nil lock, a fetch that returns has written nothing: the
    destination is the empty file [createTargetFile] made. *)
Lemma multiThreadDownload_nil_lock (env : Env) (job job' : Job) (w w' : World)
    (r : option error) (path : string) (w1 : World) :
  _lck job = None ->
  createTargetFile env job w = Some (Ok path, job', w1) ->
  multiThreadDownload env job w = Returns (r, job', w') ->
  files w' !! path = Some [].
Proof.
  intros Hnil Hcreate Hret.
  pose proof (createTargetFile_lck env job job' w w1 _ Hcreate) as Hlck.
  destruct (multiThreadDownload_returns env job job' w w' r Hret)
    as [(err & Herr & _) | (path' & w1' & Hok & _ & _ & _ & ->)]; [congruence|].
  rewrite Hcreate in Hok. injection Hok as <- <-.
  assert (Hinv : nilLock {| file_path := path; cursor := 0; data := [] |}
                   (run_pool env job' (schedule env)
                      (spawn job' path (chunkRanges job' (AvaiableTreads job))))).
  { apply (run_pool_invariant env job').
    - intros i q. apply (step_nilLock env job').
    - apply spawn_nilLock. congruence. }
  destruct Hinv as (_ & _ & Hfile).
  unfold settle. cbn [files]. rewrite Hfile. cbn. apply lookup_insert_eq.
Qed.

Lemma createTargetFile_loop_set_schedule (env : Env) (sched : list nat) (job : Job)
    (w : World) (bwe ext : string) (fuel : nat) :
  forall index,
    createTargetFile_loop fuel (set_schedule env sched) job w bwe ext index =
    createTargetFile_loop fuel env job w bwe ext index.
Proof.
  induction fuel as [|fuel IH]; intros index; [reflexivity|].
  cbn [createTargetFile_loop]. by rewrite IH.
Qed.

Lemma createTargetFile_set_schedule (env : Env) (sched : list nat) (job : Job) (w : World) :
  createTargetFile (set_schedule env sched) job w = createTargetFile env job w.
Proof.
  unfold createTargetFile. destruct (Overwrite _); [reflexivity|].
  destruct (IsNotExist _ _); [reflexivity|].
  apply createTargetFile_loop_set_schedule.
Qed.

Lemma run_pool_set_schedule (env : Env) (sched : list nat) (job : Job) (s : list nat)
    (p : Pool) :
  run_pool (set_schedule env sched) job s p = run_pool env job s p.
Proof. reflexivity. Qed.

(** Unless the lock is handed over taken, there is a schedule under
    which [multiThreadDownload] returns or panics. *)
Lemma multiThreadDownload_completes (env : Env) (job : Job) (w : World) :
  _lck job <> Some {| locked := true |} ->
  createTargetFile env job w <> None ->
  exists sched, multiThreadDownload (set_schedule env sched) job w <> Pending.
Proof.
  intros Hlck Hcreate.
  destruct (createTargetFile env job w) as [[[[path|err] job'] w1]|] eqn:Hc;
    [| |contradiction].
  - pose proof (createTargetFile_lck env job job' w w1 _ Hc) as Hsame.
    destruct (pool_completes env job' path (chunkRanges job' (AvaiableTreads job)))
      as (sched & Hrun); [congruence|].
    exists sched. unfold multiThreadDownload.
    rewrite createTargetFile_set_schedule, Hc. cbn [schedule set_schedule].
    rewrite run_pool_set_schedule. cbv zeta in Hrun.
    destruct Hrun as [-> | Hall]; [discriminate|].
    destruct (panicked _); [discriminate|]. rewrite Hall. discriminate.
  - exists []. unfold multiThreadDownload.
    rewrite createTargetFile_set_schedule, Hc. discriminate.
Qed.
(** C2. [NewJob] leaves [_lck] nil, and nothing on the way to the
    workers sets it. In every state the workers of such a Job reach,
    under every schedule and whatever the server replies, the lock
    is nil, no goroutine is between [Lock] and [Unlock], the file is
    as it was created, and a goroutine that has come to
    [job._lck.Lock()] panics with its next step; a fetch that returns
    leaves the destination empty. *)
Theorem C2_lock_is_nil (d d' : Downloader) (url : string)
    (withOption : list (Option -> Option)) (job : Job) :
  NewJob d url withOption = (Ok job, d') ->
  _lck job = None /\
  forall (env : Env) (job' : Job) (path : string) (ranges : list (Z * Z))
         (sched : list nat),
    _lck job' = _lck job ->
    let p := run_pool env job' sched (spawn job' path ranges) in
    pool_lck p = None /\
    (forall i wk, workers p !! i = Some wk -> holdsLock (w_pc wk) = false) /\
    file p = {| file_path := path; cursor := 0; data := [] |} /\
    (forall i wk retry body,
       panicked p = false ->
       workers p !! i = Some wk ->
       w_pc wk = Locking retry body ->
       step env job' i p = panic p) /\
    (forall (w w1 w' : World) (job'' : Job) (r : option error),
       createTargetFile env job' w = Some (Ok path, job'', w1) ->
       multiThreadDownload env job' w = Returns (r, job'', w') ->
       files w' !! path = Some []).
Proof.
  intros Hnew. pose proof (NewJob_lck _ _ _ _ _ Hnew) as Hnil.
  split; [exact Hnil|].
  intros env job' path ranges sched Hsame p.
  assert (Hnil' : _lck job' = None) by congruence.
  assert (Hinv : nilLock {| file_path := path; cursor := 0; data := [] |} p).
  { apply (run_pool_invariant env job').
    - intros i q. apply (step_nilLock env job').
    - apply spawn_nilLock. congruence. }
  destruct Hinv as (Hlck & Hout & Hfile).
  split; [exact Hlck|]. split; [exact Hout|]. split; [exact Hfile|]. split.
  - intros i wk retry body Hpanic Hwk Hpc.
    by apply (step_Lock_nil env job' i p wk retry body).
  - intros w w1 w' job'' r Hcreate Hret.
    exact (multiThreadDownload_nil_lock env job' job'' w w' r path w1 Hnil' Hcreate Hret).
Qed.

(** C9. In every state the workers reach, under every schedule and
    whatever the server replies: at most one goroutine is between
    [Lock] and [Unlock]; while one is, the lock is taken; a step
    that changes the file (a seek or a write) is a step of that
    goroutine and leaves it there; and a goroutine that is copying
    finds the cursor at its own start plus what it has written, so
    no other seek or write has come between its seek and its
    writes. *)
Theorem C9_write_section_exclusive (env : Env) (job : Job) (path : string)
    (ranges : list (Z * Z)) (sched : list nat) :
  let p := run_pool env job sched (spawn job path ranges) in
  (forall i j wi wj,
     workers p !! i = Some wi -> workers p !! j = Some wj ->
     holdsLock (w_pc wi) = true -> holdsLock (w_pc wj) = true -> i = j) /\
  (forall i wk,
     workers p !! i = Some wk -> holdsLock (w_pc wk) = true ->
     pool_lck p = Some {| locked := true |}) /\
  (forall i,
     file (step env job i p) <> file p ->
     exists wk wk',
       workers p !! i = Some wk /\ holdsLock (w_pc wk) = true /\
       workers (step env job i p) !! i = Some wk' /\ holdsLock (w_pc wk') = true) /\
  (forall i wk retry body written,
     workers p !! i = Some wk -> w_pc wk = Copying retry body written ->
     cursor (file p) = I64.wrap (w_start wk) + copied body written).
Proof.
  intros p.
  assert (Hinv : exclusive p).
  { apply (run_pool_invariant env job).
    - intros i q. apply (step_exclusive env job).
    - apply spawn_exclusive. }
  destruct Hinv as (E1 & E2 & E3).
  repeat split; try assumption.
  intros i. exact (step_file env job i p _ eq_refl).
Qed.

(** C3. In every state the workers reach, under every schedule and
    whatever the server replies:
    - a goroutine has called [downloadChunk] at most four times; at
      its [select] its retry counter is the number of calls it has
      made, at most three; it is recording or cancelling only after
      four calls; a failure after fewer than three retries leads
      back to the [select], one after three to recording;
    - a call is made only by a goroutine at its [select] that finds
      the cancellation not tripped; one that finds it tripped
      returns, and no call is made;
    - a goroutine that gives up appends its error to the record and
      then trips the cancellation; once all have returned, an error
      on record means the cancellation is tripped;
    - the record only grows at its end, and what is surfaced is its
      first entry, whatever is recorded later.
    Every way [downloadChunk] fails leads to the same place: a
    request that cannot be built, a round trip that fails, a status
    other than 206, a seek that fails and a body that breaks off
    each take the goroutine to [failed retry err], and only a body
    copied to its end takes it to its return. From there, with fewer
    than three retries behind it the goroutine is at its [select]
    with one retry more; with three, its next two steps append the
    error to the record, trip the cancellation and return, with no
    further call. A goroutine all of whose attempts fail at the
    reply, run on its own from its first [select], makes exactly
    four calls and records the error of the fourth.
    What [multiThreadDownload] returns once its workers have returned
    is the first entry of their record; and unless the lock is handed
    over taken, there is a schedule under which it returns or
    panics. *)
Theorem C3_retry_cancel_first_error (env : Env) (job : Job) :
  (forall (path : string) (ranges : list (Z * Z)) (sched : list nat),
     let p := run_pool env job sched (spawn job path ranges) in
     (forall i wk, workers p !! i = Some wk -> (attempts p i <= 4)%nat) /\
     (forall i wk retry,
        workers p !! i = Some wk -> w_pc wk = Select retry ->
        attempts p i = retry /\ (retry <= 3)%nat) /\
     (forall i wk,
        workers p !! i = Some wk -> givingUp (w_pc wk) -> attempts p i = 4%nat) /\
     (forall retry err,
        ((retry < 3)%nat -> failed retry err = Select (S retry)) /\
        ((3 <= retry)%nat -> failed retry err = Recording err)) /\
     (forall i,
        calls (step env job i p) <> calls p ->
        ctx_done p = false /\
        exists wk retry, workers p !! i = Some wk /\ w_pc wk = Select retry) /\
     (forall i wk retry,
        panicked p = false -> workers p !! i = Some wk -> w_pc wk = Select retry ->
        (ctx_done p = true -> step env job i p = goto p i Finished) /\
        (ctx_done p = false -> calls (step env job i p) = calls p ++ [i])) /\
     (forall i wk err,
        panicked p = false -> workers p !! i = Some wk -> w_pc wk = Recording err ->
        step env job i p = goto (record p err) i Cancelling) /\
     (forall i wk,
        panicked p = false -> workers p !! i = Some wk -> w_pc wk = Cancelling ->
        step env job i p = goto (cancel p) i Finished) /\
     (all_finished p = true -> errs p <> [] -> ctx_done p = true) /\
     (forall more, exists later, errs (run_pool env job more p) = errs p ++ later) /\
     (forall err rest more,
        errs p = err :: rest -> surfaced (run_pool env job more p) = Some err)) /\
  (forall (p : Pool) (i : nat) (wk : Worker) (retry : nat),
     panicked p = false -> workers p !! i = Some wk ->
     (w_pc wk = Select retry -> ctx_done p = false ->
      forall msg,
        http_NewRequest_error "GET" (URL_String (Url job)) = Some msg ->
        step env job i p = goto (log_call p i) i (failed retry (ErrExternal msg))) /\
     (w_pc wk = Awaiting retry ->
      forall err,
        replyError env i retry = Some err ->
        step env job i p = goto p i (failed retry err)) /\
     (forall body,
        w_pc wk = Seeking retry body -> I64.wrap (w_start wk) < 0 ->
        step env job i p =
          goto (set_lck p false) i
               (failed retry (ErrExternal "seek: invalid argument"))) /\
     (forall body written msg,
        w_pc wk = Copying retry body written ->
        blocks body !! written = None -> read_error body = Some msg ->
        step env job i p = goto (set_lck p false) i (failed retry (ErrExternal msg))) /\
     (forall body written,
        w_pc wk = Copying retry body written ->
        blocks body !! written = None -> read_error body = None ->
        step env job i p = goto (set_lck p false) i Finished)) /\
  (forall (q : Pool) (i retry : nat) (err : error),
     panicked q = false -> pcAt q i (failed retry err) ->
     ((retry < 3)%nat -> pcAt q i (Select (S retry))) /\
     ((3 <= retry)%nat ->
      let q2 := run_pool env job [i; i] q in
      errs q2 = errs q ++ [err] /\ ctx_done q2 = true /\ pcAt q2 i Finished /\
      calls q2 = calls q /\ panicked q2 = false)) /\
  (forall (p : Pool) (i : nat) (e0 e1 e2 e3 : error),
     panicked p = false -> pcAt p i (Select 0) -> ctx_done p = false ->
     http_NewRequest_error "GET" (URL_String (Url job)) = None ->
     replyError env i 0 = Some e0 -> replyError env i 1 = Some e1 ->
     replyError env i 2 = Some e2 -> replyError env i 3 = Some e3 ->
     let p' := run_pool env job (replicate 10 i) p in
     calls p' = calls p ++ [i; i; i; i] /\
     errs p' = errs p ++ [e3] /\
     ctx_done p' = true /\ pcAt p' i Finished /\ panicked p' = false) /\
  (forall (w w' : World) (job' : Job) (r : option error),
     multiThreadDownload env job w = Returns (r, job', w') ->
     (exists err, createTargetFile env job w = Some (Err err, job', w') /\ r = Some err) \/
     (exists path w1,
        createTargetFile env job w = Some (Ok path, job', w1) /\
        let p := run_pool env job' (schedule env)
                   (spawn job' path (chunkRanges job' (AvaiableTreads job))) in
        all_finished p = true /\ r = head (errs p))) /\
  (forall w : World,
     _lck job <> Some {| locked := true |} ->
     createTargetFile env job w <> None ->
     exists sched, multiThreadDownload (set_schedule env sched) job w <> Pending).
Proof.
  split; [|split; [|split; [|split; [|split; [|apply multiThreadDownload_completes]]]]].
  - intros path ranges sched p.
    assert (Hcount : counted p).
    { apply (run_pool_invariant env job).
      - intros i q. apply (step_counted env job).
      - apply spawn_counted. }
    assert (Htrip : tripping p).
    { apply (run_pool_invariant env job).
      - intros i q. apply (step_tripping env job).
      - apply spawn_tripping. }
    split; [|split; [|split; [|split; [|split; [|split; [|split; [|split;
      [|split; [|split]]]]]]]]].
    + intros i wk Hwk. specialize (Hcount i wk Hwk).
      destruct (w_pc wk); cbn in Hcount; lia.
    + intros i wk retry Hwk Hpc. specialize (Hcount i wk Hwk).
      rewrite Hpc in Hcount. exact Hcount.
    + intros i wk Hwk Hgive. specialize (Hcount i wk Hwk).
      destruct (w_pc wk); cbn in Hgive; try contradiction; exact Hcount.
    + intros retry err. split; [apply failed_retry | apply failed_last].
    + intros i. exact (step_calls env job i p _ eq_refl).
    + intros i wk retry Hpanic Hwk Hpc. split; intros Hdone.
      * by apply (step_Select_cancelled env job i p wk retry).
      * by apply (step_Select_attempt env job i p wk retry).
    + intros i wk err. apply step_Recording.
    + intros i wk. apply step_Cancelling.
    + intros Hall Hrec. destruct (Htrip Hrec) as [Hdone | (i & wk & Hwk & Hpc)].
      * exact Hdone.
      * rewrite (all_finished_lookup p i wk Hall Hwk) in Hpc. discriminate.
    + intros more. apply run_pool_errs.
    + intros err rest more Herrs.
      destruct (run_pool_errs env job more p) as [later Hlater].
      unfold surfaced. rewrite Hlater, Herrs. reflexivity.
  - intros p i wk retry Hpanic Hwk.
    split; [|split; [|split; [|split]]].
    + intros Hpc Hdone msg Hreq.
      exact (step_NewRequest_failed env job i p wk retry msg Hpanic Hwk Hpc Hdone Hreq).
    + intros Hpc err Hfail.
      exact (step_reply_failed env job i p wk retry err Hpanic Hwk Hpc Hfail).
    + intros body Hpc Hoff.
      exact (step_Seek_failed env job i p wk retry body Hpanic Hwk Hpc Hoff).
    + intros body written msg Hpc Hend Hread.
      exact (step_Copy_failed env job i p wk retry body written msg
               Hpanic Hwk Hpc Hend Hread).
    + intros body written Hpc Hend Hread.
      exact (step_Copy_done env job i p wk retry body written Hpanic Hwk Hpc Hend Hread).
  - intros q i retry err. apply after_failure.
  - intros p i e0 e1 e2 e3. apply failing_worker_gives_up.
  - intros w w' job' r Hret.
    destruct (multiThreadDownload_returns env job job' w w' r Hret)
      as [Hfail | (path & w1 & Hok & _ & Hall & Hr & _)]; [by left|].
    right. exists path, w1. repeat split; assumption.
Qed.

(** C6. Without range support, or with a file smaller than the
    minimum chunk, or with a minimum chunk of zero, the planner
    answers one worker; the fetch phase starts one goroutine, and
    every request it sends, under every schedule and at every retry,
    asks for the one range [0, FileSize-1] (the subtraction is the
    [uint64] one; it is the plain one for a file that is not
    empty). *)
Theorem C6_single_worker_whole_file (env : Env) (job : Job) (path : string)
    (sched : list nat) :
  isSupportRange job = false \/
  FileSize job < MinChunkSize (Job_Option job) \/
  MinChunkSize (Job_Option job) <= 0 ->
  let whole := (0, U64.sub (FileSize job) 1) in
  let p := spawn job path (chunkRanges job (AvaiableTreads job)) in
  AvaiableTreads job = 1 /\
  chunkRanges job (AvaiableTreads job) = [whole] /\
  workers p = [{| w_start := whole.1; w_end := whole.2; w_pc := Select 0 |}] /\
  (forall i req,
     (i, req) ∈ requests (run_pool env job sched p) ->
     i = 0%nat /\ Range req = Some whole) /\
  (0 < FileSize job < U64.modulus -> whole = (0, FileSize job - 1)).
Proof.
  intros Hcase whole p. subst p.
  rewrite (AvaiableTreads_single job Hcase), chunkRanges_single. fold whole.
  split; [reflexivity|]. split; [reflexivity|]. split; [reflexivity|]. split.
  - intros i req Hin.
    destruct (run_pool_requests env job [whole] path sched i req Hin) as (r & Hr & ->).
    destruct i as [|i]; [|discriminate].
    injection Hr as <-. split; reflexivity.
  - intros Hsize. unfold whole. by rewrite U64_sub_1.
Qed.
End PoolTheorems.

Lemma C6_single_worker_whole_file_witness :
  let job := Sample.job 2000000 500000 4 false in
  @AvaiableTreads Sample.platform job = 1 /\
  @chunkRanges Sample.platform job (@AvaiableTreads Sample.platform job) = [(0, 1999999)].
Proof.
  intros job.
  destruct (@C6_single_worker_whole_file Sample.platform
              (Sample.env Sample.rangeProbe Sample.rangeProbe []) job "/dl/a.bin" []
              (or_introl eq_refl)) as (Hn & Hr & _ & _ & Hwhole).
  split; [exact Hn|].
  rewrite Hr, Hwhole; [reflexivity | split; reflexivity].
Defined.

Lemma C9_write_section_exclusive_witness :
  let job := Sample.lockedJob 6 3 2 in
  let body := {| blocks := [[1; 2]; [3]]; read_error := None |} in
  let env := Sample.env Sample.rangeProbe (Sample.response 206 [] [[1; 2]; [3]]) [] in
  let p := @run_pool Sample.platform env job [0; 0; 0; 1; 1; 1; 1; 0; 0]%nat
             (spawn job "/dl/a.bin" [(0, 2); (3, 5)]) in
  workers p !! 0%nat = Some {| w_start := 0; w_end := 2; w_pc := Copying 0 body 1 |} /\
  workers p !! 1%nat = Some {| w_start := 3; w_end := 5; w_pc := Locking 0 body |} /\
  cursor (file p) = 2.
Proof.
  intros job body env p.
  assert (H0 : workers p !! 0%nat =
               Some {| w_start := 0; w_end := 2; w_pc := Copying 0 body 1 |})
    by (vm_compute; reflexivity).
  split; [exact H0|]. split; [vm_compute; reflexivity|].
  destruct (@C9_write_section_exclusive Sample.platform env job "/dl/a.bin"
              [(0, 2); (3, 5)] [0; 0; 0; 1; 1; 1; 1; 0; 0]%nat) as (_ & _ & _ & Hcursor).
  exact (Hcursor 0%nat _ 0%nat body 1%nat H0 eq_refl).
Defined.

Lemma C3_retry_cancel_first_error_witness :
  let env := Sample.env Sample.rangeProbe (Sample.response 200 [] [[1; 2]]) [] in
  let ranges := [(0, 499999); (500000, 999999); (1000000, 1499999); (1500000, 1999999)] in
  let p := @run_pool Sample.platform env Sample.newJob (Sample.roundRobin 4 10)
             (spawn Sample.newJob "/dl/a.bin" ranges) in
  let q := @run_pool Sample.platform (Fixture.offline env) Sample.newJob
             (replicate 10 0%nat) (spawn Sample.newJob "/dl/a.bin" [(0, 9)]) in
  length (errs p) = 4%nat /\
  attempts p 2 = 4%nat /\
  ctx_done p = true /\
  surfaced p = Some ErrRangeNotSupported /\
  calls q = [0; 0; 0; 0]%nat /\
  errs q = [ErrExternal "connection refused"] /\
  ctx_done q = true.
Proof.
  intros env ranges p q.
  destruct (@C3_retry_cancel_first_error Sample.platform env Sample.newJob) as [Hpool _].
  destruct (Hpool "/dl/a.bin"%string ranges (Sample.roundRobin 4 10))
    as (_ & _ & _ & _ & _ & _ & _ & _ & Hdone & _ & Hfirst).
  destruct (@C3_retry_cancel_first_error Sample.platform (Fixture.offline env)
              Sample.newJob) as (_ & _ & _ & Hgives & _).
  destruct (Hgives (spawn Sample.newJob "/dl/a.bin" [(0, 9)]) 0%nat
              (ErrExternal "connection refused") (ErrExternal "connection refused")
              (ErrExternal "connection refused") (ErrExternal "connection refused")
              eq_refl (ex_intro _ _ (conj eq_refl eq_refl)) eq_refl eq_refl
              eq_refl eq_refl eq_refl eq_refl)
    as (Hcalls & Herrs & Hcancelled & _).
  split; [vm_compute; reflexivity|]. split; [vm_compute; reflexivity|].
  split; [|split; [|split; [exact Hcalls | split; [exact Herrs | exact Hcancelled]]]].
  - apply Hdone; [vm_compute; reflexivity | vm_compute; discriminate].
  - refine (eq_trans _ (Hfirst ErrRangeNotSupported
              [ErrRangeNotSupported; ErrRangeNotSupported; ErrRangeNotSupported] [] _)).
    + vm_compute. reflexivity.
    + vm_compute. reflexivity.
Defined.

Lemma C2_lock_is_nil_witness :
  exists (job : Job) (d' : Downloader),
    @NewJob Sample.platform Sample.downloader "http://h/a.bin" [] = (Ok job, d') /\
    _lck job = None.
Proof.
  eexists _, _. split; [vm_compute; reflexivity|].
  eapply (@C2_lock_is_nil Sample.platform Sample.downloader _ "http://h/a.bin" []).
  vm_compute. reflexivity.
Defined.

(** ** Whole runs *)

Section Runs.
Import Sample.

(** The server honours the range: the first goroutine to reach
    [job._lck.Lock()] panics. *)
Example Download_panics_on_partial_content :
  @Download platform (env rangeProbe (response 206 [] [[1; 2]]) (roundRobin 4 3))
            newJob world = Panics.
Proof. vm_compute. reflexivity. Qed.

(** The server answers every ranged request with the whole body and
    status 200: four goroutines fail four times each, four errors
    are recorded, the first one is returned. *)
Example Download_surfaces_first_error :
  let e := env rangeProbe (response 200 [] [[1; 2]]) (roundRobin 4 10) in
  let p := @run_pool platform e newJob (roundRobin 4 10)
             (spawn newJob "/dl/a.bin"
                [(0, 499999); (500000, 999999); (1000000, 1499999); (1500000, 1999999)]) in
  errs p = [ErrRangeNotSupported; ErrRangeNotSupported;
            ErrRangeNotSupported; ErrRangeNotSupported] /\
  calls p = roundRobin 4 4 /\
  ctx_done p = true /\
  all_finished p = true /\
  exists job' w',
    @Download platform e newJob world = Returns (Some ErrRangeNotSupported, job', w').
Proof. repeat split; try (vm_compute; reflexivity). eexists _, _. vm_compute. reflexivity. Qed.
End Runs.

(** ** The timeout *)

Section TimeoutFacts.
Context `{Platform}.

(** Once the [select] has found the timer not fired, the budget is
    not looked at again. *)
Lemma Download_after_select (env : Env) (job : Job) (w : World) :
  select_latency env < Timeout (Job_Option job) ->
  Download env job w =
    '(err, job, w) ← (if isFtp job then downloadFtp env job (advance w (select_latency env))
                      else downloadHttp env job (advance w (select_latency env)));
    Returns (err, job, advance w (transfer_duration env)).
Proof.
  intros Hlat. unfold Download, timer_fired. cbv zeta.
  destruct (Z.leb_spec (Timeout (Job_Option job)) (select_latency env)); [lia|].
  reflexivity.
Qed.
End TimeoutFacts.

(** C4. The specification wants the timeout to bound the whole fetch
    phase. A Job with the default budget of 10 seconds, against a
    server whose transfer takes 60 seconds and ends in the workers
    giving up, returns the workers' error with the clock at 60
    seconds: the budget was looked at once, a microsecond after the
    timer was made. *)
Theorem C4_deadline_looked_at_once :
  let env := Sample.env Sample.rangeProbe (Sample.response 200 [] [[1; 2]])
                        (Sample.roundRobin 4 10) in
  let newJob := Sample.newJob in
  Timeout (Job_Option newJob) = 10 * 1000000000 /\
  transfer_duration env = 60 * 1000000000 /\
  exists (job' : Job) (w' : World),
    @Download Sample.platform env newJob Sample.world =
      Returns (Some ErrRangeNotSupported, job', w') /\
    now w' = now Sample.world + 60 * 1000000000 + 1000.
Proof.
  repeat split. eexists _, _. split; vm_compute; reflexivity.
Qed.

(* ================================================================== *)
(** * Part III: further properties of the code *)
(* ================================================================== *)

(** ** More about the range planner *)

Lemma tiles_le (from to : Z) (ranges : list (Z * Z)) :
  tiles from ranges to -> from <= to + 1.
Proof.
  revert from. induction ranges as [|[start end_] rest IH]; intros from; cbn.
  - lia.
  - intros (-> & Hle & Hrest). specialize (IH _ Hrest). lia.
Qed.

Lemma tiles_each (from to : Z) (ranges : list (Z * Z)) (r : Z * Z) :
  tiles from ranges to -> r ∈ ranges -> r.1 <= r.2.
Proof.
  revert from. induction ranges as [|[start end_] rest IH]; intros from; cbn.
  - intros _ Hin. by apply elem_of_nil in Hin.
  - intros (-> & Hle & Hrest) [-> | Hin]%elem_of_cons; [exact Hle|].
    by apply (IH _ Hrest).
Qed.

Lemma tiles_askers (from to : Z) (ranges : list (Z * Z)) (b : Z) :
  tiles from ranges to ->
  length (askers ranges b) = if (from <=? b) && (b <=? to) then 1%nat else 0%nat.
Proof.
  revert from. induction ranges as [|[start end_] rest IH]; intros from; cbn [tiles].
  - intros ->. cbn. destruct (Z.leb_spec (to + 1) b), (Z.leb_spec b to); cbn; lia.
  - intros (-> & Hle & Hrest). pose proof (tiles_le _ _ _ Hrest) as Hto.
    unfold askers in *. rewrite filter_cons. cbn [fst snd].
    specialize (IH _ Hrest). destruct (decide (from <= b <= end_)) as [Hin | Hout].
    + cbn [length]. rewrite IH.
      destruct (Z.leb_spec (end_ + 1) b); [lia|]. cbn.
      destruct (Z.leb_spec from b), (Z.leb_spec b to); cbn; lia.
    + rewrite IH.
      destruct (Z.leb_spec (end_ + 1) b), (Z.leb_spec from b), (Z.leb_spec b to);
        cbn; lia.
Qed.

Section PlanFacts.
Context `{Platform}.

Lemma chunkRanges_none (job : Job) (n : Z) : n <= 0 -> chunkRanges job n = [].
Proof.
  intros Hn. unfold chunkRanges, seqZ. cbv zeta.
  replace (Z.to_nat n) with 0%nat by lia. reflexivity.
Qed.

Lemma chunkRanges_last (job : Job) (n : Z) :
  1 <= n ->
  1 <= chunkSizeOf job n ->
  (n - 1) * chunkSizeOf job n < U64.modulus ->
  0 < FileSize job < U64.modulus ->
  ((n - 1) * chunkSizeOf job n, FileSize job - 1) ∈ chunkRanges job n.
Proof.
  intros Hn Hc Hwrap Hsize. unfold chunkRanges. cbv zeta.
  apply list_elem_of_fmap. exists (n - 1). split.
  - unfold chunkRange. rewrite Z.eqb_refl. rewrite U64_sub_1 by exact Hsize.
    f_equal. unfold U64.mul.
    rewrite (U64_wrap_small (n - 1)) by nia. symmetry. apply U64_wrap_small. nia.
  - apply elem_of_seqZ. lia.
Qed.

(** X1. The number of workers [AvaiableTreads] answers is between 1
    and [MaxThreads] whenever [MaxThreads] is at least 1, whatever
    the sizes are and however the floating-point quotient rounds;
    with a [MaxThreads] below 1 it is 1 or [MaxThreads] itself. *)
Theorem X1_worker_count_within_ceiling (job : Job) :
  let n := AvaiableTreads job in
  let m := MaxThreads (Job_Option job) in
  (1 <= m -> 1 <= n <= m) /\ (m < 1 -> n = 1 \/ n = m).
Proof.
  cbv zeta. unfold AvaiableTreads.
  destruct (negb (isSupportRange job)); [lia|].
  destruct (FileSize job <? MinChunkSize (Job_Option job)); [lia|].
  destruct (MinChunkSize (Job_Option job) <=? 0); [lia|].
  cbv zeta.
  match goal with |- context [?t >? _] => generalize t end.
  intros threads.
  destruct (Z.gtb_spec threads (MaxThreads (Job_Option job))); [lia|].
  destruct (Z.ltb_spec threads 1); lia.
Qed.

(** X3. For a file that is not empty and a chunk size of at least
    one byte that does not overflow, the ranges the loop of
    [multiThreadDownload] makes tile the file (each starts where the
    one before ended, none is empty, the last ends at the last byte)
    exactly when the ranges before the last one leave it a byte:
    [(n-1) * chunkSize < FileSize]. *)
Theorem X3_plan_exact_iff (job : Job) (n : Z) :
  1 <= n ->
  1 <= chunkSizeOf job n ->
  (n - 1) * chunkSizeOf job n < U64.modulus ->
  0 < FileSize job < U64.modulus ->
  tiles 0 (chunkRanges job n) (FileSize job - 1) <->
  (n - 1) * chunkSizeOf job n < FileSize job.
Proof.
  intros Hn Hc Hwrap Hsize. split.
  - intros Htiles.
    pose proof (tiles_each _ _ _ _ Htiles (chunkRanges_last job n Hn Hc Hwrap Hsize)) as Hle.
    cbn in Hle. lia.
  - intros Hlast. apply chunkRanges_tiles; lia.
Qed.

(** X4. When the ranges before the last one leave it a byte, every
    byte of the file is asked for by exactly one range of the plan,
    and no byte outside the file is asked for. *)
Theorem X4_each_byte_asked_once (job : Job) (n b : Z) :
  1 <= n ->
  1 <= chunkSizeOf job n ->
  (n - 1) * chunkSizeOf job n < FileSize job < U64.modulus ->
  length (askers (chunkRanges job n) b) =
    if (0 <=? b) && (b <=? FileSize job - 1) then 1%nat else 0%nat.
Proof.
  intros Hn Hc Hsize. apply tiles_askers. by apply chunkRanges_tiles.
Qed.
End PlanFacts.

Lemma X3_plan_exact_iff_witness :
  let job := Sample.job 2000000 500000 4 true in
  tiles 0 (@chunkRanges Sample.platform job 4) 1999999.
Proof.
  intros job.
  apply (proj2 (@X3_plan_exact_iff Sample.platform job 4
                  ltac:(lia) ltac:(vm_compute; discriminate)
                  ltac:(vm_compute; reflexivity)
                  ltac:(split; vm_compute; reflexivity))).
  vm_compute. reflexivity.
Defined.

Lemma X4_each_byte_asked_once_witness :
  let job := Sample.job 2000000 500000 4 true in
  length (askers (@chunkRanges Sample.platform job 4) 1000000) = 1%nat /\
  length (askers (@chunkRanges Sample.platform job 4) 2000000) = 0%nat.
Proof.
  intros job. split.
  - apply (@X4_each_byte_asked_once Sample.platform job 4 1000000);
      [lia | vm_compute; discriminate | split; vm_compute; reflexivity].
  - apply (@X4_each_byte_asked_once Sample.platform job 4 2000000);
      [lia | vm_compute; discriminate | split; vm_compute; reflexivity].
Defined.

(** ** More about the destination file *)

Lemma set_FileName_same (job : Job) : set_FileName job (FileName job) = job.
Proof. by destruct job. Qed.

Lemma os_Create_frame (env : Env) (path : string) (w w' : World) (r : result string) :
  os_Create env path w = (r, w') ->
  sent w' = sent w /\ now w' = now w /\
  match r with
  | Err _ => w' = w
  | Ok created => created = path /\ files w' = <[path := []]> (files w)
  end.
Proof.
  unfold os_Create. destruct (os_Create_error env path); intros [= <- <-]; by repeat split.
Qed.

Section FileFrame.
Context `{Platform}.

Lemma createTargetFile_loop_frame (env : Env) (job job' : Job) (w w' : World)
    (bwe ext : string) (r : result string) (fuel : nat) :
  forall index,
    createTargetFile_loop fuel env job w bwe ext index = Some (r, job', w') ->
    sent w' = sent w /\ now w' = now w /\
    job' = set_FileName job (FileName job') /\
    match r with
    | Err _ => w' = w
    | Ok path => path = TargetFile job' /\ files w' = <[path := []]> (files w)
    end.
Proof.
  induction fuel as [|fuel IH]; intros index; cbn [createTargetFile_loop];
    [discriminate|].
  cbv zeta. destruct (IsNotExist w _); [|apply IH].
  destruct (os_Create _ _ _) as [r0 w0] eqn:Hc. intros [= <- <- <-].
  destruct (os_Create_frame _ _ _ _ _ Hc) as (Hs & Hn & Hr).
  split; [exact Hs|]. split; [exact Hn|]. split; [reflexivity|].
  destruct r0 as [created|err]; [|exact Hr]. destruct Hr as [-> Hf]. by split.
Qed.

Lemma createTargetFile_frame (env : Env) (job job' : Job) (w w' : World)
    (r : result string) :
  createTargetFile env job w = Some (r, job', w') ->
  sent w' = sent w /\ now w' = now w /\
  job' = set_FileName job (FileName job') /\
  match r with
  | Err _ => w' = w
  | Ok path => path = TargetFile job' /\ files w' = <[path := []]> (files w)
  end.
Proof.
  unfold createTargetFile.
  assert (Hhere : forall path,
            path = TargetFile job ->
            (let '(r0, w0) := os_Create env path w in Some (r0, job, w0)) =
              Some (r, job', w') ->
            sent w' = sent w /\ now w' = now w /\
            job' = set_FileName job (FileName job') /\
            match r with
            | Err _ => w' = w
            | Ok path => path = TargetFile job' /\ files w' = <[path := []]> (files w)
            end).
  { intros path Hpath. destruct (os_Create _ _ _) as [r0 w0] eqn:Hc.
    intros [= <- <- <-].
    destruct (os_Create_frame _ _ _ _ _ Hc) as (Hs & Hn & Hr).
    split; [exact Hs|]. split; [exact Hn|].
    split; [by rewrite set_FileName_same|].
    destruct r0 as [created|err]; [|exact Hr]. destruct Hr as [-> Hf].
    by split. }
  destruct (Overwrite _); [by apply Hhere|].
  destruct (IsNotExist w _); [by apply Hhere|].
  apply createTargetFile_loop_frame.
Qed.

(** X5. [createTargetFile] touches one file: when it returns a file,
    that file is the Job's [TargetFile], it is empty, and every other
    file is as it was; when [os.Create] fails the disk is as it was.
    Nothing is sent, and of the Job only [FileName] can have
    changed. *)
Theorem X5_createTargetFile_touches_one_file (env : Env) (job job' : Job) (w w' : World)
    (r : result string) :
  createTargetFile env job w = Some (r, job', w') ->
  sent w' = sent w /\
  job' = set_FileName job (FileName job') /\
  match r with
  | Err _ => files w' = files w
  | Ok path =>
      path = TargetFile job' /\
      files w' !! path = Some [] /\
      forall other, other <> path -> files w' !! other = files w !! other
  end.
Proof.
  intros (Hs & _ & Hjob & Hr)%createTargetFile_frame.
  split; [exact Hs|]. split; [exact Hjob|].
  destruct r as [path|err]; [|by rewrite Hr].
  destruct Hr as [Hpath Hf]. split; [exact Hpath|]. rewrite Hf. split.
  - apply lookup_insert_eq.
  - intros other Hne. by apply lookup_insert_ne.
Qed.
End FileFrame.

Lemma X5_createTargetFile_touches_one_file_witness :
  let env := Sample.env (Sample.response 200 [] []) (Sample.response 206 [] []) [] in
  let job := Sample.job 7 512000 4 true in
  let w := {| files := list_to_map [("/dl/a.bin", [1; 2]); ("/dl/a(1).bin", [3])]%string;
              sent := []; now := 0 |} in
  exists w',
    @createTargetFile Sample.platform env job w =
      Some (Ok "/dl/a(2).bin"%string, set_FileName job "a(2).bin", w') /\
    files w' !! "/dl/a(2).bin"%string = Some [] /\
    files w' !! "/dl/a.bin"%string = Some [1; 2] /\
    files w' !! "/dl/a(1).bin"%string = Some [3].
Proof.
  intros env job w. eexists.
  assert (Hrun : @createTargetFile Sample.platform env job w =
                 Some (Ok "/dl/a(2).bin"%string, set_FileName job "a(2).bin",
                       set_files w (<["/dl/a(2).bin"%string := []]> (files w))))
    by (vm_compute; reflexivity).
  split; [exact Hrun|].
  destruct (@X5_createTargetFile_touches_one_file Sample.platform env job _ w _ _ Hrun)
    as (_ & _ & _ & Hnew & Hothers).
  split; [exact Hnew|]. split.
  - rewrite Hothers; [vm_compute; reflexivity | discriminate].
  - rewrite Hothers; [vm_compute; reflexivity | discriminate].
Defined.

(** ** More about the pool of workers *)

Section PoolMore.
Context `{Platform}.
Variables (env : Env) (job : Job).

Lemma step_no_workers (i : nat) (p : Pool) : workers p = [] -> step env job i p = p.
Proof. intros Hw. unfold step. rewrite Hw. by destruct (panicked p). Qed.

Lemma run_pool_no_workers (sched : list nat) (p : Pool) :
  workers p = [] -> run_pool env job sched p = p.
Proof.
  intros Hw. induction sched as [|i sched IH]; [reflexivity|].
  by rewrite run_pool_cons, step_no_workers.
Qed.
End PoolMore.

Section NoWorkers.
Context `{Platform}.

(** X2. When the planner answers no worker at all (it answers
    [MaxThreads] when that is below the quotient, also when it is
    zero or negative), [multiThreadDownload] creates the destination,
    starts no goroutine, sends nothing and returns nil: the download
    is reported done and the file is empty. *)
Theorem X2_no_worker_empty_success (env : Env) (job job' : Job) (w w1 : World)
    (path : string) :
  AvaiableTreads job <= 0 ->
  createTargetFile env job w = Some (Ok path, job', w1) ->
  exists w',
    multiThreadDownload env job w = Returns (None, job', w') /\
    files w' = <[path := []]> (files w) /\
    sent w' = sent w.
Proof.
  intros Hn Hcreate.
  destruct (createTargetFile_frame _ _ _ _ _ _ Hcreate) as (Hs & _ & _ & _ & Hf).
  unfold multiThreadDownload. cbv zeta. rewrite Hcreate.
  rewrite (chunkRanges_none job' _ Hn).
  rewrite run_pool_no_workers by reflexivity. cbn.
  eexists. split; [reflexivity|]. cbn. split.
  - rewrite Hf. apply insert_insert_eq.
  - by rewrite app_nil_r.
Qed.
End NoWorkers.

Lemma X2_no_worker_empty_success_witness :
  let env := Sample.env Sample.rangeProbe (Sample.response 206 [] [[1; 2]])
                        (Sample.roundRobin 4 3) in
  let job := Sample.job 2000000 500000 0 true in
  exists w',
    @multiThreadDownload Sample.platform env job Sample.world = Returns (None, job, w') /\
    files w' = <["/dl/a.bin"%string := []]> (files Sample.world) /\
    sent w' = sent Sample.world.
Proof.
  intros env job.
  apply (@X2_no_worker_empty_success Sample.platform env job job Sample.world
           (set_files Sample.world (<["/dl/a.bin"%string := []]> (files Sample.world)))).
  - vm_compute. discriminate.
  - vm_compute. reflexivity.
Defined.

Section Refusal.
Context `{Platform}.
Variables (env : Env) (job : Job).
Hypothesis Hbuilt : http_NewRequest_error "GET" (URL_String (Url job)) = None.
Hypothesis Hrefuses :
  forall i retry, exists resp,
    chunk_reply env i retry = inr resp /\ StatusCode resp <> 206.

Lemma refusedAt_failed (retry : nat) :
  refusedAt (failed retry ErrRangeNotSupported) /\
  ~ leaving (failed retry ErrRangeNotSupported).
Proof.
  unfold failed. destruct (3 <=? retry)%nat; cbn; (split; [done | intros []]).
Qed.

(** Goroutine [i] moves and neither records nor cancels. *)
Lemma refused_goto (f : File) (p p' : Pool) (i : nat) (c : pc) :
  refused f p ->
  workers p' = workers p -> errs p' = errs p -> ctx_done p' = ctx_done p ->
  file p' = file p -> panicked p' = panicked p ->
  refusedAt c ->
  (leaving c -> errs p <> []) ->
  refused f (goto p' i c).
Proof.
  intros (Hpanic & Hfile & Hat & Herrs & Hleft) Ewk Eerrs Edone Efile Epanic Hc Hleave.
  split; [cbn; congruence|]. split; [cbn; congruence|]. split; [|split].
  - intros j wj [(-> & w0 & _ & ->) | (Hne & Hj)]%lookup_goto.
    + exact Hc.
    + rewrite Ewk in Hj. exact (Hat j wj Hj).
  - cbn. by rewrite Eerrs.
  - cbn [goto errs ctx_done]. rewrite Eerrs, Edone.
    intros [Hdone | (j & wj & [(-> & w0 & _ & ->) | (Hne & Hj)]%lookup_goto & Hl)].
    + apply Hleft. by left.
    + by apply Hleave.
    + apply Hleft. right. exists j, wj. rewrite Ewk in Hj. by split.
Qed.

Lemma step_refused (f : File) (i : nat) (p : Pool) :
  refused f p -> refused f (step env job i p).
Proof.
  intros Hinv. pose proof Hinv as (Hpanic & Hfile & Hat & Herrs & Hleft).
  step_cases.
  all: try exact Hinv.
  all: try congruence.
  all: try (specialize (Hat _ _ Swk); rewrite Spc in Hat; contradiction).
  all: try (destruct (Hrefuses i retry) as (resp' & Hreply & Hstatus);
            rewrite Hreply in Sreply; try discriminate;
            injection Sreply as ->).
  - (* the select finds the cancellation tripped *)
    apply (refused_goto f p); try first [ assumption | reflexivity | exact I ].
    intros _. apply Hleft. by left.
  - (* the request goes out *)
    apply (refused_goto f p); try first [ assumption | reflexivity | exact I ].
    intros [].
  - (* the reply is not a 206 *)
    apply (refused_goto f p); try first [ assumption | reflexivity ].
    + apply refusedAt_failed.
    + intros Hl. by apply refusedAt_failed in Hl.
  - (* the reply is a 206: there is none *)
    apply negb_false_iff, Z.eqb_eq in Sstatus. contradiction.
  - (* the error is recorded *)
    pose proof (Hat _ _ Swk) as Herr. rewrite Spc in Herr. cbn in Herr. subst err.
    split; [exact Spanic|]. split; [exact Hfile|]. split; [|split].
    + intros j wj [(-> & w0 & _ & ->) | (Hne & Hj)]%lookup_goto; [exact I|].
      exact (Hat j wj Hj).
    + cbn. apply Forall_app. split; [exact Herrs|]. by constructor.
    + intros _. cbn. by destruct (errs p).
  - (* the cancellation is tripped *)
    assert (Hrec : errs p <> []).
    { apply Hleft. right. exists i, wk. split; [exact Swk|]. by rewrite Spc. }
    split; [exact Spanic|]. split; [exact Hfile|]. split; [|split].
    + intros j wj [(-> & w0 & _ & ->) | (Hne & Hj)]%lookup_goto; [exact I|].
      exact (Hat j wj Hj).
    + exact Herrs.
    + intros _. exact Hrec.
Qed.

Lemma spawn_refused (path : string) (ranges : list (Z * Z)) :
  refused {| file_path := path; cursor := 0; data := [] |} (spawn job path ranges).
Proof.
  split; [reflexivity|]. split; [reflexivity|]. split; [|split].
  - intros i wk. cbn [spawn workers]. rewrite list_lookup_fmap.
    destruct (ranges !! i); [|discriminate]. by intros [= <-].
  - constructor.
  - intros [Hdone | (i & wk & Hwk & Hl)]; [discriminate|].
    cbn [spawn workers] in Hwk. rewrite list_lookup_fmap in Hwk.
    destruct (ranges !! i); [|discriminate]. injection Hwk as <-. contradiction.
Qed.

(** Once the goroutines of a plan that is not empty have returned,
    the refusal is what surfaces, and nothing was written. *)
Lemma run_pool_refused (path : string) (ranges : list (Z * Z)) (sched : list nat) :
  let p := run_pool env job sched (spawn job path ranges) in
  panicked p = false /\
  file p = {| file_path := path; cursor := 0; data := [] |} /\
  (ranges <> [] -> all_finished p = true -> surfaced p = Some ErrRangeNotSupported).
Proof.
  intros p.
  assert (Hinv : refused {| file_path := path; cursor := 0; data := [] |} p).
  { apply (run_pool_invariant env job).
    - intros i q. apply step_refused.
    - apply spawn_refused. }
  destruct Hinv as (Hpanic & Hfile & _ & Herrs & Hleft).
  split; [exact Hpanic|]. split; [exact Hfile|].
  intros Hsome Hall.
  assert (Hlen : (0 < length (workers p))%nat).
  { subst p. rewrite run_pool_workers_length. cbn. rewrite length_fmap.
    destruct ranges; [contradiction | cbn; lia]. }
  destruct (lookup_lt_is_Some_2 (workers p) 0 Hlen) as [wk0 Hwk0].
  assert (Hrec : errs p <> []).
  { apply Hleft. right. exists 0%nat, wk0. split; [exact Hwk0|].
    by rewrite (all_finished_lookup p 0 wk0 Hall Hwk0). }
  unfold surfaced. destruct (errs p) as [|err more]; [contradiction|].
  apply Forall_cons in Herrs as [-> _]. reflexivity.
Qed.
End Refusal.

Section RefusalTheorem.
Context `{Platform}.

Lemma chunkRanges_length (job : Job) (n : Z) :
  length (chunkRanges job n) = Z.to_nat n.
Proof. unfold chunkRanges. cbv zeta. by rewrite length_fmap, length_seqZ. Qed.

(** X6. [downloadChunk] takes any status but 206 for a refusal, also
    when the plan has one worker. Against a server that answers every
    ranged request with another status (a 200 with the whole body,
    say), under every schedule: no goroutine panics, nothing is
    written, and a [multiThreadDownload] that returns returns
    [server doesn't support Range requests] and leaves the
    destination empty; and there is a schedule under which it
    returns. *)
Theorem X6_answer_without_206_fails (env : Env) (job job' : Job) (w w1 : World)
    (path : string) :
  http_NewRequest_error "GET" (URL_String (Url job)) = None ->
  (forall i retry, exists resp,
      chunk_reply env i retry = inr resp /\ StatusCode resp <> 206) ->
  1 <= AvaiableTreads job ->
  createTargetFile env job w = Some (Ok path, job', w1) ->
  _lck job <> Some {| locked := true |} ->
  (forall sched r j w',
      multiThreadDownload (set_schedule env sched) job w = Returns (r, j, w') ->
      r = Some ErrRangeNotSupported /\ j = job' /\ files w' !! path = Some []) /\
  (forall sched, multiThreadDownload (set_schedule env sched) job w <> Panics) /\
  (exists sched w',
      multiThreadDownload (set_schedule env sched) job w =
        Returns (Some ErrRangeNotSupported, job', w')).
Proof.
  intros Hbuilt Hrefuses Hn Hcreate Hlck.
  destruct (createTargetFile_frame _ _ _ _ _ _ Hcreate) as (_ & _ & Hjob & _).
  assert (Hurl : http_NewRequest_error "GET" (URL_String (Url job')) = None)
    by (rewrite Hjob; exact Hbuilt).
  assert (Hplan : chunkRanges job' (AvaiableTreads job) <> []).
  { intros Hnil. pose proof (chunkRanges_length job' (AvaiableTreads job)) as Hlen.
    rewrite Hnil in Hlen. cbn in Hlen. lia. }
  assert (Hruns : forall sched,
            let p := run_pool (set_schedule env sched) job' sched
                       (spawn job' path (chunkRanges job' (AvaiableTreads job))) in
            panicked p = false /\
            file p = {| file_path := path; cursor := 0; data := [] |} /\
            (all_finished p = true -> surfaced p = Some ErrRangeNotSupported)).
  { intros sched.
    destruct (run_pool_refused (set_schedule env sched) job' Hurl Hrefuses path
                (chunkRanges job' (AvaiableTreads job)) sched) as (Hp & Hf & Hs).
    split; [exact Hp|]. split; [exact Hf|]. exact (Hs Hplan). }
  assert (Hfirst : forall sched r j w',
            multiThreadDownload (set_schedule env sched) job w = Returns (r, j, w') ->
            r = Some ErrRangeNotSupported /\ j = job' /\ files w' !! path = Some []).
  { intros sched r j w' Hret.
    destruct (multiThreadDownload_returns _ _ _ _ _ _ Hret)
      as [(err & Herr & _) | (path' & w1' & Hok & _ & Hall & -> & ->)];
      rewrite createTargetFile_set_schedule, Hcreate in *; [discriminate|].
    injection Hok as <- <- <-.
    destruct (Hruns sched) as (_ & Hf & Hs). cbn [schedule set_schedule] in *.
    split; [exact (Hs Hall)|]. split; [reflexivity|].
    unfold settle. cbn [files]. rewrite Hf. cbn. apply lookup_insert_eq. }
  assert (Hnever : forall sched,
            multiThreadDownload (set_schedule env sched) job w <> Panics).
  { intros sched. unfold multiThreadDownload. cbv zeta.
    rewrite createTargetFile_set_schedule, Hcreate. cbn [schedule set_schedule].
    destruct (Hruns sched) as (Hp & _ & _). rewrite Hp.
    by destruct (all_finished _). }
  split; [exact Hfirst|]. split; [exact Hnever|].
  destruct (multiThreadDownload_completes env job w Hlck) as [sched Hdone];
    [by rewrite Hcreate|].
  exists sched.
  destruct (multiThreadDownload (set_schedule env sched) job w)
    as [[[r j] w']| |] eqn:Hrun.
  - destruct (Hfirst sched r j w' Hrun) as (-> & -> & _). by exists w'.
  - by destruct (Hnever sched).
  - contradiction.
Qed.
End RefusalTheorem.

Lemma X6_answer_without_206_fails_witness :
  let env := Sample.env Sample.rangeProbe (Sample.response 200 [] [[1; 2]]) [] in
  let job := Sample.job 2 512000 4 false in
  exists sched w',
    @multiThreadDownload Sample.platform (set_schedule env sched) job Sample.world =
      Returns (Some ErrRangeNotSupported, job, w').
Proof.
  intros env job.
  apply (@X6_answer_without_206_fails Sample.platform env job job Sample.world
           (set_files Sample.world (<["/dl/a.bin"%string := []]> (files Sample.world)))
           "/dl/a.bin").
  - reflexivity.
  - intros i retry. eexists. split; [reflexivity | discriminate].
  - vm_compute. discriminate.
  - vm_compute. reflexivity.
  - discriminate.
Defined.

Section RequestFacts.
Context `{Platform}.

(** X7. Every request a worker sends, under every schedule and at
    every retry, is a GET of the Job's URL with the Job's cookies and
    a Range header, and the range is the one the plan gave to that
    worker: no worker asks for the range of another, and none sends a
    request without a range. *)
Theorem X7_requests_ask_for_own_range (env : Env) (job : Job) (path : string)
    (ranges : list (Z * Z)) (sched : list nat) (i : nat) (req : Request) :
  (i, req) ∈ requests (run_pool env job sched (spawn job path ranges)) ->
  Method req = "GET"%string /\
  req_URL req = URL_String (Url job) /\
  req_Cookies req = Cookies (Job_Option job) /\
  exists r, ranges !! i = Some r /\ Range req = Some r.
Proof.
  intros Hin.
  destruct (run_pool_requests env job ranges path sched i req Hin) as (r & Hr & ->).
  repeat split. exists r. split; [exact Hr|]. by destruct r.
Qed.
End RequestFacts.

Lemma X7_requests_ask_for_own_range_witness :
  let env := Sample.env Sample.rangeProbe (Sample.response 200 [] [[1; 2]]) [] in
  let ranges := [(0, 499999); (500000, 999999)] in
  let p := @run_pool Sample.platform env Sample.newJob [1; 0; 1]%nat
             (spawn Sample.newJob "/dl/a.bin" ranges) in
  exists req, (1%nat, req) ∈ requests p /\ Range req = Some (500000, 999999).
Proof.
  intros env ranges p.
  assert (Hin : (1%nat, @chunkRequest Sample.newJob 500000 999999) ∈ requests p)
    by (vm_compute; apply list_elem_of_here).
  eexists. split; [exact Hin|].
  destruct (@X7_requests_ask_for_own_range Sample.platform env Sample.newJob "/dl/a.bin"
              ranges [1; 0; 1]%nat 1%nat _ Hin) as (_ & _ & _ & r & Hr & Hrange).
  injection Hr as <-. exact Hrange.
Defined.

(** ** A worker that meets no failure *)

Lemma pwrite_end (d b : list Z) : pwrite d (length d) b = d ++ b.
Proof.
  unfold pwrite. rewrite firstn_all, Nat.sub_diag. cbn [replicate app].
  rewrite drop_ge by lia. by rewrite app_nil_r.
Qed.

Lemma File_Write_end (path : string) (d b : list Z) :
  File_Write {| file_path := path; cursor := Z.of_nat (length d); data := d |} b =
  {| file_path := path; cursor := Z.of_nat (length (d ++ b)); data := d ++ b |}.
Proof.
  unfold File_Write. cbn [file_path cursor data]. rewrite Nat2Z.id, pwrite_end.
  f_equal. rewrite length_app. lia.
Qed.

Section Stored.
Context `{Platform}.
Variables (env : Env) (job : Job) (path : string) (e : Z) (body : Body).

Lemma copy_all (m : nat) :
  forall (k : nat) (d : list Z),
    (k + m)%nat = length (blocks body) ->
    run_pool env job (replicate m 0%nat) (copying job path e body k d) =
    copying job path e body (length (blocks body)) (d ++ concat (drop k (blocks body))).
Proof.
  induction m as [|m IH]; intros k d Hk.
  - rewrite drop_ge by lia. cbn. rewrite app_nil_r.
    by replace (length (blocks body)) with k by lia.
  - destruct (lookup_lt_is_Some_2 (blocks body) k) as [b Hb]; [lia|].
    cbn [replicate]. rewrite run_pool_cons.
    assert (Hstep : step env job 0 (copying job path e body k d) =
                    copying job path e body (S k) (d ++ b)).
    { unfold step, copying. cbn. rewrite Hb. unfold goto, set_file. cbn.
      by rewrite File_Write_end. }
    rewrite Hstep, IH by lia.
    rewrite (drop_S _ _ _ Hb). cbn [concat]. by rewrite app_assoc.
Qed.

(** One worker alone, from its start to its return. *)
Lemma single_worker_run (resp : Response) :
  _lck job = Some {| locked := false |} ->
  http_NewRequest_error "GET" (URL_String (Url job)) = None ->
  chunk_reply env 0 0 = inr resp ->
  StatusCode resp = 206 ->
  resp_Body resp = body ->
  read_error body = None ->
  run_pool env job (replicate (5 + length (blocks body)) 0%nat) (spawn job path [(0, e)]) =
  {| workers := [{| w_start := 0; w_end := e; w_pc := Finished |}];
     ctx_done := false;
     errs := [];
     pool_lck := Some {| locked := false |};
     file := {| file_path := path;
                cursor := Z.of_nat (length (concat (blocks body)));
                data := concat (blocks body) |};
     calls := [0%nat];
     requests := [(0%nat, chunkRequest job 0 e)];
     panicked := false |}.
Proof.
  intros Hlck Hbuilt Hreply Hstatus Hbody Hread.
  replace (5 + length (blocks body))%nat with (4 + (length (blocks body) + 1))%nat by lia.
  rewrite (replicate_add 4), run_pool_app, replicate_add, run_pool_app.
  assert (Hfour : run_pool env job (replicate 4 0%nat) (spawn job path [(0, e)]) =
                  copying job path e body 0 []).
  { unfold spawn. rewrite Hlck. cbn [replicate].
    rewrite run_pool_cons. unfold step at 1. cbn -[run_pool]. rewrite Hbuilt.
    rewrite run_pool_cons. unfold step at 1. cbn -[run_pool].
    rewrite Hreply, Hstatus, Hbody. cbn -[run_pool].
    rewrite run_pool_cons. unfold step at 1. cbn -[run_pool].
    rewrite run_pool_cons. unfold step at 1. cbn -[run_pool].
    reflexivity. }
  rewrite Hfour, (copy_all (length (blocks body)) 0 []) by lia.
  cbn [app drop replicate]. rewrite run_pool_cons. cbn [run_pool foldl].
  unfold step, copying. cbn. rewrite lookup_ge_None_2 by lia. rewrite Hread.
  reflexivity.
Qed.
End Stored.

Section StoredTheorem.
Context `{Platform}.

(** X8. Lock apart, the fetch of a plan of one worker stores what the
    server sends. For a Job that has a lock, a 206 reply to the first
    request and a body read to its end: run for the steps the worker
    needs, [multiThreadDownload] returns nil, the destination holds
    the blocks of the body in their order, every other file is as it
    was, the one request sent asks for the bytes [0] to
    [FileSize - 1], and the length of the body is compared with
    nothing. *)
Theorem X8_single_worker_stores_body (env : Env) (job job' : Job) (w w1 : World)
    (path : string) (resp : Response) :
  _lck job = Some {| locked := false |} ->
  http_NewRequest_error "GET" (URL_String (Url job)) = None ->
  AvaiableTreads job = 1 ->
  createTargetFile env job w = Some (Ok path, job', w1) ->
  chunk_reply env 0 0 = inr resp ->
  StatusCode resp = 206 ->
  read_error (resp_Body resp) = None ->
  schedule env = replicate (5 + length (blocks (resp_Body resp))) 0%nat ->
  exists w',
    multiThreadDownload env job w = Returns (None, job', w') /\
    files w' !! path = Some (concat (blocks (resp_Body resp))) /\
    (forall other, other <> path -> files w' !! other = files w !! other) /\
    sent w' = sent w ++ [chunkRequest job 0 (U64.sub (FileSize job) 1)].
Proof.
  intros Hlck Hbuilt Hone Hcreate Hreply Hstatus Hread Hsched.
  destruct (createTargetFile_frame _ _ _ _ _ _ Hcreate) as (Hs & _ & Hjob & _ & Hf).
  pose proof (createTargetFile_lck _ _ _ _ _ _ Hcreate) as Hsame.
  assert (Hurl : Url job' = Url job) by (by rewrite Hjob).
  assert (Hsize : FileSize job' = FileSize job) by (by rewrite Hjob).
  assert (Hopt : Job_Option job' = Job_Option job) by (by rewrite Hjob).
  unfold multiThreadDownload. cbv zeta. rewrite Hcreate, Hone, chunkRanges_single, Hsched.
  rewrite (single_worker_run env job' path _ (resp_Body resp) resp);
    [| congruence | congruence | assumption..| reflexivity | assumption].
  cbn. eexists. split; [reflexivity|]. cbn. split; [apply lookup_insert_eq|]. split.
  - intros other Hne. rewrite lookup_insert_ne by done.
    rewrite Hf. by rewrite lookup_insert_ne.
  - rewrite Hs. unfold chunkRequest. by rewrite Hurl, Hsize, Hopt.
Qed.
End StoredTheorem.

Lemma X8_single_worker_stores_body_witness :
  let body := [[1; 2]; [3]] in
  let env := Sample.env Sample.rangeProbe (Sample.response 206 [] body)
                        (replicate 7 0%nat) in
  let job := Sample.lockedJob 3 512000 4 in
  exists w',
    @multiThreadDownload Sample.platform env job Sample.world = Returns (None, job, w') /\
    files w' !! "/dl/a.bin"%string = Some [1; 2; 3].
Proof.
  intros body env job.
  destruct (@X8_single_worker_stores_body Sample.platform env job job Sample.world
              (set_files Sample.world (<["/dl/a.bin"%string := []]> (files Sample.world)))
              "/dl/a.bin" (Sample.response 206 [] body))
    as (w' & Hrun & Hfile & _).
  - reflexivity.
  - reflexivity.
  - vm_compute. reflexivity.
  - vm_compute. reflexivity.
  - reflexivity.
  - reflexivity.
  - reflexivity.
  - reflexivity.
  - exists w'. split; [exact Hrun | exact Hfile].
Defined.

(** ** More about the probe *)

Lemma digit_of_range (c : ascii) (d : Z) : digit_of c = Some d -> 0 <= d <= 9.
Proof.
  unfold digit_of. cbv zeta.
  destruct (Z.leb_spec 48 (Z.of_N (N_of_ascii c))),
           (Z.leb_spec (Z.of_N (N_of_ascii c)) 57); cbn; try discriminate.
  intros [= <-]. lia.
Qed.

Lemma ParseUint_loop_range (s : string) :
  forall n m,
    0 <= n <= maxUint64 -> ParseUint_loop s n = Some m -> 0 <= m <= maxUint64.
Proof.
  induction s as [|c s IH]; intros n m Hn; cbn [ParseUint_loop].
  - by intros [= <-].
  - destruct (digit_of c) as [d|] eqn:Hd; [|discriminate].
    apply digit_of_range in Hd.
    destruct (Z.leb_spec (maxUint64 / 10 + 1) n); [discriminate|].
    cbv zeta. destruct (Z.ltb_spec maxUint64 (n * 10 + d)); [discriminate|].
    apply IH. lia.
Qed.

Lemma ParseUint_range (s : string) (n : Z) :
  ParseUint s = Some n -> 0 <= n < U64.modulus.
Proof.
  unfold ParseUint. destruct s as [|c s]; [discriminate|].
  intros Hn%ParseUint_loop_range; [|by vm_compute].
  unfold maxUint64 in Hn. lia.
Qed.

Section ProbeMore.
Context `{Platform}.

(** What [fetchInfo] does with a reply it accepts whose
    Content-Length parses. *)
Lemma fetchInfo_sized (env : Env) (job : Job) (w : World) (r : Response) (n : Z) :
  http_NewRequest_error "HEAD" (URL_String (Url job)) = None ->
  probe_reply env = inr r ->
  StatusCode r <= 299 ->
  ParseUint (Header_Get (Header r) "Content-Length") = Some n ->
  let ranged :=
    String.eqb (Header_Get (Header r) "Accept-Ranges") "bytes" || isSupportRange job in
  let job1 := set_FileSize (set_isSupportRange job ranged) n in
  fetchInfo env job w =
    if negb (EnableSaveFileDialog (Job_Option job)) then
      name ← getFileNameByResponse r;
      Returns (None, set_FileName job1 name, send w (probeRequest job))
    else Returns (None, job1, send w (probeRequest job)).
Proof.
  intros Hbuilt Hreply Hstatus Hparse. cbv zeta. unfold fetchInfo. cbv zeta.
  rewrite Hbuilt, Hreply.
  destruct (Z.eqb_spec (StatusCode r) 404); [lia|].
  destruct (Z.eqb_spec (StatusCode r) 401); [lia|].
  destruct (Z.gtb_spec (StatusCode r) 299); [lia|].
  rewrite Hparse.
  destruct (String.eqb _ "bytes"); cbn [orb];
    destruct job as [opt i u name size range ftp lck]; cbn;
    destruct (EnableSaveFileDialog opt); cbn; try reflexivity.
  all: destruct range; reflexivity.
Qed.

(** X9. A reply to the probe with a status of at most 299 and a
    Content-Length that parses: [fetchInfo] returns nil, the size is
    the number parsed, which fits a [uint64]; range support is on
    when Accept-Ranges is exactly [bytes] and otherwise stays what it
    was; and with the save dialog enabled the name, the options and
    the URL of the Job are left alone, so the name the server
    proposes is not looked at. *)
Theorem X9_probe_records_size (env : Env) (job : Job) (w : World) (r : Response) (n : Z) :
  http_NewRequest_error "HEAD" (URL_String (Url job)) = None ->
  probe_reply env = inr r ->
  StatusCode r <= 299 ->
  ParseUint (Header_Get (Header r) "Content-Length") = Some n ->
  EnableSaveFileDialog (Job_Option job) = true ->
  exists job',
    fetchInfo env job w = Returns (None, job', send w (probeRequest job)) /\
    FileSize job' = n /\
    0 <= n < U64.modulus /\
    isSupportRange job' =
      (String.eqb (Header_Get (Header r) "Accept-Ranges") "bytes" || isSupportRange job) /\
    FileName job' = FileName job /\
    Job_Option job' = Job_Option job /\
    Url job' = Url job.
Proof.
  intros Hbuilt Hreply Hstatus Hparse Hdialog.
  rewrite (fetchInfo_sized env job w r n Hbuilt Hreply Hstatus Hparse).
  rewrite Hdialog. cbn [negb]. eexists. split; [reflexivity|].
  split; [reflexivity|]. split; [exact (ParseUint_range _ _ Hparse)|].
  repeat split.
Qed.

(** X10. Without the save dialog, a Content-Disposition header that
    [mime.ParseMediaType] accepts gives the Job the value of the
    parameter [FileName], a key with capitals. A parser whose keys
    are in lower case has no such parameter: the name is empty, and
    [downloadHttp] returns the bad-file-name error with nothing
    created and nothing but the probe sent. *)
Theorem X10_disposition_name_is_lost (env : Env) (job : Job) (w : World) (r : Response)
    (n : Z) (params : gmap string string) :
  http_NewRequest_error "HEAD" (URL_String (Url job)) = None ->
  probe_reply env = inr r ->
  StatusCode r <= 299 ->
  ParseUint (Header_Get (Header r) "Content-Length") = Some n ->
  EnableSaveFileDialog (Job_Option job) = false ->
  Header_Get (Header r) "Content-Disposition" <> EmptyString ->
  mime_ParseMediaType (Header_Get (Header r) "Content-Disposition") = Ok params ->
  params !! "FileName"%string = None ->
  exists job',
    fetchInfo env job w = Returns (None, job', send w (probeRequest job)) /\
    FileName job' = EmptyString /\
    downloadHttp env job w =
      Returns (Some ErrBadFileName, job', send w (probeRequest job)) /\
    files (send w (probeRequest job)) = files w.
Proof.
  intros Hbuilt Hreply Hstatus Hparse Hdialog Hcd Hmime Hkey.
  assert (Hprobe : exists job',
             fetchInfo env job w = Returns (None, job', send w (probeRequest job)) /\
             FileName job' = EmptyString /\
             EnableSaveFileDialog (Job_Option job') = false).
  { rewrite (fetchInfo_sized env job w r n Hbuilt Hreply Hstatus Hparse).
    rewrite Hdialog. cbn [negb]. unfold getFileNameByResponse. cbv zeta.
    destruct (String.eqb_spec (Header_Get (Header r) "Content-Disposition") "");
      [contradiction|].
    cbn [negb]. rewrite Hmime, Hkey. cbn. eexists. split; [reflexivity|].
    split; [reflexivity | exact Hdialog]. }
  destruct Hprobe as (job' & Hprobe & Hname & Hdialog').
  exists job'. split; [exact Hprobe|]. split; [exact Hname|]. split; [|reflexivity].
  unfold downloadHttp. rewrite Hprobe. cbn. rewrite Hdialog'.
  unfold badFileName. rewrite Hname. reflexivity.
Qed.

(** X11. Without the save dialog and without a Content-Disposition
    header the name is read off the path of the request: the path is
    parsed as a URL, and when that fails [getFileNameByUrl] reads the
    path of a nil URL. [fetchInfo] panics, and so does
    [downloadHttp]. *)
Theorem X11_unparsable_path_panics (env : Env) (job : Job) (w : World) (r : Response)
    (n : Z) (err : error) :
  http_NewRequest_error "HEAD" (URL_String (Url job)) = None ->
  probe_reply env = inr r ->
  StatusCode r <= 299 ->
  ParseUint (Header_Get (Header r) "Content-Length") = Some n ->
  EnableSaveFileDialog (Job_Option job) = false ->
  Header r !! "Content-Disposition"%string = None ->
  netUrl_Parse (resp_Request_Path r) = Err err ->
  fetchInfo env job w = Panics /\ downloadHttp env job w = Panics.
Proof.
  intros Hbuilt Hreply Hstatus Hparse Hdialog Hcd Hurl.
  assert (Hprobe : fetchInfo env job w = Panics).
  { rewrite (fetchInfo_sized env job w r n Hbuilt Hreply Hstatus Hparse).
    rewrite Hdialog. cbn [negb]. unfold getFileNameByResponse. cbv zeta.
    rewrite (Header_Get_absent _ _ Hcd). cbn.
    unfold getFileNameByUrl. rewrite Hurl. reflexivity. }
  split; [exact Hprobe|]. unfold downloadHttp. rewrite Hprobe. reflexivity.
Qed.

(** X12. Without the save dialog and without a Content-Disposition
    header, when the path of the request parses, the Job is named
    after the last element of that path. *)
Theorem X12_name_from_request_path (env : Env) (job : Job) (w : World) (r : Response)
    (n : Z) (parsed : URL) :
  http_NewRequest_error "HEAD" (URL_String (Url job)) = None ->
  probe_reply env = inr r ->
  StatusCode r <= 299 ->
  ParseUint (Header_Get (Header r) "Content-Length") = Some n ->
  EnableSaveFileDialog (Job_Option job) = false ->
  Header r !! "Content-Disposition"%string = None ->
  netUrl_Parse (resp_Request_Path r) = Ok parsed ->
  exists job',
    fetchInfo env job w = Returns (None, job', send w (probeRequest job)) /\
    FileName job' = filepath_Base (Path parsed) /\
    FileSize job' = n.
Proof.
  intros Hbuilt Hreply Hstatus Hparse Hdialog Hcd Hurl.
  rewrite (fetchInfo_sized env job w r n Hbuilt Hreply Hstatus Hparse).
  rewrite Hdialog. cbn [negb]. unfold getFileNameByResponse. cbv zeta.
  rewrite (Header_Get_absent _ _ Hcd). cbn.
  unfold getFileNameByUrl. rewrite Hurl. cbn.
  eexists. split; [reflexivity|]. split; reflexivity.
Qed.
End ProbeMore.

Lemma X9_probe_records_size_witness :
  let env := Sample.env Sample.rangeProbe (Sample.response 206 [] []) [] in
  exists job',
    @fetchInfo Sample.platform env Fixture.dialogJob Sample.world =
      Returns (None, job', send Sample.world (probeRequest Fixture.dialogJob)) /\
    FileSize job' = 2000000 /\ isSupportRange job' = true /\ FileName job' = EmptyString.
Proof.
  intros env.
  destruct (@X9_probe_records_size Sample.platform env Fixture.dialogJob Sample.world
              Sample.rangeProbe 2000000)
    as (job' & Hrun & Hsize & _ & Hrange & Hname & _).
  - reflexivity.
  - reflexivity.
  - vm_compute. discriminate.
  - vm_compute. reflexivity.
  - reflexivity.
  - exists job'. split; [exact Hrun|]. split; [exact Hsize|].
    split; [rewrite Hrange; vm_compute; reflexivity | exact Hname].
Defined.

Lemma X10_disposition_name_is_lost_witness :
  let probe := Sample.response 200 [("Content-Length", "7");
                                    ("Content-Disposition",
                                     "attachment; filename=a.bin")]%string [] in
  let env := Sample.env probe (Sample.response 206 [] []) [] in
  let job := Sample.job 0 512000 4 false in
  exists job',
    @downloadHttp Fixture.platform env job Sample.world =
      Returns (Some ErrBadFileName, job', send Sample.world (probeRequest job)) /\
    FileName job' = EmptyString.
Proof.
  intros probe env job.
  destruct (@X10_disposition_name_is_lost Fixture.platform env job Sample.world probe 7
              {[ "filename"%string := "a.bin"%string ]})
    as (job' & _ & Hname & Hrun & _).
  - reflexivity.
  - reflexivity.
  - vm_compute. discriminate.
  - vm_compute. reflexivity.
  - reflexivity.
  - vm_compute. discriminate.
  - reflexivity.
  - vm_compute. reflexivity.
  - exists job'. split; [exact Hrun | exact Hname].
Defined.

Lemma X11_unparsable_path_panics_witness :
  let env := Sample.env Fixture.colonResponse (Sample.response 206 [] []) [] in
  @downloadHttp Sample.platform env (Sample.job 0 512000 4 false) Sample.world = Panics.
Proof.
  intros env.
  refine (proj2 (@X11_unparsable_path_panics Sample.platform env
                   (Sample.job 0 512000 4 false) Sample.world Fixture.colonResponse 7
                   (ErrExternal "parse: missing protocol scheme") _ _ _ _ _ _ _)).
  - reflexivity.
  - reflexivity.
  - vm_compute. discriminate.
  - vm_compute. reflexivity.
  - reflexivity.
  - vm_compute. reflexivity.
  - reflexivity.
Defined.

Lemma X12_name_from_request_path_witness :
  let probe := Sample.response 200 [("Content-Length", "7")]%string [] in
  let env := Sample.env probe (Sample.response 206 [] []) [] in
  let job := set_FileName (Sample.job 0 512000 4 false) "" in
  exists job',
    @fetchInfo Sample.platform env job Sample.world =
      Returns (None, job', send Sample.world (probeRequest job)) /\
    FileName job' = "a.bin"%string /\ FileSize job' = 7.
Proof.
  intros probe env job.
  apply (@X12_name_from_request_path Sample.platform env job Sample.world probe 7
           {| Scheme := ""; Host := ""; Port := ""; Path := "/a.bin";
              Username := ""; Password := ""; URL_String := "/a.bin" |}).
  - reflexivity.
  - reflexivity.
  - vm_compute. discriminate.
  - vm_compute. reflexivity.
  - reflexivity.
  - vm_compute. reflexivity.
  - vm_compute. reflexivity.
Defined.

(** ** More about the two transfers *)

Section TransferFacts.
Context `{Platform}.

(** X13. A save dialog the user cancels ends the transfer with nil,
    as a finished download would: from [downloadHttp] after a probe
    that succeeded, with the disk as it was and nothing but the probe
    sent; from [downloadFtp] after a dial (of the URL's host
    followed by its port) and a login that succeeded, with nothing
    changed at all. *)
Theorem X13_cancelled_dialog_returns_nil (env : Env) (job : Job) (w : World) :
  (forall (job1 : Job) (w1 : World),
      fetchInfo env job w = Returns (None, job1, w1) ->
      EnableSaveFileDialog (Job_Option job1) = true ->
      saveDialog env (TargetFile job1) = None ->
      downloadHttp env job w = Returns (None, job1, w1) /\
      files w1 = files w /\
      (sent w1 = sent w \/ sent w1 = sent w ++ [probeRequest job])) /\
  (ftp_Dial env (Host (Url job) +:+ Port (Url job)) = None ->
   ftp_Login_error env
     (if String.eqb (Username (Url job)) "" then "anonymous"%string
      else Username (Url job))
     (Password (Url job)) = None ->
   EnableSaveFileDialog (Job_Option job) = true ->
   saveDialog env (TargetFile job) = None ->
   downloadFtp env job w = Returns (None, job, w)).
Proof.
  split.
  - intros job1 w1 Hprobe Hdialog Hcancel. split.
    + unfold downloadHttp. rewrite Hprobe. cbn. by rewrite Hdialog, Hcancel.
    + destruct (fetchInfo_world env job job1 w w1 None Hprobe) as [-> | ->].
      * split; [reflexivity | by left].
      * split; [reflexivity | by right].
  - intros Hdial Hlogin Hdialog Hcancel. unfold downloadFtp. cbv zeta.
    by rewrite Hdial, Hlogin, Hdialog, Hcancel.
Qed.

(** X14. What the user picks in the save dialog is split into a
    directory and a name, and the destination is made of them as it
    is of the Job's own: the prefix goes in front of the picked name
    again. After a probe that succeeded, [downloadHttp] with a picked
    name that has a dot is [multiThreadDownload] for the Job with the
    picked directory and name, whose destination is the picked
    directory joined with prefix and name. *)
Theorem X14_prefix_goes_before_picked_name (env : Env) (job job1 : Job) (w w1 : World)
    (picked dir name : string) :
  fetchInfo env job w = Returns (None, job1, w1) ->
  EnableSaveFileDialog (Job_Option job1) = true ->
  saveDialog env (TargetFile job1) = Some picked ->
  filepath_Split picked = (dir, name) ->
  filepath_IsAbs name = false ->
  ContainsDot name = true ->
  downloadHttp env job w = multiThreadDownload env (chosen job1 picked) w1 /\
  TargetFile (chosen job1 picked) =
    filepath_Join dir (FileNamePrefix (Job_Option job1) +:+ name).
Proof.
  intros Hprobe Hdialog Hpick Hsplit Habs Hdot.
  assert (Hchosen : chosen job1 picked =
                    set_Option (set_FileName job1 name) (set_Dir (Job_Option job1) dir))
    by (unfold chosen; by rewrite Hsplit).
  split.
  - unfold downloadHttp. rewrite Hprobe. cbn. rewrite Hdialog, Hpick. cbn.
    unfold badFileName. rewrite Hchosen. cbn. rewrite Hdot.
    destruct name; [discriminate | reflexivity].
  - rewrite Hchosen. unfold TargetFile. cbn. by rewrite Habs.
Qed.

(** What [downloadFtp] does once it has logged in, has a name that
    passes the check, and has opened the remote file. *)
Lemma downloadFtp_retrieved (env : Env) (job : Job) (w : World) (body : Body) :
  ftp_Dial env (Host (Url job) +:+ Port (Url job)) = None ->
  ftp_Login_error env
    (if String.eqb (Username (Url job)) "" then "anonymous"%string
     else Username (Url job))
    (Password (Url job)) = None ->
  EnableSaveFileDialog (Job_Option job) = false ->
  let job1 := set_FileName job (filepath_Base (Path (Url job))) in
  badFileName job1 = false ->
  ftp_Retr env (Path (Url job)) = inr body ->
  downloadFtp env job w =
    match createTargetFile env job1 w with
    | None => Pending
    | Some (Err err, job2, w1) => Returns (Some err, job2, w1)
    | Some (Ok path, job2, w1) =>
        match read_error body with
        | Some msg => Returns (Some (ErrExternal msg), job2, w1)
        | None =>
            match os_Write_error env path with
            | Some (n, msg) =>
                Returns (Some (ErrExternal msg), job2,
                         set_files w1 (<[path := take n (concat (blocks body))]>
                                         (files w1)))
            | None =>
                Returns (None, job2,
                         set_files w1 (<[path := concat (blocks body)]> (files w1)))
            end
        end
    end.
Proof.
  intros Hdial Hlogin Hdialog job1 Hname Hretr. unfold downloadFtp. cbv zeta.
  rewrite Hdial, Hlogin, Hdialog. fold job1. rewrite Hname.
  change (Url job1) with (Url job). rewrite Hretr. reflexivity.
Qed.

(** A URL with no port in it gives an address [ftp.Dial] refuses:
    the transfer ends with the dial error and nothing is touched. *)
Lemma downloadFtp_no_port (env : Env) (job : Job) (w : World) :
  hasByte ":"%char (Host (Url job) +:+ Port (Url job)) = false ->
  downloadFtp env job w = Returns (Some ErrFtpDial, job, w).
Proof. intros Hport. unfold downloadFtp, ftp_Dial. by rewrite Hport. Qed.

(** X15. An FTP transfer without the dialog dials the URL's host
    followed by its port, with nothing between them, and is named
    after the last element of the URL's path. Once the dial and the
    login have succeeded, the remote file is open and
    [createTargetFile] has made the destination:
    - a body read to its end and written in full is what the
      destination holds, every other file is as it was, nothing is
      sent over HTTP, and nil is returned;
    - the file is created before the body is read: a body that breaks
      off leaves the file on disk, empty, and the reader's error is
      returned;
    - a write that fails leaves the bytes it wrote, and its error is
      returned. *)
Theorem X15_ftp_stores_whole_body (env : Env) (job job2 : Job) (w w1 : World)
    (body : Body) (path : string) :
  ftp_Dial env (Host (Url job) +:+ Port (Url job)) = None ->
  ftp_Login_error env
    (if String.eqb (Username (Url job)) "" then "anonymous"%string
     else Username (Url job))
    (Password (Url job)) = None ->
  EnableSaveFileDialog (Job_Option job) = false ->
  let job1 := set_FileName job (filepath_Base (Path (Url job))) in
  badFileName job1 = false ->
  ftp_Retr env (Path (Url job)) = inr body ->
  createTargetFile env job1 w = Some (Ok path, job2, w1) ->
  (read_error body = None ->
   os_Write_error env path = None ->
   exists w',
     downloadFtp env job w = Returns (None, job2, w') /\
     files w' !! path = Some (concat (blocks body)) /\
     (forall other, other <> path -> files w' !! other = files w !! other) /\
     sent w' = sent w) /\
  (forall msg,
     read_error body = Some msg ->
     downloadFtp env job w = Returns (Some (ErrExternal msg), job2, w1) /\
     files w1 !! path = Some []) /\
  (forall n msg,
     read_error body = None ->
     os_Write_error env path = Some (n, msg) ->
     exists w',
       downloadFtp env job w = Returns (Some (ErrExternal msg), job2, w') /\
       files w' !! path = Some (take n (concat (blocks body)))).
Proof.
  intros Hdial Hlogin Hdialog job1 Hname Hretr Hcreate.
  pose proof (downloadFtp_retrieved env job w body Hdial Hlogin Hdialog Hname Hretr)
    as Hrun.
  cbv zeta in Hrun. fold job1 in Hrun. rewrite Hcreate in Hrun.
  destruct (createTargetFile_frame _ _ _ _ _ _ Hcreate) as (Hs & _ & _ & _ & Hf).
  split; [|split].
  - intros Hread Hwrite. rewrite Hread, Hwrite in Hrun. eexists. split; [exact Hrun|].
    cbn. split; [apply lookup_insert_eq|]. split; [|exact Hs].
    intros other Hne. rewrite lookup_insert_ne by done.
    rewrite Hf. by rewrite lookup_insert_ne.
  - intros msg Hread. rewrite Hread in Hrun. split; [exact Hrun|].
    rewrite Hf. apply lookup_insert_eq.
  - intros n msg Hread Hwrite. rewrite Hread, Hwrite in Hrun.
    eexists. split; [exact Hrun|]. cbn. apply lookup_insert_eq.
Qed.

Lemma chosen_kept (job : Job) (picked : string) :
  FileSize (chosen job picked) = FileSize job /\
  isSupportRange (chosen job picked) = isSupportRange job /\
  Url (chosen job picked) = Url job.
Proof. unfold chosen. by destruct (filepath_Split picked). Qed.

(** [downloadFtp] sends nothing over HTTP, changes no file but the
    destination, and leaves what the probe would set as it was. *)
Lemma downloadFtp_frame (env : Env) (job job' : Job) (w w' : World)
    (r : option error) :
  downloadFtp env job w = Returns (r, job', w') ->
  sent w' = sent w /\
  (forall other, other <> TargetFile job' -> files w' !! other = files w !! other) /\
  FileSize job' = FileSize job /\
  isSupportRange job' = isSupportRange job /\
  Url job' = Url job.
Proof.
  unfold downloadFtp. cbv zeta.
  destruct (ftp_Dial env _); [by intros [= <- <- <-]|].
  destruct (ftp_Login_error env _ _); [by intros [= <- <- <-]|].
  match goal with
  | |- context [match ?x with Some _ => _ | None => _ end] =>
      destruct x as [job1|] eqn:Hresolved; [|by intros [= <- <- <-]]
  end.
  assert (Hkept : FileSize job1 = FileSize job /\
                  isSupportRange job1 = isSupportRange job /\
                  Url job1 = Url job).
  { destruct (EnableSaveFileDialog _).
    - destruct (saveDialog env _) as [picked|]; [|discriminate].
      injection Hresolved as <-. apply chosen_kept.
    - injection Hresolved as <-. by repeat split. }
  destruct (badFileName job1); [by intros [= <- <- <-]|].
  destruct (ftp_Retr env _) as [msg|body]; [by intros [= <- <- <-]|].
  destruct (createTargetFile env job1 w) as [[[[path|err] job2] w1]|] eqn:Hcreate;
    [| |discriminate].
  - destruct (createTargetFile_frame _ _ _ _ _ _ Hcreate)
      as (Hs & _ & Hjob & Hpath & Hf).
    assert (Hkept2 : FileSize job2 = FileSize job /\
                     isSupportRange job2 = isSupportRange job /\
                     Url job2 = Url job) by (by rewrite Hjob).
    destruct (read_error body);
      [|destruct (os_Write_error env path) as [[n msg]|]]; intros [= <- <- <-].
    + split; [exact Hs|]. split; [|exact Hkept2].
      intros other Hne. rewrite Hf. apply lookup_insert_ne. congruence.
    + split; [exact Hs|]. split; [|exact Hkept2].
      intros other Hne. cbn.
      rewrite lookup_insert_ne by congruence. rewrite Hf.
      apply lookup_insert_ne. congruence.
    + split; [exact Hs|]. split; [|exact Hkept2].
      intros other Hne. cbn.
      rewrite lookup_insert_ne by congruence. rewrite Hf.
      apply lookup_insert_ne. congruence.
  - destruct (createTargetFile_frame _ _ _ _ _ _ Hcreate) as (_ & _ & Hjob & ->).
    intros [= <- <- <-]. split; [reflexivity|]. split; [reflexivity|].
    by rewrite Hjob.
Qed.

(** X16. A Job for an FTP URL never speaks HTTP: whatever [Download]
    returns for a Job with [isFtp] set, no request has been sent, the
    probe included, so the size and the range support of the Job are
    what they were, and so is its URL. *)
Theorem X16_ftp_job_sends_no_http (env : Env) (job job' : Job) (w w' : World)
    (r : option error) :
  isFtp job = true ->
  Download env job w = Returns (r, job', w') ->
  sent w' = sent w /\
  FileSize job' = FileSize job /\
  isSupportRange job' = isSupportRange job /\
  Url job' = Url job.
Proof.
  intros Hftp. unfold Download. cbv zeta. rewrite Hftp.
  destruct (timer_fired _ _); [by intros [= <- <- <-]|].
  destruct (downloadFtp env job _) as [[[err job1] w1]| |] eqn:Hrun; cbn;
    [|discriminate..].
  intros [= <- <- <-].
  destruct (downloadFtp_frame _ _ _ _ _ _ Hrun) as (Hsent & _ & Hkept).
  split; [exact Hsent | exact Hkept].
Qed.
End TransferFacts.

Lemma X14_prefix_goes_before_picked_name_witness :
  let env := Fixture.saving (Sample.env Sample.rangeProbe (Sample.response 206 [] []) [])
               (Some "/home/u/dl_a.bin"%string) in
  let job1 := set_FileSize (set_isSupportRange Fixture.dialogJob true) 2000000 in
  @TargetFile Fixture.platform Fixture.dialogJob = "/dl/dl_"%string /\
  @TargetFile Fixture.platform (@chosen Fixture.platform job1 "/home/u/dl_a.bin") =
    "/home/u/dl_dl_a.bin"%string.
Proof.
  intros env job1. split; [reflexivity|].
  refine (eq_trans
            (proj2 (@X14_prefix_goes_before_picked_name Fixture.platform env
                      Fixture.dialogJob job1 Sample.world
                      (send Sample.world (probeRequest Fixture.dialogJob))
                      "/home/u/dl_a.bin" "/home/u/" "dl_a.bin" _ _ _ _ _ _)) _).
  - vm_compute. reflexivity.
  - reflexivity.
  - reflexivity.
  - reflexivity.
  - reflexivity.
  - reflexivity.
  - reflexivity.
Defined.

Lemma X15_ftp_stores_whole_body_witness :
  let body := {| blocks := [[1; 2]; [3]]; read_error := None |} in
  let job2 := set_FileName Fixture.ftpJob "a.bin" in
  Host (Url Fixture.ftpJob) +:+ Port (Url Fixture.ftpJob) = "h:2121"%string /\
  exists w',
    @downloadFtp Sample.platform (Fixture.ftpEnv body) Fixture.ftpJob Sample.world =
      Returns (None, job2, w') /\
    files w' !! "/dl/a.bin"%string = Some [1; 2; 3].
Proof.
  intros body job2. split; [reflexivity|].
  destruct (@X15_ftp_stores_whole_body Sample.platform (Fixture.ftpEnv body)
              Fixture.ftpJob job2 Sample.world
              (set_files Sample.world (<["/dl/a.bin"%string := []]> (files Sample.world)))
              body "/dl/a.bin") as [Hdone _].
  - reflexivity.
  - reflexivity.
  - reflexivity.
  - reflexivity.
  - reflexivity.
  - vm_compute. reflexivity.
  - destruct (Hdone eq_refl eq_refl) as (w' & Hrun & Hfile & _).
    exists w'. split; [exact Hrun | exact Hfile].
Defined.

Lemma X16_ftp_job_sends_no_http_witness :
  let body := {| blocks := [[1; 2]]; read_error := Some "connection reset"%string |} in
  exists job' w',
    @Download Sample.platform (Fixture.ftpEnv body) Fixture.ftpJob Sample.world =
      Returns (Some (ErrExternal "connection reset"), job', w') /\
    sent w' = [] /\ FileSize job' = 0.
Proof.
  intros body.
  destruct (@Download Sample.platform (Fixture.ftpEnv body) Fixture.ftpJob Sample.world)
    as [[[r job'] w']| |] eqn:Hrun; [|vm_compute in Hrun; discriminate..].
  destruct (@X16_ftp_job_sends_no_http Sample.platform (Fixture.ftpEnv body)
              Fixture.ftpJob job' Sample.world w' r eq_refl Hrun)
    as (Hsent & Hsize & _).
  exists job', w'. split; [|split; [exact Hsent | exact Hsize]].
  vm_compute in Hrun. injection Hrun as <- _ _. reflexivity.
Defined.

Lemma X13_cancelled_dialog_returns_nil_witness :
  let env := Fixture.saving (Sample.env Sample.rangeProbe (Sample.response 206 [] []) [])
               None in
  exists job1 w1,
    @downloadHttp Sample.platform env Fixture.dialogJob Sample.world =
      Returns (None, job1, w1) /\
    files w1 = files Sample.world.
Proof.
  intros env. eexists _, _.
  destruct (@X13_cancelled_dialog_returns_nil Sample.platform env Fixture.dialogJob
              Sample.world) as [Hhttp _].
  destruct (Hhttp (set_FileSize (set_isSupportRange Fixture.dialogJob true) 2000000)
                  (send Sample.world (probeRequest Fixture.dialogJob)))
    as (Hrun & Hfiles & _).
  - vm_compute. reflexivity.
  - reflexivity.
  - reflexivity.
  - split; [exact Hrun | exact Hfiles].
Defined.

(** ** The direct download *)

Lemma Split_no_separator (s : string) (sep : ascii) :
  hasByte sep s = false -> Split s sep = [s].
Proof.
  induction s as [|c s IH]; [reflexivity|]. cbn.
  intros [Hc Hs]%orb_false_elim. rewrite Hc, (IH Hs). reflexivity.
Qed.

Lemma Split_at_separator (a b : string) (sep : ascii) :
  hasByte sep a = false ->
  Split (a +:+ String sep b) sep = a :: Split b sep.
Proof.
  induction a as [|c a IH].
  - intros _. rewrite string_app_nil_l. cbn. by rewrite Ascii.eqb_refl.
  - cbn [hasByte]. intros [Hc Ha]%orb_false_elim.
    rewrite string_app_cons. cbn [Split]. rewrite Hc, (IH Ha). reflexivity.
Qed.

Lemma Split_first (a tail : string) (sep : ascii) :
  hasByte sep a = false ->
  tail = EmptyString \/ (exists rest, tail = String sep rest) ->
  exists more, Split (a +:+ tail) sep = a :: more.
Proof.
  intros Ha [-> | [rest ->]].
  - exists []. rewrite string_app_nil_r. by apply Split_no_separator.
  - eexists. by apply Split_at_separator.
Qed.

Lemma Split_pieces (s : string) (sep : ascii) :
  Forall (fun piece => hasByte sep piece = false) (Split s sep).
Proof.
  induction s as [|c s IH]; cbn [Split].
  - by repeat constructor.
  - destruct (Ascii.eqb c sep) eqn:Hc; [by constructor|].
    destruct (Split s sep) as [|piece pieces]; [by repeat constructor; cbn; rewrite Hc|].
    apply Forall_cons in IH as [Hp Hps]. constructor; [|exact Hps].
    cbn. by rewrite Hc, Hp.
Qed.

(** X17. [getFileName] cuts the Content-Disposition header at its
    equals signs and answers the second piece: what stands between
    the first equals sign and the second, or the end, untouched
    (quotes and what follows a semicolon stay in). A header with no
    equals sign, or no header, gives the empty name; and the name
    never has an equals sign in it. *)
Theorem X17_getFileName_is_second_piece (resp : Response) :
  (forall pre name tail,
      Header_Get (Header resp) "Content-Disposition" =
        pre +:+ String "="%char (name +:+ tail) ->
      hasByte "="%char pre = false ->
      hasByte "="%char name = false ->
      tail = EmptyString \/ (exists rest, tail = String "="%char rest) ->
      getFileName resp = name) /\
  (hasByte "="%char (Header_Get (Header resp) "Content-Disposition") = false ->
   getFileName resp = EmptyString) /\
  hasByte "="%char (getFileName resp) = false.
Proof.
  unfold getFileName. cbv zeta. split; [|split].
  - intros pre name tail Hcd Hpre Hname Htail. rewrite Hcd.
    destruct (String.eqb_spec (pre +:+ String "="%char (name +:+ tail)) "") as [He|_].
    + destruct pre; discriminate.
    + cbn [negb]. rewrite (Split_at_separator pre _ _ Hpre).
      destruct (Split_first name tail _ Hname Htail) as [more ->]. reflexivity.
  - intros Hnone. destruct (String.eqb _ ""); [reflexivity|]. cbn [negb].
    by rewrite (Split_no_separator _ _ Hnone).
  - destruct (String.eqb _ ""); [reflexivity|]. cbn [negb].
    pose proof (Split_pieces (Header_Get (Header resp) "Content-Disposition") "="%char)
      as Hall.
    destruct (Split _ _) as [|p0 [|p1 rest]]; try reflexivity. cbn.
    apply Forall_cons in Hall as [_ Hall]. by apply Forall_cons in Hall as [Hp1 _].
Qed.

Lemma X17_getFileName_is_second_piece_witness :
  getFileName (Sample.response 200
                 [("Content-Disposition", "attachment; filename=a.txt; size=3")]%string [])
    = "a.txt; size"%string.
Proof.
  refine (proj1 (X17_getFileName_is_second_piece _)
            "attachment; filename" "a.txt; size" "=3" _ _ _ _).
  - vm_compute. reflexivity.
  - reflexivity.
  - reflexivity.
  - right. by eexists.
Defined.

Lemma io_Copy_from (path : string) (bs : list (list Z)) :
  forall d : list Z,
    foldl File_Write {| file_path := path; cursor := Z.of_nat (length d); data := d |} bs =
    {| file_path := path;
       cursor := Z.of_nat (length (d ++ concat bs));
       data := d ++ concat bs |}.
Proof.
  induction bs as [|b bs IH]; intros d; cbn [foldl concat].
  - by rewrite app_nil_r.
  - rewrite File_Write_end, IH. by rewrite app_assoc.
Qed.

(** [io.Copy] into a file just created stores the blocks read, in
    their order. *)
Lemma io_Copy_data (path : string) (reader : Body) :
  data (io_Copy {| file_path := path; cursor := 0; data := [] |} reader) =
  concat (blocks reader).
Proof.
  unfold io_Copy. exact (f_equal data (io_Copy_from path (blocks reader) [])).
Qed.

Section DirectFacts.
Context `{Platform}.

(** X18. Whatever [DownloadFile] returns, it has sent at most its one
    request, a GET of the Job's URL with the Job's cookies and no
    Range header, and the only file that can differ from before is
    the one the user picked in the dialog; when the user cancels, the
    error is the one that asks for a location, and the request has
    gone out all the same. *)
Theorem X18_DownloadFile_keeps_to_picked_file (env : Env) (net : Direct) (job job' : Job)
    (w w' : World) (err : option file_error) :
  DownloadFile env net job w = (err, job', w') ->
  (sent w' = sent w \/ sent w' = sent w ++ [fileRequest job]) /\
  Range (fileRequest job) = None /\
  (forall other,
      saveDialog env (TargetFile job') <> Some other ->
      files w' !! other = files w !! other) /\
  (forall r,
      http_NewRequest_error "GET" (URL_String (Url job)) = None ->
      get_reply net = inr r ->
      saveDialog env (TargetFile (set_FileName job (getFileName r))) = None ->
      err = Some ErrNoSaveLocation /\ w' = send w (fileRequest job)).
Proof.
  unfold DownloadFile. cbv zeta.
  destruct (http_NewRequest_error _ _) as [msg|].
  { intros [= <- <- <-]. split; [by left|]. split; [reflexivity|].
    split; [reflexivity | discriminate]. }
  destruct (get_reply net) as [msg|r].
  { intros [= <- <- <-]. split; [by right|]. split; [reflexivity|].
    split; [reflexivity | discriminate]. }
  destruct (saveDialog env _) as [path|] eqn:Hpick.
  - destruct (os_Create env path _) as [[created|e] w1] eqn:Hcreate.
    + destruct (os_Create_frame _ _ _ _ _ Hcreate) as (Hs & _ & -> & Hf).
      assert (Hrest : forall w2 : World,
                files w2 = <[path := data (io_Copy {| file_path := path; cursor := 0;
                                                      data := [] |}
                                 (if String.eqb (Header_Get (Header r) "Content-Encoding")
                                                "deflate"
                                  then flate_NewReader net (resp_Body r)
                                  else resp_Body r))]> (files w1) ->
                forall other, Some path <> Some other ->
                  files w2 !! other = files w !! other).
      { intros w2 Hw2 other Hne. rewrite Hw2, lookup_insert_ne by congruence.
        rewrite Hf. cbn. apply lookup_insert_ne. congruence. }
      destruct (read_error _); intros [= <- <- <-].
      all: split; [right; exact Hs|]; split; [reflexivity|]; split;
        [rewrite Hpick; by apply Hrest|].
      all: intros r0 _ [= <-]; congruence.
    + destruct (os_Create_frame _ _ _ _ _ Hcreate) as (Hs & _ & ->).
      intros [= <- <- <-]. split; [by right|]. split; [reflexivity|].
      split; [reflexivity|]. intros r0 _ [= <-]. congruence.
  - intros [= <- <- <-]. split; [by right|]. split; [reflexivity|].
    split; [reflexivity|]. intros r0 _ [= <-] _. by split.
Qed.

(** X19. Once the user has picked a path that can be created,
    [DownloadFile] makes the file at that path hold what was read
    from the body (inflated when Content-Encoding is [deflate]), up
    to the end or to the read error, in place of whatever the file
    held. Neither the status of the reply nor the Job's [Overwrite],
    [Dir] or prefix is looked at for this. It returns the read error,
    else what [Sync] returns. *)
Theorem X19_DownloadFile_saves_body (env : Env) (net : Direct) (job : Job) (w : World)
    (r : Response) (path : string) :
  http_NewRequest_error "GET" (URL_String (Url job)) = None ->
  get_reply net = inr r ->
  let job1 := set_FileName job (getFileName r) in
  saveDialog env (TargetFile job1) = Some path ->
  os_Create_error env path = None ->
  let reader :=
    if String.eqb (Header_Get (Header r) "Content-Encoding") "deflate"
    then flate_NewReader net (resp_Body r) else resp_Body r in
  exists w',
    DownloadFile env net job w =
      (match read_error reader with
       | Some msg => Some (ErrOf (ErrExternal msg))
       | None => (fun msg => ErrOf (ErrExternal msg)) <$> Sync_error net path
       end, job1, w') /\
    files w' !! path = Some (concat (blocks reader)) /\
    sent w' = sent w ++ [fileRequest job].
Proof.
  intros Hbuilt Hreply job1 Hpick Hcreate reader.
  unfold DownloadFile. cbv zeta. rewrite Hbuilt, Hreply. fold job1. rewrite Hpick.
  unfold os_Create. rewrite Hcreate. fold reader. rewrite io_Copy_data.
  destruct (read_error reader); eexists; (split; [reflexivity|]); cbn;
    (split; [apply lookup_insert_eq | reflexivity]).
Qed.

(** X20. A URL that [netUrl.Parse] refuses stops [NewJob] and both
    methods of the Downloader with the parser's error: no job number
    is used up, nothing is sent and no file is touched. *)
Theorem X20_unparsable_url_stops_at_once (env : Env) (net : Direct) (d : Downloader)
    (url : string) (withOption : list (Option -> Option)) (w : World) (err : error) :
  netUrl_Parse url = Err err ->
  NewJob d url withOption = (Err err, d) /\
  Downloader_Download env d url withOption w = (Returns (Some err, w), d) /\
  Downloader_DownloadFile env net d url withOption w = (Some (ErrOf err), w, d).
Proof.
  intros Hparse.
  assert (Hnew : NewJob d url withOption = (Err err, d))
    by (unfold NewJob; by rewrite Hparse).
  split; [exact Hnew|]. split.
  - unfold Downloader_Download. by rewrite Hnew.
  - unfold Downloader_DownloadFile. by rewrite Hnew.
Qed.

(** X21. Jobs are numbered as they are made, as long as the
    interceptor leaves the number of the Job it is handed in place
    (the one [New] installs does; one that assigns the whole struct
    need not): the Job takes the Downloader's counter plus one (in
    [uint64]) and the Downloader keeps that number, so two Jobs made
    one after the other have numbers that differ by one and are not
    the same; the Downloader's options are as they were. *)
Theorem X21_jobs_are_numbered_in_turn (d d1 d2 : Downloader) (url1 url2 : string)
    (with1 with2 : list (Option -> Option)) (job1 job2 : Job) :
  (forall job, id (afterCreateJobInterceptor d job) = id job) ->
  NewJob d url1 with1 = (Ok job1, d1) ->
  NewJob d1 url2 with2 = (Ok job2, d2) ->
  id job1 = U64.add (lastJobId d) 1 /\
  lastJobId d1 = id job1 /\
  id job2 = U64.add (id job1) 1 /\
  id job2 <> id job1 /\
  Downloader_Option d2 = Downloader_Option d.
Proof.
  intros Hkeeps. unfold NewJob.
  destruct (netUrl_Parse url1); [|discriminate]. intros [= <- <-].
  destruct (netUrl_Parse url2); [|discriminate]. intros [= <- <-].
  cbn. rewrite !Hkeeps. cbn. repeat split.
  unfold U64.add, U64.wrap.
  pose proof (Z.mod_pos_bound (lastJobId d + 1) U64.modulus eq_refl) as Hb.
  set (x := (lastJobId d + 1) mod U64.modulus) in *.
  intros Heq.
  destruct (Z.eq_dec x (U64.modulus - 1)) as [Hx|Hx].
  - rewrite Hx in Heq. vm_compute in Heq. discriminate.
  - rewrite Z.mod_small in Heq by lia. lia.
Qed.
End DirectFacts.

Lemma X18_DownloadFile_keeps_to_picked_file_witness :
  let env := Sample.env Sample.rangeProbe (Sample.response 206 [] []) [] in
  let net := Fixture.direct (Sample.response 200 [] [[1; 2]]) in
  let job := Sample.job 0 512000 4 false in
  exists job' w',
    @DownloadFile Sample.platform env net job Sample.world =
      (Some ErrNoSaveLocation, job', w') /\
    w' = send Sample.world (fileRequest job).
Proof.
  intros env net job.
  destruct (@DownloadFile Sample.platform env net job Sample.world)
    as [[err job'] w'] eqn:Hrun.
  destruct (@X18_DownloadFile_keeps_to_picked_file Sample.platform env net job job'
              Sample.world w' err Hrun) as (_ & _ & _ & Hcancel).
  destruct (Hcancel (Sample.response 200 [] [[1; 2]]) eq_refl eq_refl eq_refl)
    as [-> ->].
  by eexists _, _.
Defined.

Lemma X19_DownloadFile_saves_body_witness :
  let env := Fixture.saving (Sample.env Sample.rangeProbe (Sample.response 206 [] []) [])
               (Some "/home/u/x.bin"%string) in
  let net := Fixture.direct (Sample.response 404 [] [[1; 2]; [3]]) in
  let job := Sample.job 0 512000 4 false in
  let w := {| files := {[ "/home/u/x.bin"%string := [9; 9; 9; 9] ]};
              sent := []; now := 0 |} in
  exists job' w',
    @DownloadFile Sample.platform env net job w = (None, job', w') /\
    files w' !! "/home/u/x.bin"%string = Some [1; 2; 3].
Proof.
  intros env net job w.
  destruct (@X19_DownloadFile_saves_body Sample.platform env net job w
              (Sample.response 404 [] [[1; 2]; [3]]) "/home/u/x.bin"
              eq_refl eq_refl eq_refl eq_refl) as (w' & Hrun & Hfile & _).
  eexists _, w'. split; [exact Hrun | exact Hfile].
Defined.

Lemma X20_unparsable_url_stops_at_once_witness :
  let env := Sample.env Sample.rangeProbe (Sample.response 206 [] []) [] in
  @Downloader_Download Sample.platform env Sample.downloader ":bad" [] Sample.world =
    (Returns (Some (ErrExternal "parse: missing protocol scheme"), Sample.world),
     Sample.downloader).
Proof.
  intros env.
  exact (proj1 (proj2 (@X20_unparsable_url_stops_at_once Sample.platform env
                         (Fixture.direct Sample.rangeProbe) Sample.downloader ":bad" []
                         Sample.world _ eq_refl))).
Defined.

Lemma X21_jobs_are_numbered_in_turn_witness :
  exists job1 d1 job2 d2,
    @NewJob Sample.platform Sample.downloader "http://h/a.bin" [] = (Ok job1, d1) /\
    @NewJob Sample.platform d1 "http://h/b.bin" [] = (Ok job2, d2) /\
    id job1 = 1 /\ id job2 = 2.
Proof.
  pose (first := @NewJob Sample.platform Sample.downloader "http://h/a.bin" []).
  pose (second := @NewJob Sample.platform first.2 "http://h/b.bin" []).
  assert (H1 : first = (Ok Sample.newJob, first.2)) by (vm_compute; reflexivity).
  assert (H2 : exists job2, second = (Ok job2, second.2)).
  { eexists. vm_compute. reflexivity. }
  destruct H2 as [job2 H2].
  destruct (@X21_jobs_are_numbered_in_turn Sample.platform Sample.downloader _ _ _ _ _ _
              _ _ (fun _ => eq_refl) H1 H2)
    as (Hid1 & _ & Hid2 & _).
  exists Sample.newJob, first.2, job2, second.2.
  split; [exact H1|]. split; [exact H2|].
  rewrite Hid2, Hid1. split; reflexivity.
Defined.

(** ** The lock and the number of requests *)

Lemma length_le_buckets (k n : nat) :
  forall l : list nat,
    (forall j, j ∈ l -> (j < n)%nat) ->
    (forall i, (i < n)%nat -> (length (filter (fun j => j = i) l) <= k)%nat) ->
    (length l <= k * n)%nat.
Proof.
  induction n as [|n IH]; intros l Hin Hbucket.
  - destruct l as [|j l]; [cbn; lia|].
    specialize (Hin j (list_elem_of_here j l)). lia.
  - pose proof (Permutation_length (filter_app_complement (fun j => j = n) l)) as Hlen.
    rewrite length_app in Hlen.
    assert (Hrest : (length (filter (fun j => ~ j = n) l) <= k * n)%nat).
    { apply IH.
      - intros j [Hne Hj]%list_elem_of_filter. specialize (Hin j Hj). lia.
      - intros i Hi. rewrite list_filter_filter.
        rewrite (list_filter_iff _ (fun j => (~ j = n) /\ j = i)) by tauto.
        rewrite <- list_filter_filter.
        etrans; [apply length_filter|]. apply Hbucket. lia. }
    specialize (Hbucket n ltac:(lia)). lia.
Qed.

Section LockAndCount.
Context `{Platform}.
Variables (env : Env) (job : Job).

Lemma held_goto (p p' : Pool) (i : nat) (wk : Worker) (c : pc) :
  held p ->
  workers p' = workers p -> pool_lck p' = pool_lck p ->
  workers p !! i = Some wk ->
  (holdsLock (w_pc wk) = true -> holdsLock c = true) ->
  held (goto p' i c).
Proof.
  intros Hheld Ewk Elck Hwk Hc Htaken. cbn in Htaken. rewrite Elck in Htaken.
  destruct (Hheld Htaken) as (j & wj & Hj & Hholds).
  destruct (decide (j = i)) as [-> | Hne].
  - exists i, (set_pc wk c). split.
    + apply lookup_goto_same. by rewrite Ewk.
    + apply Hc. congruence.
  - exists j, wj. split; [|exact Hholds].
    cbn [goto workers]. rewrite Ewk. by rewrite list_lookup_alter_ne.
Qed.

Lemma held_unlock (p : Pool) (i : nat) (c : pc) : held (goto (set_lck p false) i c).
Proof. intros Htaken. cbn in Htaken. by destruct (pool_lck p). Qed.

Lemma step_held (i : nat) (p : Pool) : held p -> held (step env job i p).
Proof.
  intros Hheld. step_cases.
  all: try exact Hheld.
  all: try apply held_unlock.
  all: try (apply (held_goto p _ i wk); first
            [ assumption | reflexivity | rewrite Spc; cbn; congruence ]).
  - (* the lock is taken by goroutine [i] *)
    intros _. exists i, (set_pc wk (Seeking retry body)). split; [|reflexivity].
    by apply lookup_goto_same.
Qed.

Lemma spawn_held (path : string) (ranges : list (Z * Z)) :
  _lck job <> Some {| locked := true |} -> held (spawn job path ranges).
Proof. intros Hfree Htaken. cbn in Htaken. contradiction. Qed.

Lemma logged_goto (p p' : Pool) (i : nat) (c : pc) :
  logged p ->
  workers p' = workers p -> calls p' = calls p -> requests p' = requests p ->
  logged (goto p' i c).
Proof.
  intros [Hcalls Hreqs] Ewk Ecalls Ereqs. split; cbn [goto calls requests workers].
  - intros j Hj. rewrite length_alter, Ewk. apply Hcalls. by rewrite <- Ecalls.
  - by rewrite Ecalls, Ereqs.
Qed.

Lemma step_logged (i : nat) (p : Pool) : logged p -> logged (step env job i p).
Proof.
  intros Hlog. pose proof Hlog as [Hcalls Hreqs]. step_cases.
  all: try exact Hlog.
  all: try (apply (logged_goto p); first [ assumption | reflexivity ]).
  all: split; cbn [goto log_call log_request calls requests workers];
    rewrite ?length_alter, ?length_app; cbn [length]; try lia.
  all: intros j [Hj | ->%list_elem_of_singleton]%elem_of_app;
    [by apply Hcalls | by apply lookup_lt_Some in Swk].
Qed.

Lemma spawn_logged (path : string) (ranges : list (Z * Z)) :
  logged (spawn job path ranges).
Proof.
  split; cbn; [|lia]. intros j Hj. by apply elem_of_nil in Hj.
Qed.

(** In all, the goroutines call [downloadChunk] at most four times
    each, and send no more requests than they make calls. *)
Lemma run_pool_calls (path : string) (ranges : list (Z * Z)) (sched : list nat) :
  let p := run_pool env job sched (spawn job path ranges) in
  (length (requests p) <= length (calls p))%nat /\
  (length (calls p) <= 4 * length ranges)%nat.
Proof.
  intros p.
  assert (Hlog : logged p).
  { apply (run_pool_invariant env job).
    - intros i q. apply step_logged.
    - apply spawn_logged. }
  assert (Hcount : counted p).
  { apply (run_pool_invariant env job).
    - intros i q. apply (step_counted env job).
    - apply spawn_counted. }
  destruct Hlog as [Hcalls Hreqs]. split; [exact Hreqs|].
  assert (Hlen : length (workers p) = length ranges).
  { subst p. rewrite run_pool_workers_length. cbn. by rewrite length_fmap. }
  rewrite <- Hlen. apply length_le_buckets; [exact Hcalls|].
  intros i Hi. destruct (lookup_lt_is_Some_2 (workers p) i Hi) as [wk Hwk].
  specialize (Hcount i wk Hwk). unfold attempts in Hcount.
  destruct (w_pc wk); cbn in Hcount; lia.
Qed.
End LockAndCount.

Section LockAndCountTheorems.
Context `{Platform}.

(** X22. For a Job whose lock is not handed over taken, in every
    state the workers reach, under every schedule and whatever the
    server replies, the lock is taken exactly when a goroutine is
    between [Lock] and [Unlock]: the deferred [Unlock] gives the lock
    back on every way out of [downloadChunk], the failed seek and the
    broken body included. *)
Theorem X22_lock_taken_iff_writer (env : Env) (job : Job) (path : string)
    (ranges : list (Z * Z)) (sched : list nat) :
  _lck job <> Some {| locked := true |} ->
  let p := run_pool env job sched (spawn job path ranges) in
  pool_lck p = Some {| locked := true |} <->
  exists i wk, workers p !! i = Some wk /\ holdsLock (w_pc wk) = true.
Proof.
  intros Hfree p. split.
  - assert (Hheld : held p).
    { apply (run_pool_invariant env job).
      - intros i q. apply step_held.
      - by apply spawn_held. }
    exact Hheld.
  - assert (Hinv : exclusive p).
    { apply (run_pool_invariant env job).
      - intros i q. apply (step_exclusive env job).
      - apply spawn_exclusive. }
    destruct Hinv as (Hlocked & _ & _).
    intros (i & wk & Hwk & Hholds). exact (Hlocked i wk Hwk Hholds).
Qed.

(** X23. A fetch sends at most four requests for each worker of its
    plan: whatever [multiThreadDownload] returns, under whatever
    schedule, what it has added to the requests sent is at most four
    times the number of workers. *)
Theorem X23_at_most_four_requests_per_worker (env : Env) (job job' : Job) (w w' : World)
    (r : option error) :
  multiThreadDownload env job w = Returns (r, job', w') ->
  exists added,
    sent w' = sent w ++ added /\
    (length added <= 4 * Z.to_nat (AvaiableTreads job))%nat.
Proof.
  intros Hret.
  destruct (multiThreadDownload_returns env job job' w w' r Hret)
    as [(err & Hcreate & _) | (path & w1 & Hcreate & _ & _ & _ & ->)].
  - destruct (createTargetFile_frame _ _ _ _ _ _ Hcreate) as (_ & _ & _ & ->).
    exists []. split; [by rewrite app_nil_r | cbn; lia].
  - destruct (createTargetFile_frame _ _ _ _ _ _ Hcreate) as (Hs & _).
    eexists. cbn [settle sent]. rewrite Hs. split; [reflexivity|].
    rewrite length_fmap.
    destruct (run_pool_calls env job' path (chunkRanges job' (AvaiableTreads job))
                (schedule env)) as [Hreqs Hcalls].
    rewrite chunkRanges_length in Hcalls. lia.
Qed.
End LockAndCountTheorems.

Lemma X22_lock_taken_iff_writer_witness :
  let job := Sample.lockedJob 6 3 2 in
  let env := Sample.env Sample.rangeProbe (Sample.response 206 [] [[1; 2]; [3]]) [] in
  let p := @run_pool Sample.platform env job [0; 0; 0; 1; 1; 1; 1; 0; 0]%nat
             (spawn job "/dl/a.bin" [(0, 2); (3, 5)]) in
  pool_lck p = Some {| locked := true |}.
Proof.
  intros job env p.
  apply (@X22_lock_taken_iff_writer Sample.platform env job "/dl/a.bin" [(0, 2); (3, 5)]
           [0; 0; 0; 1; 1; 1; 1; 0; 0]%nat ltac:(discriminate)).
  eexists 0%nat, _. split; vm_compute; reflexivity.
Defined.

Lemma X23_at_most_four_requests_per_worker_witness :
  let env := Sample.env Sample.rangeProbe (Sample.response 200 [] [[1; 2]])
                        (Sample.roundRobin 1 10) in
  let job := Sample.job 2 512000 4 false in
  exists r job' w' added,
    @multiThreadDownload Sample.platform env job Sample.world = Returns (r, job', w') /\
    sent w' = sent Sample.world ++ added /\ (length added <= 4)%nat.
Proof.
  intros env job.
  destruct (@multiThreadDownload Sample.platform env job Sample.world)
    as [[[r job'] w']| |] eqn:Hrun; [|vm_compute in Hrun; discriminate..].
  destruct (@X23_at_most_four_requests_per_worker Sample.platform env job job'
              Sample.world w' r Hrun) as (added & Hsent & Hlen).
  exists r, job', w', added. split; [reflexivity|]. split; [exact Hsent | exact Hlen].
Defined.

(** ** What a download leaves alone *)

Section Untouched.
Context `{Platform}.

Lemma step_file_path (env : Env) (job : Job) (i : nat) (p : Pool) :
  file_path (file (step env job i p)) = file_path (file p).
Proof. step_cases; reflexivity. Qed.

Lemma run_pool_file_path (env : Env) (job : Job) (sched : list nat) (p : Pool) :
  file_path (file (run_pool env job sched p)) = file_path (file p).
Proof.
  revert p. induction sched as [|i sched IH]; intros p; [reflexivity|].
  by rewrite run_pool_cons, IH, step_file_path.
Qed.

Lemma multiThreadDownload_untouched (env : Env) (job job' : Job) (w w' : World)
    (r : option error) (other : string) :
  multiThreadDownload env job w = Returns (r, job', w') ->
  other <> TargetFile job' ->
  files w' !! other = files w !! other.
Proof.
  intros Hret Hne.
  destruct (multiThreadDownload_returns env job job' w w' r Hret)
    as [(err & Hcreate & _) | (path & w1 & Hcreate & _ & _ & _ & ->)].
  - by destruct (createTargetFile_frame _ _ _ _ _ _ Hcreate) as (_ & _ & _ & ->).
  - destruct (createTargetFile_frame _ _ _ _ _ _ Hcreate) as (_ & _ & _ & -> & Hf).
    cbn [settle files]. rewrite run_pool_file_path. cbn.
    rewrite lookup_insert_ne by congruence. rewrite Hf.
    apply lookup_insert_ne. congruence.
Qed.

Lemma downloadHttp_untouched (env : Env) (job job' : Job) (w w' : World)
    (r : option error) (other : string) :
  downloadHttp env job w = Returns (r, job', w') ->
  other <> TargetFile job' ->
  files w' !! other = files w !! other.
Proof.
  unfold downloadHttp.
  destruct (fetchInfo env job w) as [[[err job1] w1]| |] eqn:Hprobe; cbn;
    [|discriminate..].
  assert (Hw1 : files w1 = files w)
    by (by destruct (fetchInfo_world env job job1 w w1 err Hprobe) as [-> | ->]).
  destruct err as [err|]; [intros [= <- <- <-] _; by rewrite Hw1|].
  match goal with
  | |- context [match ?x with Some _ => _ | None => _ end] =>
      destruct x as [job2|]; [|intros [= <- <- <-] _; by rewrite Hw1]
  end.
  destruct (badFileName job2); [intros [= <- <- <-] _; by rewrite Hw1|].
  intros Hret Hne. rewrite <- Hw1.
  exact (multiThreadDownload_untouched env job2 job' w1 w' r other Hret Hne).
Qed.

(** X24. Whatever [Download] returns, over HTTP or FTP, under
    whatever schedule and whatever the server and the user do, every
    file other than the Job's destination is on disk as it was. *)
Theorem X24_download_touches_only_destination (env : Env) (job job' : Job)
    (w w' : World) (r : option error) (other : string) :
  Download env job w = Returns (r, job', w') ->
  other <> TargetFile job' ->
  files w' !! other = files w !! other.
Proof.
  unfold Download. cbv zeta.
  destruct (timer_fired _ _); [by intros [= <- <- <-]|].
  destruct (isFtp job).
  - destruct (downloadFtp env job _) as [[[err job1] w1]| |] eqn:Hrun; cbn;
      [|discriminate..].
    intros [= <- <- <-] Hne. cbn [advance files].
    destruct (downloadFtp_frame _ _ _ _ _ _ Hrun) as (_ & Hrest & _).
    by rewrite (Hrest other Hne).
  - destruct (downloadHttp env job _) as [[[err job1] w1]| |] eqn:Hrun; cbn;
      [|discriminate..].
    intros [= <- <- <-] Hne. cbn [advance files].
    by rewrite (downloadHttp_untouched _ _ _ _ _ _ other Hrun Hne).
Qed.
End Untouched.

Lemma X24_download_touches_only_destination_witness :
  let env := Sample.env Sample.rangeProbe (Sample.response 200 [] [[1; 2]])
                        (Sample.roundRobin 4 10) in
  let w := {| files := {[ "/dl/b.bin"%string := [9] ]}; sent := []; now := 0 |} in
  exists r job' w',
    @Download Sample.platform env Sample.newJob w = Returns (r, job', w') /\
    files w' !! "/dl/b.bin"%string = Some [9].
Proof.
  intros env w.
  destruct (@Download Sample.platform env Sample.newJob w)
    as [[[r job'] w']| |] eqn:Hrun; [|vm_compute in Hrun; discriminate..].
  exists r, job', w'. split; [reflexivity|].
  rewrite (@X24_download_touches_only_destination Sample.platform env Sample.newJob job'
             w w' r "/dl/b.bin" Hrun).
  - vm_compute. reflexivity.
  - vm_compute in Hrun. injection Hrun as _ <- _. vm_compute. discriminate.
Defined.

Section NameFacts.
Context `{Platform}.

(** X25. Without the save dialog and without a Content-Disposition
    header, a request whose path ends in an element with no dot in it
    cannot be downloaded: the probe goes out and is accepted, the
    name read off the path fails the check, and [downloadHttp]
    returns the bad-file-name error with no file made and no range
    asked for. *)
Theorem X25_name_without_dot_is_refused (env : Env) (job : Job) (w : World)
    (r : Response) (n : Z) (parsed : URL) :
  http_NewRequest_error "HEAD" (URL_String (Url job)) = None ->
  probe_reply env = inr r ->
  StatusCode r <= 299 ->
  ParseUint (Header_Get (Header r) "Content-Length") = Some n ->
  EnableSaveFileDialog (Job_Option job) = false ->
  Header r !! "Content-Disposition"%string = None ->
  netUrl_Parse (resp_Request_Path r) = Ok parsed ->
  ContainsDot (filepath_Base (Path parsed)) = false ->
  exists job',
    downloadHttp env job w =
      Returns (Some ErrBadFileName, job', send w (probeRequest job)) /\
    FileName job' = filepath_Base (Path parsed) /\
    files (send w (probeRequest job)) = files w /\
    sent (send w (probeRequest job)) = sent w ++ [probeRequest job].
Proof.
  intros Hbuilt Hreply Hstatus Hparse Hdialog Hcd Hurl Hdot.
  unfold downloadHttp.
  rewrite (fetchInfo_sized env job w r n Hbuilt Hreply Hstatus Hparse).
  rewrite Hdialog. cbn [negb]. unfold getFileNameByResponse. cbv zeta.
  rewrite (Header_Get_absent _ _ Hcd). cbn.
  unfold getFileNameByUrl. rewrite Hurl. cbn. rewrite Hdialog.
  unfold badFileName. cbn. rewrite Hdot, orb_true_r.
  eexists. split; [reflexivity|]. by repeat split.
Qed.
End NameFacts.

Lemma X25_name_without_dot_is_refused_witness :
  let env := Sample.env Fixture.latestResponse (Sample.response 206 [] []) [] in
  let job := Sample.job 0 512000 4 false in
  exists job',
    @downloadHttp Sample.platform env job Sample.world =
      Returns (Some ErrBadFileName, job', send Sample.world (probeRequest job)) /\
    FileName job' = "latest"%string.
Proof.
  intros env job.
  destruct (@X25_name_without_dot_is_refused Sample.platform env job Sample.world
              Fixture.latestResponse 7
              {| Scheme := ""; Host := ""; Port := ""; Path := "/latest";
                 Username := ""; Password := ""; URL_String := "/latest" |})
    as (job' & Hrun & Hname & _).
  - reflexivity.
  - reflexivity.
  - vm_compute. discriminate.
  - vm_compute. reflexivity.
  - reflexivity.
  - vm_compute. reflexivity.
  - vm_compute. reflexivity.
  - reflexivity.
  - exists job'. split; [exact Hrun | exact Hname].
Defined.
